(** * staticomment: a comment server for static sites

    A shallow embedding of the guard pipeline (comment handler, spam
    heuristics, rate limiter), the comment writer and the repository
    synchronizer (clone / pull / commit-and-push, host key trust store),
    with the properties the specification states about them.

    Go strings are byte sequences: they are modelled as [string], whose
    characters ([ascii]) are the bytes.  Go's [int] and [int64] are
    modelled as [Z]; where the source computes in 64 bits and the result
    may leave the range, the wrap-around is written out ([wrap64]). *)

From Stdlib Require Import ZArith List String Ascii Bool Lia.
From Stdlib Require DecimalString.
From stdpp Require Import base gmap strings list.
Import ListNotations.

Open Scope string_scope.
Open Scope Z_scope.

(** ** Go strings *)

Module GoString.

(** The value of a byte, [s[i]] as an integer. *)
Definition byte_val (c : ascii) : Z := Z.of_N (N_of_ascii c).

(** [c] occurs in [s] (as a byte). *)
Definition InStr (c : ascii) (s : string) : Prop := In c (list_ascii_of_string s).

Fixpoint mem_byte (c : ascii) (s : string) : bool :=
  match s with
  | EmptyString => false
  | String d s' => Ascii.eqb c d || mem_byte c s'
  end.

(** [strings.HasPrefix(s, prefix)]. *)
Fixpoint HasPrefix (s pre : string) {struct pre} : bool :=
  match pre with
  | EmptyString => true
  | String a pre' =>
    match s with
    | EmptyString => false
    | String b s' => Ascii.eqb a b && HasPrefix s' pre'
    end
  end.

(** [strings.Contains(s, substr)]: [substr] starts at some offset of [s]. *)
Fixpoint Contains (s substr : string) : bool :=
  HasPrefix s substr ||
  match s with
  | EmptyString => false
  | String _ s' => Contains s' substr
  end.

(** [strings.ContainsAny(s, chars)] for [chars] made of ASCII bytes (the only
    use in the program is with the two path separators): some byte of [s]
    is one of [chars]. *)
Fixpoint ContainsAny (s chars : string) : bool :=
  match s with
  | EmptyString => false
  | String c s' => mem_byte c chars || ContainsAny s' chars
  end.

(** *** UTF-8 decoding, as a [for _, c := range s] loop performs it *)

Definition RuneError : Z := 65533.

Definition in_range (lo hi b : Z) : bool := (lo <=? b) && (b <=? hi).

(** For a leading byte [x >= 0x80]: the length of the sequence it starts and
    the range accepted for the second byte ([utf8.first] and
    [utf8.acceptRanges]); [None] for a byte that starts no sequence. *)
Definition first (x : Z) : option (nat * Z * Z) :=
  if x <? 194 then None
  else if x <=? 223 then Some (2%nat, 128, 191)
  else if x =? 224 then Some (3%nat, 160, 191)
  else if x =? 237 then Some (3%nat, 128, 159)
  else if x <=? 239 then Some (3%nat, 128, 191)
  else if x =? 240 then Some (4%nat, 144, 191)
  else if x <=? 243 then Some (4%nat, 128, 191)
  else if x =? 244 then Some (4%nat, 128, 143)
  else None.

(** [utf8.DecodeRuneInString]: the first rune of [s] and its width in bytes;
    an invalid or truncated sequence decodes to [(RuneError, 1)]. *)
Definition DecodeRuneInString (s : string) : Z * nat :=
  match s with
  | EmptyString => (RuneError, 0%nat)
  | String c0 r0 =>
    let x := byte_val c0 in
    if x <? 128 then (x, 1%nat)
    else
      match first x with
      | None => (RuneError, 1%nat)
      | Some (size, lo, hi) =>
        match r0 with
        | EmptyString => (RuneError, 1%nat)
        | String c1 r1 =>
          let b1 := byte_val c1 in
          if negb (in_range lo hi b1) then (RuneError, 1%nat)
          else if (size <=? 2)%nat then
            (Z.lor (Z.shiftl (Z.land x 31) 6) (Z.land b1 63), 2%nat)
          else
            match r1 with
            | EmptyString => (RuneError, 1%nat)
            | String c2 r2 =>
              let b2 := byte_val c2 in
              if negb (in_range 128 191 b2) then (RuneError, 1%nat)
              else if (size <=? 3)%nat then
                (Z.lor (Z.lor (Z.shiftl (Z.land x 15) 12)
                              (Z.shiftl (Z.land b1 63) 6))
                       (Z.land b2 63), 3%nat)
              else
                match r2 with
                | EmptyString => (RuneError, 1%nat)
                | String c3 _ =>
                  let b3 := byte_val c3 in
                  if negb (in_range 128 191 b3) then (RuneError, 1%nat)
                  else
                    (Z.lor (Z.lor (Z.lor (Z.shiftl (Z.land x 7) 18)
                                         (Z.shiftl (Z.land b1 63) 12))
                                  (Z.shiftl (Z.land b2 63) 6))
                           (Z.land b3 63), 4%nat)
                end
            end
        end
      end
  end.

(** The runes a [range] loop over [s] yields, in order: decode at the current
    offset, then skip the bytes the rune took ([skip] counts the bytes still
    to pass over). *)
Fixpoint range_runes_from (skip : nat) (s : string) : list Z :=
  match s with
  | EmptyString => []
  | String _ s' =>
    match skip with
    | S k => range_runes_from k s'
    | O => let '(r, size) := DecodeRuneInString s in
           r :: range_runes_from (pred size) s'
    end
  end.

Definition range_runes (s : string) : list Z := range_runes_from 0 s.

(** [utf8.RuneCountInString]. *)
Definition RuneCountInString (s : string) : nat := List.length (range_runes s).

End GoString.

(** ** Slug validation (comment handler) *)

Module SlugCheck.
Import GoString.

(** The character test of the loop of [isValidSlug], on a rune. *)
Definition slug_rune_ok (c : Z) : bool :=
  ((97 <=? c) && (c <=? 122)) || ((65 <=? c) && (c <=? 90)) ||
  ((48 <=? c) && (c <=? 57)) || (c =? 45) || (c =? 95).

Definition isValidSlug (slug : string) : bool :=
  if String.eqb slug "" then false
  else if Contains slug ".." then false
  else if ContainsAny slug "/\" then false
  else forallb slug_rune_ok (range_runes slug).

(** The characters of a slug, in the specification's words: the ASCII
    letters, the digits, the hyphen and the underscore. *)
Definition slug_alphabet : string :=
  "abcdefghijklmnopqrstuvwxyzABCDEFGHIJKLMNOPQRSTUVWXYZ0123456789-_".

(** The byte is one of the characters of a slug. *)
Definition is_slug_char (c : ascii) : bool := mem_byte c slug_alphabet.

End SlugCheck.

(** ** Integers and the standard library *)

Module GoInt.
Import GoString.

Definition min_int64 : Z := - 2 ^ 63.
Definition max_int64 : Z := 2 ^ 63 - 1.

(** The value of a 64-bit signed computation: the result modulo [2^64],
    read back as a signed integer. *)
Definition wrap64 (z : Z) : Z := (z + 2 ^ 63) mod 2 ^ 64 - 2 ^ 63.

Definition digit_val (c : ascii) : option Z :=
  let v := byte_val c in
  if in_range 48 57 v then Some (v - 48) else None.

Fixpoint parse_digits (acc : Z) (s : string) : option Z :=
  match s with
  | EmptyString => Some acc
  | String c s' =>
    match digit_val c with
    | Some d => parse_digits (acc * 10 + d) s'
    | None => None
    end
  end.

(** [strconv.ParseInt(s, 10, 64)]: an optional sign followed by one or more
    decimal digits, whose value fits in 64 bits; [None] stands for a non-nil
    error (syntax or range). *)
Definition ParseInt (s : string) : option Z :=
  match s with
  | EmptyString => None
  | String c rest =>
    let '(neg, ds) :=
      if Ascii.eqb c "+" then (false, rest)
      else if Ascii.eqb c "-" then (true, rest)
      else (false, s) in
    match ds with
    | EmptyString => None
    | _ =>
      match parse_digits 0 ds with
      | None => None
      | Some un =>
        let n := if neg then - un else un in
        if (min_int64 <=? n) && (n <=? max_int64) then Some n else None
      end
    end
  end.

End GoInt.

(** A comment record, as it is serialized. *)
Record Comment := {
  Name : string;
  Email : string;
  Body : string;
  Date : string;
  Slug : string;
  ReplyTo : string;
}.

(** The functions of Go's standard library that the program calls and whose
    results the properties below leave open: white space trimming
    ([strings.TrimSpace], which knows Unicode's white space), URL parsing and
    printing ([net/url]), path joining ([path/filepath]) and YAML
    serialization ([yaml.v3]). *)
Class GoLib := {
  TrimSpace : string -> string;
  TrimSpace_empty : TrimSpace "" = "";
  URL : Type;
  (** [url.Parse]; [None] for a non-nil error. *)
  url_Parse : string -> option URL;
  Scheme : URL -> string;
  Host : URL -> string;
  (** [u.Hostname()]: the host without its port. *)
  Hostname : URL -> string;
  (** [filepath.Join(a, b)]. *)
  filepath_Join : string -> string -> string;
  (** [filepath.Dir(p)]. *)
  filepath_Dir : string -> string;
  (** [yaml.Marshal(c)]; [None] for a non-nil error. *)
  yaml_Marshal : Comment -> option string;
}.

(** ** HTTP requests *)

Module Http.

(** A request as the handler reads it.  [Header] and [Form] are Go's
    [map[string][]string]; [Form] is what [r.ParseForm()] leaves in [r.Form]
    and [ParseFormErr] whether it reported an error. *)
Record Request := {
  Method : string;
  Header : gmap string (list string);
  Form : gmap string (list string);
  ParseFormErr : bool;
  RemoteAddr : string;
}.

Definition first_value (m : gmap string (list string)) (key : string) : string :=
  match m !! key with
  | Some (v :: _) => v
  | _ => ""
  end.

(** [r.Header.Get(key)], for a key in canonical form. *)
Definition Header_Get (r : Request) (key : string) : string :=
  first_value (Header r) key.

(** [r.FormValue(key)]. *)
Definition FormValue (r : Request) (key : string) : string :=
  first_value (Form r) key.

End Http.

(** ** Spam mitigation (spam.go) *)

Module Spam.
Import GoString GoInt Http.

(** Instants ([time.Time]) are counted in nanoseconds, durations
    ([time.Duration]) are 64-bit nanosecond counts. *)
Definition Second : Z := 1000000000.

(** RateLimiter tracks request timestamps per IP for rate limiting. *)
Record RateLimiter := {
  window : Z;
  max : Z;
  entries : gmap string (list Z);
}.

(** NewRateLimiter creates a rate limiter. If max is 0, limiting is disabled.
    (The background sweep it starts when [max > 0] is [cleanup_tick].) *)
Definition NewRateLimiter (windowSeconds max : Z) : RateLimiter :=
  {| window := wrap64 (windowSeconds * Second);
     max := max;
     entries := ∅ |}.

(** [t.After(u)]. *)
Definition After (t u : Z) : bool := u <? t.

(** The timestamps recorded for [ip] ([rl.entries[ip]], nil when absent). *)
Definition stamps (rl : RateLimiter) (ip : string) : list Z :=
  default [] (entries rl !! ip).

(** [now.Add(-rl.window)]. *)
Definition cutoff_at (rl : RateLimiter) (now : Z) : Z :=
  now + wrap64 (- window rl).

(** The loop that filters out expired entries. *)
Definition prune (cutoff : Z) (timestamps : list Z) : list Z :=
  List.filter (fun t => After t cutoff) timestamps.

(** [Allow] at instant [now]: the answer and the limiter afterwards. *)
Definition Allow (rl : RateLimiter) (now : Z) (ip : string) : bool * RateLimiter :=
  if max rl <=? 0 then (true, rl)
  else
    let cutoff := cutoff_at rl now in
    let timestamps := stamps rl ip in
    let valid := prune cutoff timestamps in
    if max rl <=? Z.of_nat (List.length valid) then
      (false, {| window := window rl; max := max rl;
                 entries := <[ip := valid]> (entries rl) |})
    else
      (true, {| window := window rl; max := max rl;
                entries := <[ip := (valid ++ [now])%list]> (entries rl) |}).

(** One round of the [cleanup] loop, at instant [now]. *)
Definition cleanup_tick (rl : RateLimiter) (now : Z) : RateLimiter :=
  let cutoff := cutoff_at rl now in
  {| window := window rl; max := max rl;
     entries := omap (fun timestamps =>
                        match prune cutoff timestamps with
                        | [] => None
                        | valid => Some valid
                        end) (entries rl) |}.

(** What happens to a limiter over time: calls of [Allow] and sweeps. *)
Inductive LimiterEvent :=
  | AllowCall (now : Z) (ip : string)
  | CleanupTick (now : Z).

Definition limiter_step (rl : RateLimiter) (e : LimiterEvent) : RateLimiter :=
  match e with
  | AllowCall now ip => snd (Allow rl now ip)
  | CleanupTick now => cleanup_tick rl now
  end.

Definition limiter_run (rl : RateLimiter) (evs : list LimiterEvent) : RateLimiter :=
  fold_left limiter_step evs rl.

(** The ledger keeps at most [max] timestamps for every address. *)
Definition ledger_bounded (rl : RateLimiter) : Prop :=
  forall ip, Z.of_nat (List.length (stamps rl ip)) <= max rl.

(** checkHoneypot returns true if the honeypot field is filled (indicating a bot). *)
Definition checkHoneypot `{GoLib} (r : Request) (fieldName : string) : bool :=
  if String.eqb fieldName "" then false
  else negb (String.eqb (TrimSpace (FormValue r fieldName)) "").

(** checkTimestamp returns true if the submission was too fast (likely a bot).
    [now] is [time.Now().Unix()]. *)
Definition checkTimestamp `{GoLib} (now : Z) (r : Request) (minSeconds : Z) : bool :=
  if minSeconds <=? 0 then false
  else
    let tsStr := TrimSpace (FormValue r "_timestamp") in
    if String.eqb tsStr "" then false
    else
      match ParseInt tsStr with
      | None => true
      | Some ts =>
        let elapsed := wrap64 (now - ts) in
        elapsed <? minSeconds
      end.

End Spam.

(** ** Configuration *)

(** The fields of [Config] that the functions below read. *)
Record Config := {
  GitRepo : string;
  Branch : string;
  CommentsPath : string;
  PostsPath : string;
  AllowedOrigins : list string;
  SSHKeyPath : string;
  SSHInsecure : bool;
}.

(** ** The outside world: subprocesses and the file system *)

Module Sys.
Import GoString.

(** What the program asks of the operating system. *)
Inductive Action :=
  | Run (dir name : string) (args : list string) (sshCommand : string)
      (** [g.run]: a subprocess with [GIT_SSH_COMMAND] set *)
  | Keyscan (host : string)            (** [exec.Command("ssh-keyscan", host).Output()] *)
  | Stat (path : string)               (** [os.Stat] *)
  | MkdirAll (path : string)           (** [os.MkdirAll] *)
  | RemoveAll (path : string)          (** [os.RemoveAll] *)
  | ReadFile (path : string)           (** [os.ReadFile] *)
  | OpenAppend (path : string)         (** [os.OpenFile] with [O_APPEND|O_CREATE|O_WRONLY] *)
  | WriteAppend (path data : string)   (** [f.Write] on a file opened for appending *)
  | WriteFile (path data : string)     (** [os.WriteFile]: create or truncate, then write *)
  | RandRead (n : nat)                 (** [rand.Read] of [n] bytes *)
  | Glob (pattern : string).           (** [filepath.Glob] *)

(** How an action ended: its output when the error is nil, or the error. *)
Inductive Result :=
  | Ok (out : string)
  | Err (msg : string).

Definition Event : Type := Action * Result.

#[global] Instance Action_eq_dec : EqDecision Action.
Proof. solve_decision. Defined.

#[global] Instance Result_eq_dec : EqDecision Result.
Proof. solve_decision. Defined.

(** The event is the action [a], however it ended. *)
Definition is_action (a : Action) (e : Event) : bool := bool_decide (fst e = a).

(** How many times [a] was performed in a trace. *)
Definition count_action (a : Action) (tr : list Event) : nat :=
  List.length (List.filter (is_action a) tr).

(** The environment decides how each action ends, knowing all that happened
    before. *)
Definition Oracle : Type := list Event -> Action -> Result.

(** [files] holds the regular files the program itself reads or writes (the
    host key store and the comment records); [history] is the log of all
    actions so far, oldest first. *)
Record World := {
  env : Oracle;
  files : gmap string string;
  history : list Event;
}.

(** Go's [error]: nil or a message. *)
Definition error : Type := option string.

Definition M (A : Type) : Type := World -> A * World.

Definition ret {A} (a : A) : M A := fun w => (a, w).

Definition bind {A B} (m : M A) (k : A -> M B) : M B :=
  fun w => let '(a, w') := m w in k a w'.

#[global] Instance M_ret : MRet M := @ret.
#[global] Instance M_bind : MBind M := fun A B k m => bind m k.

Definition under (dir path : string) : bool :=
  String.eqb path dir || HasPrefix path (dir +:+ "/").

(** The effect of an action that the environment lets succeed on the files,
    and its result. *)
Definition effect (a : Action) (r : Result) (fs : gmap string string)
  : Result * gmap string string :=
  match r with
  | Err _ => (r, fs)
  | Ok _ =>
    match a with
    | ReadFile p =>
      match fs !! p with
      | Some data => (Ok data, fs)
      | None => (Err "no such file or directory", fs)
      end
    | WriteFile p data => (r, <[p := data]> fs)
    | WriteAppend p data => (r, <[p := default "" (fs !! p) +:+ data]> fs)
    | RemoveAll p =>
      (r, filter (fun kv => under p (fst kv) = false) fs)
    | _ => (r, fs)
    end
  end.

(** The world after action [a] ended with [r] and left the files [fs]. *)
Definition logged (w : World) (fs : gmap string string) (a : Action) (r : Result)
  : World :=
  {| env := env w; files := fs; history := (history w ++ [(a, r)])%list |}.

Definition perform (a : Action) : M Result :=
  fun w =>
    let '(r, fs) := effect a (env w (history w) a) (files w) in
    (r, logged w fs a r).

(** Actions that leave the files as they are. *)
Definition plain (a : Action) : bool :=
  match a with
  | ReadFile _ | WriteFile _ _ | WriteAppend _ _ | RemoveAll _ => false
  | _ => true
  end.

Definition error_of (r : Result) : error :=
  match r with
  | Ok _ => None
  | Err e => Some e
  end.

Definition is_ok (r : Result) : bool :=
  match r with
  | Ok _ => true
  | Err _ => false
  end.

End Sys.


(** ** Repository synchronizer and host trust store (git.go) *)

Module Git.
Import GoString Sys.

Definition repoDir : string := "/app/repo".
Definition knownHostsPath : string := "/app/.ssh/known_hosts".

Definition sshCommand (cfg : Config) : string :=
  if SSHInsecure cfg then
    "ssh -i " +:+ SSHKeyPath cfg +:+
    " -o StrictHostKeyChecking=no -o UserKnownHostsFile=/dev/null"
  else
    "ssh -i " +:+ SSHKeyPath cfg +:+ " -o UserKnownHostsFile=" +:+ knownHostsPath.

(** [strings.SplitN(s, sep, 2)] for a one-byte separator: [s] cut at the
    first [sep], or [s] alone when there is none. *)
Fixpoint SplitN2 (s : string) (sep : ascii) : list string :=
  match s with
  | EmptyString => [""]
  | String c s' =>
    if Ascii.eqb c sep then [""; s']
    else
      match SplitN2 s' sep with
      | h :: t => String c h :: t
      | [] => [String c ""]
      end
  end.

(** [strings.Split(s, "\n")]. *)
Fixpoint Split_lines (s : string) : list string :=
  match s with
  | EmptyString => [""]
  | String c s' =>
    if Ascii.eqb c "010" then "" :: Split_lines s'
    else
      match Split_lines s' with
      | h :: t => String c h :: t
      | [] => [String c ""]
      end
  end.

(** extractHost parses the hostname from a git remote URL.
    Handles both SSH (git@github.com:user/repo.git) and HTTPS formats. *)
Definition extractHost `{GoLib} (repo : string) : string :=
  if Contains repo "@" && Contains repo ":" && negb (Contains repo "://") then
    let parts := SplitN2 repo "@" in
    let hostPort := SplitN2 (nth 1 parts "") ":" in
    nth 0 hostPort ""
  else
    match url_Parse repo with
    | None => ""
    | Some u => Hostname u
    end.

(** The loop of [hostInKnownHosts]: some line of [data] starts with the host
    followed by a space or a comma. *)
Definition known_in (host data : string) : bool :=
  existsb (fun line => HasPrefix line (host +:+ " ") ||
                       HasPrefix line (host +:+ ","))
          (Split_lines data).

Definition hostInKnownHosts (host : string) : M bool :=
  r ← perform (ReadFile knownHostsPath);
  match r with
  | Err _ => mret false
  | Ok data => mret (known_in host data)
  end.

(** The scan's output, or the error. *)
Definition scanHostKeys (host : string) : M (string * error) :=
  r ← perform (Keyscan host);
  match r with
  | Err e => mret ("", Some ("ssh-keyscan " +:+ host +:+ ": " +:+ e))
  | Ok out => mret (out, None)
  end.

Definition scanAndAppendHostKeys `{GoLib} (host : string) : M error :=
  scanned ← scanHostKeys host;
  match snd scanned with
  | Some e => mret (Some e)
  | None =>
    r ← perform (MkdirAll (filepath_Dir knownHostsPath));
    match r with
    | Err e => mret (Some ("creating .ssh dir: " +:+ e))
    | Ok _ =>
      r ← perform (OpenAppend knownHostsPath);
      match r with
      | Err e => mret (Some ("opening known_hosts: " +:+ e))
      | Ok _ =>
        r ← perform (WriteAppend knownHostsPath (fst scanned));
        match r with
        | Err e => mret (Some ("appending to known_hosts: " +:+ e))
        | Ok _ => mret None
        end
      end
    end
  end.

Definition scanAndWriteHostKeys `{GoLib} (host : string) : M error :=
  scanned ← scanHostKeys host;
  match snd scanned with
  | Some e => mret (Some e)
  | None =>
    r ← perform (MkdirAll (filepath_Dir knownHostsPath));
    match r with
    | Err e => mret (Some ("creating .ssh dir: " +:+ e))
    | Ok _ =>
      r ← perform (WriteFile knownHostsPath (fst scanned));
      match r with
      | Err e => mret (Some ("writing known_hosts: " +:+ e))
      | Ok _ => mret None
      end
    end
  end.

(** ensureHostKeys checks whether the configured git host is already in
    known_hosts. If not, it runs ssh-keyscan to fetch the host keys. *)
Definition ensureHostKeys `{GoLib} (cfg : Config) : M error :=
  if SSHInsecure cfg then mret None
  else
    let host := extractHost (GitRepo cfg) in
    if String.eqb host "" then
      mret (Some ("could not extract host from repo URL: " +:+ GitRepo cfg))
    else
      known ← hostInKnownHosts host;
      if (known : bool) then mret None
      else scanAndAppendHostKeys host.

(** refreshHostKeys replaces the host keys for the configured git host.
    Used as a fallback when a git operation fails due to stale keys. *)
Definition refreshHostKeys `{GoLib} (cfg : Config) : M error :=
  let host := extractHost (GitRepo cfg) in
  if String.eqb host "" then
    mret (Some ("could not extract host from repo URL: " +:+ GitRepo cfg))
  else scanAndWriteHostKeys host.

Definition git (cfg : Config) (dir : string) (args : list string) : Action :=
  Run dir "git" args (sshCommand cfg).

(** [g.run(dir, "git", args...)]. *)
Definition run (cfg : Config) (dir : string) (args : list string) : M error :=
  r ← perform (git cfg dir args); mret (error_of r).

Definition pullLocked (cfg : Config) : M error :=
  run cfg repoDir ["pull"; "--rebase"].

Definition Pull (cfg : Config) : M error := pullLocked cfg.

Definition cloneArgs (cfg : Config) : list string :=
  ["clone"; "--branch"; Branch cfg; "--single-branch"; GitRepo cfg; repoDir].

Definition wrap_err (prefix : string) (e : string) : error :=
  Some (prefix +:+ ": " +:+ e).

(** The end of [Clone], once a clone attempt has ended with [err]. *)
Definition Clone_finish (cfg : Config) (err : error) : M error :=
  match err with
  | Some e => mret (wrap_err "git clone" e)
  | None =>
    err ← run cfg repoDir ["config"; "user.email"; "staticomment@quietlife.net"];
    match err with
    | Some e => mret (wrap_err "git config email" e)
    | None =>
      err ← run cfg repoDir ["config"; "user.name"; "staticomment"];
      match err with
      | Some e => mret (wrap_err "git config name" e)
      | None => mret None
      end
    end
  end.

Definition Clone `{GoLib} (cfg : Config) : M error :=
  _ ← ensureHostKeys cfg;
  st ← perform (Stat (filepath_Join repoDir ".git"));
  if is_ok st then pullLocked cfg
  else
    r ← perform (MkdirAll repoDir);
    match r with
    | Err e => mret (wrap_err "creating repo dir" e)
    | Ok _ =>
      err ← run cfg "/app" (cloneArgs cfg);
      match err with
      | Some e =>
        if negb (SSHInsecure cfg) then
          scanErr ← refreshHostKeys cfg;
          match scanErr with
          | Some _ => mret (wrap_err "git clone" e)
          | None =>
            r ← perform (RemoveAll repoDir);
            match r with
            | Err rmErr => mret (wrap_err "removing repo dir before retry" rmErr)
            | Ok _ =>
              r ← perform (MkdirAll repoDir);
              match r with
              | Err mkErr => mret (wrap_err "creating repo dir before retry" mkErr)
              | Ok _ =>
                err ← run cfg "/app" (cloneArgs cfg);
                Clone_finish cfg err
              end
            end
          end
        else Clone_finish cfg err
      | None => Clone_finish cfg err
      end
    end.

Definition pushMaxRetries : nat := 3.

(** The push loop with [remaining] iterations to go
    ([attempt = pushMaxRetries - remaining]). *)
Fixpoint push_loop (cfg : Config) (remaining : nat) : M error :=
  match remaining with
  | O => mret (Some "git push failed after 3 attempts")
  | S k =>
    err ← run cfg repoDir ["push"];
    match err with
    | None => mret None
    | Some _ =>
      pullErr ← pullLocked cfg;
      match pullErr with
      | Some e =>
        _ ← run cfg repoDir ["rebase"; "--abort"];
        mret (wrap_err "git pull during push retry" e)
      | None => push_loop cfg k
      end
    end
  end.

Definition CommitAndPush (cfg : Config) (filePath slug : string) : M error :=
  err ← pullLocked cfg;
  match err with
  | Some e => mret (wrap_err "git pull before commit" e)
  | None =>
    err ← run cfg repoDir ["add"; filePath];
    match err with
    | Some e => mret (wrap_err "git add" e)
    | None =>
      let msg := "Add comment on " +:+ slug in
      err ← run cfg repoDir ["commit"; "-m"; msg];
      match err with
      | Some e => mret (wrap_err "git commit" e)
      | None => push_loop cfg pushMaxRetries
      end
    end
  end.

(** FullPath returns the absolute path for a file relative to the repo root. *)
Definition FullPath `{GoLib} (relPath : string) : string :=
  filepath_Join repoDir relPath.

End Git.

(** ** The retry protocol, as the specification describes it *)

Module GitSpec.
Import Sys Git.

Definition push (cfg : Config) : Action := git cfg repoDir ["push"].
Definition pull (cfg : Config) : Action := git cfg repoDir ["pull"; "--rebase"].
Definition rebase_abort (cfg : Config) : Action :=
  git cfg repoDir ["rebase"; "--abort"].
Definition clone (cfg : Config) : Action := git cfg "/app" (cloneArgs cfg).
Definition git_add (cfg : Config) (filePath : string) : Action :=
  git cfg repoDir ["add"; filePath].
Definition git_commit (cfg : Config) (slug : string) : Action :=
  git cfg repoDir ["commit"; "-m"; "Add comment on " +:+ slug].

(** [push_trace cfg n tr err]: with [n] attempts left, the push phase performs
    the actions [tr] and ends with [err].  A push that succeeds ends the phase
    with success; after a failed push the repository is pulled with rebase: if
    that fails, the rebase is aborted and the pull's error is returned, else
    the next attempt follows; with no attempt left the phase fails. *)
Inductive push_trace (cfg : Config) : nat -> list Event -> error -> Prop :=
  | pt_exhausted :
      push_trace cfg 0 [] (Some "git push failed after 3 attempts")
  | pt_pushed n out :
      push_trace cfg (S n) [(push cfg, Ok out)] None
  | pt_pull_failed n e1 e2 r :
      push_trace cfg (S n)
        [(push cfg, Err e1); (pull cfg, Err e2); (rebase_abort cfg, r)]
        (wrap_err "git pull during push retry" e2)
  | pt_retry n e1 out tr err :
      push_trace cfg n tr err ->
      push_trace cfg (S n) ((push cfg, Err e1) :: (pull cfg, Ok out) :: tr) err.

(** The phase before the pushes fails: the pull fails, or the pull succeeds
    and the add fails, or both succeed and the commit fails.  Nothing more is
    run, and the error of the step that failed is returned. *)
Inductive prepare_failed (cfg : Config) (filePath slug : string)
  : list Event -> error -> Prop :=
  | pf_pull e :
      prepare_failed cfg filePath slug [(pull cfg, Err e)]
        (wrap_err "git pull before commit" e)
  | pf_add o1 e :
      prepare_failed cfg filePath slug
        [(pull cfg, Ok o1); (git_add cfg filePath, Err e)]
        (wrap_err "git add" e)
  | pf_commit o1 o2 e :
      prepare_failed cfg filePath slug
        [(pull cfg, Ok o1); (git_add cfg filePath, Ok o2);
         (git_commit cfg slug, Err e)]
        (wrap_err "git commit" e).

(** Every action of the trace succeeded. *)
Definition all_ok (tr : list Event) : bool := forallb (fun e => is_ok (snd e)) tr.

(** What reading the store tells about [host]: it is listed when the file
    could be read and one of its lines is for [host]. *)
Definition listed (host : string) (r : Result) : bool :=
  match r with
  | Ok data => known_in host data
  | Err _ => false
  end.

(** The store with [out] added at its end, and with [out] in its place. *)
Definition store_appended (fs : gmap string string) (out : string)
  : gmap string string :=
  <[knownHostsPath := default "" (fs !! knownHostsPath) +:+ out]> fs.

Definition store_replaced (fs : gmap string string) (out : string)
  : gmap string string :=
  <[knownHostsPath := out]> fs.

(** The event is a failed [a]. *)
Definition is_failed (a : Action) (e : Event) : bool :=
  is_action a e && negb (is_ok (snd e)).

Definition config_email (cfg : Config) : Action :=
  git cfg repoDir ["config"; "user.email"; "staticomment@quietlife.net"].
Definition config_name (cfg : Config) : Action :=
  git cfg repoDir ["config"; "user.name"; "staticomment"].

(** Setting the commit identity of the working copy: the e-mail address, then
    the name. *)
Inductive identity_trace (cfg : Config) : list Event -> error -> Prop :=
  | id_email_failed e :
      identity_trace cfg [(config_email cfg, Err e)] (wrap_err "git config email" e)
  | id_name_failed o e :
      identity_trace cfg [(config_email cfg, Ok o); (config_name cfg, Err e)]
        (wrap_err "git config name" e)
  | id_configured o1 o2 :
      identity_trace cfg [(config_email cfg, Ok o1); (config_name cfg, Ok o2)] None.

(** The directory of the store. *)
Definition ssh_dir `{GoLib} : string := filepath_Dir knownHostsPath.

(** The trace of a refresh of the host keys, and whether it succeeded.
    Nothing is run when no host can be read off the remote URL (a failure).
    Else the host is scanned, the directory of the store is created, and the
    store is written anew with the output of the scan and nothing else; the
    refresh succeeds when all three actions do, and stops at the first that
    fails. *)
Inductive refresh_trace `{GoLib} (cfg : Config) : list Event -> bool -> Prop :=
  | rt_no_host :
      extractHost (GitRepo cfg) = "" -> refresh_trace cfg [] false
  | rt_scan_failed e :
      extractHost (GitRepo cfg) <> "" ->
      refresh_trace cfg [(Keyscan (extractHost (GitRepo cfg)), Err e)] false
  | rt_mkdir_failed keys e :
      extractHost (GitRepo cfg) <> "" ->
      refresh_trace cfg
        [(Keyscan (extractHost (GitRepo cfg)), Ok keys); (MkdirAll ssh_dir, Err e)]
        false
  | rt_write_failed keys o e :
      extractHost (GitRepo cfg) <> "" ->
      refresh_trace cfg
        [(Keyscan (extractHost (GitRepo cfg)), Ok keys); (MkdirAll ssh_dir, Ok o);
         (WriteFile knownHostsPath keys, Err e)]
        false
  | rt_replaced keys o1 o2 :
      extractHost (GitRepo cfg) <> "" ->
      refresh_trace cfg
        [(Keyscan (extractHost (GitRepo cfg)), Ok keys); (MkdirAll ssh_dir, Ok o1);
         (WriteFile knownHostsPath keys, Ok o2)]
        true.

(** What an action that ended with [r] has done to the files. *)
Definition replay_event (fs : gmap string string) (e : Event) : gmap string string :=
  match snd e with
  | Err _ => fs
  | Ok _ =>
    match fst e with
    | WriteFile p data => <[p := data]> fs
    | WriteAppend p data => <[p := default "" (fs !! p) +:+ data]> fs
    | RemoveAll p => filter (fun kv => under p (fst kv) = false) fs
    | _ => fs
    end
  end.

(** The files after the actions of a trace. *)
Definition replay (fs : gmap string string) (tr : list Event) : gmap string string :=
  fold_left replay_event tr fs.

(** The computation logs what it does, and the files change as its actions
    say. *)
Definition tracked {A} (m : M A) : Prop :=
  forall w, exists tr,
    history (snd (m w)) = (history w ++ tr)%list /\
    files (snd (m w)) = replay (files w) tr.

Definition git_dir `{GoLib} : string := filepath_Join repoDir ".git".

(** The error of [ensureHostKeys] and [refreshHostKeys] when no host can be
    read off the remote URL. *)
Definition no_host (cfg : Config) : error :=
  Some ("could not extract host from repo URL: " +:+ GitRepo cfg).

(** [Clone], from the test for a working copy on, as the specification
    describes it: what is run, and the error returned. *)
Inductive clone_protocol `{GoLib} (cfg : Config) : list Event -> error -> Prop :=
  (** a working copy exists: pull instead of cloning *)
  | cp_pull o r :
      clone_protocol cfg [(Stat git_dir, Ok o); (pull cfg, r)] (error_of r)
  (** the working directory cannot be created *)
  | cp_mkdir_failed e0 e :
      clone_protocol cfg [(Stat git_dir, Err e0); (MkdirAll repoDir, Err e)]
        (wrap_err "creating repo dir" e)
  (** the clone succeeds: set the commit identity *)
  | cp_cloned e0 o1 o2 tr err :
      identity_trace cfg tr err ->
      clone_protocol cfg
        ((Stat git_dir, Err e0) :: (MkdirAll repoDir, Ok o1) :: (clone cfg, Ok o2) :: tr)
        err
  (** the clone fails and host checking is off: no retry *)
  | cp_failed_insecure e0 o1 e :
      SSHInsecure cfg = true ->
      clone_protocol cfg
        [(Stat git_dir, Err e0); (MkdirAll repoDir, Ok o1); (clone cfg, Err e)]
        (wrap_err "git clone" e)
  (** the clone fails, and so does the refresh of the host keys: no retry,
      the clone's error *)
  | cp_refresh_failed e0 o1 e rtr :
      SSHInsecure cfg = false ->
      refresh_trace cfg rtr false ->
      clone_protocol cfg
        ((Stat git_dir, Err e0) :: (MkdirAll repoDir, Ok o1) :: (clone cfg, Err e) :: rtr)
        (wrap_err "git clone" e)
  (** the keys are refreshed but the partial directory cannot be discarded *)
  | cp_remove_failed e0 o1 e rtr e' :
      SSHInsecure cfg = false ->
      refresh_trace cfg rtr true ->
      clone_protocol cfg
        ((Stat git_dir, Err e0) :: (MkdirAll repoDir, Ok o1) :: (clone cfg, Err e)
         :: rtr ++ [(RemoveAll repoDir, Err e')])%list
        (wrap_err "removing repo dir before retry" e')
  (** ... or cannot be created again *)
  | cp_mkdir_again_failed e0 o1 e rtr o3 e' :
      SSHInsecure cfg = false ->
      refresh_trace cfg rtr true ->
      clone_protocol cfg
        ((Stat git_dir, Err e0) :: (MkdirAll repoDir, Ok o1) :: (clone cfg, Err e)
         :: rtr ++ [(RemoveAll repoDir, Ok o3); (MkdirAll repoDir, Err e')])%list
        (wrap_err "creating repo dir before retry" e')
  (** the one retry fails *)
  | cp_retry_failed e0 o1 e rtr o3 o4 e' :
      SSHInsecure cfg = false ->
      refresh_trace cfg rtr true ->
      clone_protocol cfg
        ((Stat git_dir, Err e0) :: (MkdirAll repoDir, Ok o1) :: (clone cfg, Err e)
         :: rtr ++ [(RemoveAll repoDir, Ok o3); (MkdirAll repoDir, Ok o4);
                    (clone cfg, Err e')])%list
        (wrap_err "git clone" e')
  (** the one retry succeeds: set the commit identity *)
  | cp_retry_cloned e0 o1 e rtr o3 o4 o5 tr err :
      SSHInsecure cfg = false ->
      refresh_trace cfg rtr true ->
      identity_trace cfg tr err ->
      clone_protocol cfg
        ((Stat git_dir, Err e0) :: (MkdirAll repoDir, Ok o1) :: (clone cfg, Err e)
         :: rtr ++ (RemoveAll repoDir, Ok o3) :: (MkdirAll repoDir, Ok o4)
                :: (clone cfg, Ok o5) :: tr)%list
        err.

End GitSpec.

(** ** Formatting *)

Module GoFmt.
Import GoString.

(** An instant in UTC, broken down as [time.Time.Format] reads it. *)
Record UTCTime := {
  year : Z; month : Z; day : Z;
  hour : Z; minute : Z; second : Z;
}.

Definition digit (n : Z) : ascii := ascii_of_N (Z.to_N (48 + n mod 10)).

Definition pad2 (n : Z) : string := String (digit (n / 10)) (String (digit n) "").

Definition pad4 (n : Z) : string := pad2 (n / 100) +:+ pad2 n.

(** [t.Format("20060102150405")], for the years 0 to 9999. *)
Definition format_compact (t : UTCTime) : string :=
  pad4 (year t) +:+ pad2 (month t) +:+ pad2 (day t) +:+
  pad2 (hour t) +:+ pad2 (minute t) +:+ pad2 (second t).

(** [t.Format(time.RFC3339)] for an instant in UTC. *)
Definition format_RFC3339 (t : UTCTime) : string :=
  pad4 (year t) +:+ "-" +:+ pad2 (month t) +:+ "-" +:+ pad2 (day t) +:+ "T" +:+
  pad2 (hour t) +:+ ":" +:+ pad2 (minute t) +:+ ":" +:+ pad2 (second t) +:+ "Z".

Definition hex_digit (n : Z) : ascii :=
  if n <? 10 then ascii_of_N (Z.to_N (48 + n)) else ascii_of_N (Z.to_N (87 + n)).

(** [fmt.Sprintf("%x", b)] for a byte slice: two lower-case digits a byte. *)
Fixpoint hex (b : string) : string :=
  match b with
  | EmptyString => ""
  | String c b' =>
    String (hex_digit (byte_val c / 16)) (String (hex_digit (byte_val c mod 16)) (hex b'))
  end.

(** The first [n] bytes of [s], filled up with zero bytes. *)
Fixpoint fit (n : nat) (s : string) : string :=
  match n with
  | O => ""
  | S k =>
    match s with
    | EmptyString => String "000" (fit k "")
    | String c s' => String c (fit k s')
    end
  end.

End GoFmt.

(** ** The comment handler (handler.go) *)

Module Handler.
Import GoString GoFmt Http Sys Git SlugCheck.

Definition defaultMaxBodyLen : Z := 10000.

Definition StatusSeeOther : Z := 303.
Definition StatusBadRequest : Z := 400.
Definition StatusForbidden : Z := 403.
Definition StatusMethodNotAllowed : Z := 405.

(** What the handler writes: [http.Error] (a plain-text body and a status),
    or a see-other [http.Redirect] to the parsed redirect URL [u], either with
    [comment_error] set to [msg] in its query ([errorRedirect]) or with the
    fragment [comment-submitted] (success). *)
Inductive Response `{GoLib} :=
  | HttpError (msg : string) (code : Z)
  | RedirectError (u : URL) (msg : string)
  | RedirectSubmitted (u : URL).

Definition status `{GoLib} (resp : Response) : Z :=
  match resp with
  | HttpError _ code => code
  | RedirectError _ _ => StatusSeeOther
  | RedirectSubmitted _ => StatusSeeOther
  end.

Definition is_redirect `{GoLib} (resp : Response) : bool :=
  match resp with
  | HttpError _ _ => false
  | _ => true
  end.

(** [len(s)]: the number of bytes. *)
Definition len (s : string) : Z := Z.of_nat (String.length s).

Definition allowed (cfg : Config) (origin : string) : bool :=
  existsb (fun a => String.eqb origin a) (AllowedOrigins cfg).

Definition checkOrigin `{GoLib} (cfg : Config) (r : Request) : bool :=
  let origin := Header_Get r "Origin" in
  if String.eqb origin "" then
    let ref := Header_Get r "Referer" in
    if String.eqb ref "" then false
    else
      match url_Parse ref with
      | None => false
      | Some u => allowed cfg (Scheme u +:+ "://" +:+ Host u)
      end
  else allowed cfg origin.

(** The origin a request claims, in the specification's words: its [Origin]
    header or, when that is absent, the scheme and host of its [Referer]
    header; none when both are absent or the [Referer] is no URL. *)
Definition request_origin `{GoLib} (r : Request) : option string :=
  if negb (String.eqb (Header_Get r "Origin") "") then Some (Header_Get r "Origin")
  else if String.eqb (Header_Get r "Referer") "" then None
  else
    match url_Parse (Header_Get r "Referer") with
    | None => None
    | Some u => Some (Scheme u +:+ "://" +:+ Host u)
    end.

(** The scheme and host of a URL, when it parses. *)
Definition url_origin `{GoLib} (rawURL : string) : option string :=
  match url_Parse rawURL with
  | None => None
  | Some u => Some (Scheme u +:+ "://" +:+ Host u)
  end.

(** [o] is an origin and an entry of the allow-list. *)
Definition in_allow_list (cfg : Config) (o : option string) : Prop :=
  exists a, o = Some a /\ In a (AllowedOrigins cfg).

Definition isAllowedRedirect `{GoLib} (cfg : Config) (rawURL : string) : bool :=
  match url_Parse rawURL with
  | None => false
  | Some u => allowed cfg (Scheme u +:+ "://" +:+ Host u)
  end.

Definition errorRedirect `{GoLib} (redirectURL msg : string) : Response :=
  if negb (String.eqb redirectURL "") then
    match url_Parse redirectURL with
    | Some u => RedirectError u msg
    | None => HttpError msg StatusBadRequest
    end
  else HttpError msg StatusBadRequest.

Definition postExists `{GoLib} (cfg : Config) (slug : string) : M bool :=
  let pattern := filepath_Join (FullPath (PostsPath cfg)) (slug +:+ ".*") in
  r ← perform (Glob pattern);
  match r with
  | Err _ => mret false
  | Ok matches => mret (negb (String.eqb matches ""))
  end.

(** [randomHex(n)]. *)
Definition randomHex (n : nat) : M (string * error) :=
  r ← perform (RandRead n);
  match r with
  | Err e => mret ("", Some e)
  | Ok b => mret (hex (fit n b), None)
  end.

(** [writeComment], with [now] the instant [time.Now().UTC()] gives it: the
    path of the record relative to the repository, or the error. *)
Definition writeComment `{GoLib} (cfg : Config) (now : UTCTime) (c : Comment)
  : M (string * error) :=
  let dir := filepath_Join (CommentsPath cfg) (Slug c) in
  let fullDir := FullPath dir in
  r ← perform (MkdirAll fullDir);
  match r with
  | Err e => mret ("", wrap_err "creating comment dir" e)
  | Ok _ =>
    let ts := format_compact now in
    rnd ← randomHex 4;
    match snd rnd with
    | Some e => mret ("", wrap_err "generating random id" e)
    | None =>
      let filename := ts +:+ "-" +:+ fst rnd +:+ ".yml" in
      let relPath := filepath_Join dir filename in
      let fullPath := FullPath relPath in
      match yaml_Marshal c with
      | None => mret ("", Some "marshaling comment")
      | Some data =>
        r ← perform (WriteFile fullPath data);
        match r with
        | Err e => mret ("", wrap_err "writing comment file" e)
        | Ok _ => mret (relPath, None)
        end
      end
    end
  end.

(** [ServeHTTP]; [tDate] and [tFile] are the instants the two calls of
    [time.Now().UTC()] give (the record's date, the file name's stamp).  The
    cap that [http.MaxBytesReader] puts on the body shows as an error of
    [ParseForm]. *)
Definition ServeHTTP `{GoLib} (cfg : Config) (tDate tFile : UTCTime) (r : Request)
  : M Response :=
  if negb (String.eqb (Method r) "POST") then
    mret (HttpError "Method not allowed" StatusMethodNotAllowed)
  else if negb (checkOrigin cfg r) then
    mret (HttpError "Forbidden: origin not allowed" StatusForbidden)
  else if ParseFormErr r then
    mret (HttpError "Bad request" StatusBadRequest)
  else
    let name := TrimSpace (FormValue r "name") in
    let email := TrimSpace (FormValue r "email") in
    let body := TrimSpace (FormValue r "body") in
    let slug := TrimSpace (FormValue r "slug") in
    let replyTo := TrimSpace (FormValue r "reply_to") in
    let redirectURL := TrimSpace (FormValue r "url") in
    if negb (String.eqb redirectURL "") && negb (isAllowedRedirect cfg redirectURL) then
      mret (HttpError "Forbidden: redirect URL origin not allowed" StatusForbidden)
    else if String.eqb name "" || String.eqb body "" || String.eqb slug "" ||
            String.eqb redirectURL "" then
      mret (errorRedirect redirectURL "Missing required fields (name, body, slug, url)")
    else if defaultMaxBodyLen <? len body then
      mret (errorRedirect redirectURL "Comment body too long")
    else if negb (isValidSlug slug) then
      mret (errorRedirect redirectURL "Invalid slug")
    else if negb (String.eqb replyTo "") && negb (isValidSlug replyTo) then
      mret (errorRedirect redirectURL "Invalid reply_to")
    else
      found ← (if negb (String.eqb (PostsPath cfg) "") then postExists cfg slug
               else mret true);
      if negb found then mret (errorRedirect redirectURL "Post not found")
      else
        let comment := {| Name := name; Email := email; Body := body;
                          Date := format_RFC3339 tDate; Slug := slug;
                          ReplyTo := replyTo |} in
        written ← writeComment cfg tFile comment;
        match snd written with
        | Some _ => mret (errorRedirect redirectURL "Failed to save comment")
        | None =>
          err ← CommitAndPush cfg (fst written) slug;
          match err with
          | Some _ => mret (errorRedirect redirectURL "Failed to publish comment")
          | None =>
            match url_Parse redirectURL with
            | None => mret (HttpError "Bad redirect URL" StatusBadRequest)
            | Some u => mret (RedirectSubmitted u)
            end
          end
        end.

End Handler.

(** ** A small model of the library, for running the program on examples

    It agrees with Go's library on the inputs of the examples below: ASCII
    white space, URLs of the form [scheme://host/path], paths already clean,
    and comment fields that YAML prints as plain scalars. *)

Module SimpleLib.
Import GoString.

Definition is_ascii_space (c : ascii) : bool :=
  in_range 9 13 (byte_val c) || (byte_val c =? 32).

Fixpoint trim_left (s : string) : string :=
  match s with
  | EmptyString => ""
  | String c s' => if is_ascii_space c then trim_left s' else s
  end.

Fixpoint trim_right (s : string) : string :=
  match s with
  | EmptyString => ""
  | String c s' =>
    let t := trim_right s' in
    if is_ascii_space c && String.eqb t "" then "" else String c t
  end.

Definition trim_space (s : string) : string := trim_right (trim_left s).

Record SimpleURL := {
  su_scheme : string;
  su_host : string;
  su_path : string;
}.

Definition is_letter (c : ascii) : bool :=
  in_range 97 122 (byte_val c) || in_range 65 90 (byte_val c).

Definition is_scheme_tail (c : ascii) : bool :=
  in_range 48 57 (byte_val c) || mem_byte c "+-.".

Definition lower (c : ascii) : ascii :=
  if in_range 65 90 (byte_val c) then ascii_of_N (N_of_ascii c + 32) else c.

(** The text of [s] before the first [sep], and what follows it. *)
Fixpoint cut (s : string) (sep : ascii) : string * option string :=
  match s with
  | EmptyString => ("", None)
  | String c s' =>
    if Ascii.eqb c sep then ("", Some s')
    else let '(h, t) := cut s' sep in (String c h, t)
  end.

(** [getScheme]: [None] for a URL that starts with a colon, else the scheme
    (possibly empty) and the rest. *)
Fixpoint get_scheme (at_start : bool) (s : string) : option (string * string) :=
  match s with
  | EmptyString => Some ("", "")
  | String c s' =>
    if is_letter c then
      match get_scheme false s' with
      | Some ("", rest) =>
        (* no colon ahead: no scheme, the text is kept whole *)
        if String.eqb rest s' then Some ("", s) else Some (String (lower c) "", rest)
      | Some (sch, rest) => Some (String (lower c) sch, rest)
      | None => None
      end
    else if is_scheme_tail c then
      if at_start then Some ("", s)
      else
        match get_scheme false s' with
        | Some ("", rest) =>
          if String.eqb rest s' then Some ("", s) else Some (String c "", rest)
        | Some (sch, rest) => Some (String c sch, rest)
        | None => None
        end
    else if Ascii.eqb c ":" then
      if at_start then None else Some ("", s')
    else Some ("", s)
  end.

Fixpoint after_last (s : string) (sep : ascii) : string :=
  match s with
  | EmptyString => ""
  | String c s' =>
    if mem_byte sep s' then after_last s' sep
    else if Ascii.eqb c sep then s' else s
  end.

Definition parse (raw : string) : option SimpleURL :=
  let nofrag := fst (cut raw "#") in
  match get_scheme true nofrag with
  | None => None
  | Some (sch, rest) =>
    let rest := fst (cut rest "?") in
    if HasPrefix rest "//" then
      let after := match rest with
                   | String _ (String _ a) => a
                   | _ => ""
                   end in
      let '(authority, path) := cut after "/" in
      Some {| su_scheme := sch;
              su_host := after_last authority "@";
              su_path := match path with Some p => String "/" p | None => "" end |}
    else Some {| su_scheme := sch; su_host := ""; su_path := rest |}
  end.

Definition hostname (u : SimpleURL) : string := fst (cut (su_host u) ":").

Definition join (a b : string) : string :=
  if String.eqb a "" then b
  else if String.eqb b "" then a
  else a +:+ "/" +:+ b.

Fixpoint dir_of (p : string) : string :=
  match p with
  | EmptyString => ""
  | String c p' =>
    if mem_byte "/" p' then String c (dir_of p')
    else ""
  end.

Definition field (key value : string) : string :=
  key +:+ ": " +:+ value +:+ String "010" "".

Definition optional_field (key value : string) : string :=
  if String.eqb value "" then "" else field key value.

Definition marshal (c : Comment) : option string :=
  Some (field "name" (Name c) +:+ optional_field "email" (Email c) +:+
        field "body" (Body c) +:+ field "date" (Date c) +:+
        field "slug" (Slug c) +:+ optional_field "reply_to" (ReplyTo c)).

#[export] Instance lib : GoLib := {|
  TrimSpace := trim_space;
  TrimSpace_empty := eq_refl;
  URL := SimpleURL;
  url_Parse := parse;
  Scheme := su_scheme;
  Host := su_host;
  Hostname := hostname;
  filepath_Join := join;
  filepath_Dir := dir_of;
  yaml_Marshal := marshal;
|}.

(** The same request, with a body that [ParseForm] reports as malformed. *)
Definition malformed (r : Http.Request) : Http.Request := {|
  Http.Method := Http.Method r;
  Http.Header := Http.Header r;
  Http.Form := Http.Form r;
  Http.ParseFormErr := true;
  Http.RemoteAddr := Http.RemoteAddr r;
|}.

(** 2 January 2024, 15:04:05 UTC. *)
Definition an_instant : GoFmt.UTCTime := {|
  GoFmt.year := 2024; GoFmt.month := 1; GoFmt.day := 2;
  GoFmt.hour := 15; GoFmt.minute := 4; GoFmt.second := 5;
|}.

(** [n] copies of [s]. *)
Fixpoint replicate_str (n : nat) (s : string) : string :=
  match n with
  | O => ""
  | S k => s +:+ replicate_str k s
  end.

(** The letter e with an acute accent, in UTF-8: one character, two bytes. *)
Definition e_acute : string := String "195" (String "169" "").

(** An environment that follows a script: the [n]-th action ends as the
    [n]-th entry says, and actions beyond the script fail. *)
Definition scripted (script : list Sys.Result) : Sys.Oracle :=
  fun h _ => nth (List.length h) script (Sys.Err "unscripted").

(** An environment in which every action succeeds with the same output. *)
Definition always (out : string) : Sys.Oracle := fun _ _ => Sys.Ok out.

Definition world (o : Sys.Oracle) (fs : gmap string string) : Sys.World :=
  {| Sys.env := o; Sys.files := fs; Sys.history := [] |}.

(** A configuration: a site on GitHub, comments allowed from one origin. *)
Definition site : Config := {|
  GitRepo := "git@github.com:you/your-site.git";
  Branch := "main";
  CommentsPath := "_data/comments";
  PostsPath := "";
  AllowedOrigins := ["https://example.com"];
  SSHKeyPath := "/app/.ssh/id_ed25519";
  SSHInsecure := false;
|}.

Definition form_of (fields : list (string * string)) : gmap string (list string) :=
  list_to_map (List.map (fun kv => (fst kv, [snd kv])) fields).

(** A form submission from [origin]. *)
Definition post (origin : string) (fields : list (string * string)) : Http.Request := {|
  Http.Method := "POST";
  Http.Header := {[ "Origin" := [origin] ]};
  Http.Form := form_of fields;
  Http.ParseFormErr := false;
  Http.RemoteAddr := "203.0.113.7:50412";
|}.

End SimpleLib.

(** ** Further definitions: running the rate limiter *)

Module SpamRuns.
Import Spam.

(** The answers of the calls of [Allow] among the events [evs], in order. *)
Fixpoint limiter_answers (rl : RateLimiter) (evs : list LimiterEvent) : list bool :=
  match evs with
  | [] => []
  | AllowCall now ip :: evs' =>
    fst (Allow rl now ip) :: limiter_answers (snd (Allow rl now ip)) evs'
  | CleanupTick now :: evs' => limiter_answers (cleanup_tick rl now) evs'
  end.

(** The event is a call of [Allow] for an address other than [ip]. *)
Definition other_client (ip : string) (e : LimiterEvent) : Prop :=
  match e with
  | AllowCall _ ip' => ip' <> ip
  | CleanupTick _ => False
  end.

End SpamRuns.

(** ** Further definitions: the handler's checks and what follows them *)

Module HandlerSpec.
Import GoString GoFmt Http Sys Git SlugCheck Handler.

(** A form field as the handler reads it: trimmed. *)
Definition form_field `{GoLib} (r : Request) (key : string) : string :=
  TrimSpace (FormValue r key).

(** The request passes all the checks that [ServeHTTP] makes before its first
    action. *)
Definition validated `{GoLib} (cfg : Config) (r : Request) : bool :=
  String.eqb (Method r) "POST" && checkOrigin cfg r && negb (ParseFormErr r) &&
  isAllowedRedirect cfg (form_field r "url") &&
  negb (String.eqb (form_field r "name") "") && negb (String.eqb (form_field r "body") "") &&
  negb (String.eqb (form_field r "slug") "") && negb (String.eqb (form_field r "url") "") &&
  (len (form_field r "body") <=? defaultMaxBodyLen) &&
  isValidSlug (form_field r "slug") &&
  (String.eqb (form_field r "reply_to") "" || isValidSlug (form_field r "reply_to")).

(** The record that [ServeHTTP] builds from a submission. *)
Definition comment_of `{GoLib} (tDate : UTCTime) (r : Request) : Comment :=
  {| Name := form_field r "name"; Email := form_field r "email"; Body := form_field r "body";
     Date := format_RFC3339 tDate; Slug := form_field r "slug";
     ReplyTo := form_field r "reply_to" |}.

(** The end of [ServeHTTP], for a submission that has passed the checks. *)
Definition publish `{GoLib} (cfg : Config) (tDate tFile : UTCTime) (r : Request)
  : M Response :=
  found ← (if negb (String.eqb (PostsPath cfg) "") then postExists cfg (form_field r "slug")
           else mret true);
  if negb found then mret (errorRedirect (form_field r "url") "Post not found")
  else
    written ← writeComment cfg tFile (comment_of tDate r);
    match snd written with
    | Some _ => mret (errorRedirect (form_field r "url") "Failed to save comment")
    | None =>
      err ← CommitAndPush cfg (fst written) (form_field r "slug");
      match err with
      | Some _ => mret (errorRedirect (form_field r "url") "Failed to publish comment")
      | None =>
        match url_Parse (form_field r "url") with
        | None => mret (HttpError "Bad redirect URL" StatusBadRequest)
        | Some u => mret (RedirectSubmitted u)
        end
      end
    end.

(** The answer of the first check of [ServeHTTP] that fails, if one does. *)
Definition rejection `{GoLib} (cfg : Config) (r : Request) : option Response :=
  if negb (String.eqb (Method r) "POST") then
    Some (HttpError "Method not allowed" StatusMethodNotAllowed)
  else if negb (checkOrigin cfg r) then
    Some (HttpError "Forbidden: origin not allowed" StatusForbidden)
  else if ParseFormErr r then Some (HttpError "Bad request" StatusBadRequest)
  else if negb (String.eqb (form_field r "url") "") &&
          negb (isAllowedRedirect cfg (form_field r "url")) then
    Some (HttpError "Forbidden: redirect URL origin not allowed" StatusForbidden)
  else if String.eqb (form_field r "name") "" || String.eqb (form_field r "body") "" ||
          String.eqb (form_field r "slug") "" || String.eqb (form_field r "url") "" then
    Some (errorRedirect (form_field r "url")
            "Missing required fields (name, body, slug, url)")
  else if defaultMaxBodyLen <? len (form_field r "body") then
    Some (errorRedirect (form_field r "url") "Comment body too long")
  else if negb (isValidSlug (form_field r "slug")) then
    Some (errorRedirect (form_field r "url") "Invalid slug")
  else if negb (String.eqb (form_field r "reply_to") "") &&
          negb (isValidSlug (form_field r "reply_to")) then
    Some (errorRedirect (form_field r "url") "Invalid reply_to")
  else None.

(** The pattern that [postExists] hands to [filepath.Glob]. *)
Definition post_pattern `{GoLib} (cfg : Config) (slug : string) : string :=
  filepath_Join (FullPath (PostsPath cfg)) (slug +:+ ".*").

(** The look-up of the post, when posts are checked: it found a match. *)
Definition post_found `{GoLib} (cfg : Config) (slug : string) (pre : list Event)
  : Prop :=
  (PostsPath cfg = "" /\ pre = []) \/
  (PostsPath cfg <> "" /\
   exists matches, matches <> "" /\ pre = [(Glob (post_pattern cfg slug), Ok matches)]).

(** The path of a record, relative to the repository. *)
Definition record_path `{GoLib} (cfg : Config) (slug : string) (stamp : UTCTime)
    (random : string) : string :=
  filepath_Join (filepath_Join (CommentsPath cfg) slug)
    (format_compact stamp +:+ "-" +:+ hex (fit 4 random) +:+ ".yml").

(** The first action of [ServeHTTP] for a submission that has passed the
    checks: the look-up of the post when posts are checked, else the creation
    of the directory of the post's comments. *)
Definition first_action `{GoLib} (cfg : Config) (slug : string) : Action :=
  if String.eqb (PostsPath cfg) "" then
    MkdirAll (FullPath (filepath_Join (CommentsPath cfg) slug))
  else Glob (post_pattern cfg slug).

(** The action runs a subprocess. *)
Definition is_run (a : Action) : bool :=
  match a with
  | Run _ _ _ _ => true
  | _ => false
  end.

(** The look-up of a post found nothing: no match, or an error. *)
Definition nothing_found (res : Result) : Prop :=
  res = Ok "" \/ exists e, res = Err e.

(** The event is a git command run in the working copy. *)
Definition git_in_repo (cfg : Config) (e : Event) : Prop :=
  exists args, fst e = git cfg repoDir args.

End HandlerSpec.

(** ** Further definitions: the content check (spam.go) and the loader of
    the configuration (config.go) *)

(** More of Go's standard library: regular expressions ([regexp]), the tests
    and the normal form of paths ([path/filepath]), and quoting
    ([fmt.Sprintf] with [%q]). *)
Class GoRegexp := {
  Regexp : Type;
  (** [regexp.Compile]: the compiled expression, or the error's text. *)
  regexp_Compile : string -> Regexp + string;
  (** [re.MatchString(s)]. *)
  MatchString : Regexp -> string -> bool;
  (** [filepath.IsAbs(p)]. *)
  filepath_IsAbs : string -> bool;
  (** [filepath.Clean(p)]. *)
  filepath_Clean : string -> string;
  (** [strconv.Quote(s)], which is what [%q] prints. *)
  Quote : string -> string;
}.

Module SpamContent.
Import GoString.

(** [linkPattern], the expression [https?://], at the start of [s]: the
    length of the match, if there is one. *)
Definition link_at (s : string) : option nat :=
  if HasPrefix s "http://" then Some 7%nat
  else if HasPrefix s "https://" then Some 8%nat
  else None.

(** [len(linkPattern.FindAllStringIndex(body, -1))]: the matches are looked
    for from left to right, and the search for the next one starts where the
    last one ended ([skip] counts the bytes of a match still to pass over). *)
Fixpoint count_links_from (skip : nat) (s : string) : nat :=
  match s with
  | EmptyString => 0%nat
  | String _ s' =>
    match skip with
    | S k => count_links_from k s'
    | O =>
      match link_at s with
      | Some n => S (count_links_from (pred n) s')
      | None => count_links_from 0 s'
      end
    end
  end.

Definition count_links (s : string) : nat := count_links_from 0 s.

(** [fmt.Sprintf("%d", n)]. *)
Definition decimal (n : Z) : string :=
  DecimalString.NilZero.string_of_int (Z.to_int n).

(** checkBodyContent checks the comment body for excessive links and blocked
    patterns.  Returns an error message string, or empty string if the body
    is acceptable. *)
Definition checkBodyContent `{GoRegexp} (body : string) (maxLinks : Z)
    (blockedPatterns : list Regexp) : string :=
  if (0 <? maxLinks) && (maxLinks <? Z.of_nat (count_links body)) then
    "Too many links (max " +:+ decimal maxLinks +:+ ")"
  else if existsb (fun re => MatchString re body) blockedPatterns then
    "Comment contains blocked content"
  else "".

(** The texts that start at the offsets of [s], from left to right. *)
Fixpoint suffixes (s : string) : list string :=
  match s with
  | EmptyString => []
  | String _ s' => s :: suffixes s'
  end.

(** A link starts here: the text starts with [http://] or [https://]. *)
Definition starts_link (s : string) : bool :=
  HasPrefix s "http://" || HasPrefix s "https://".

(** The number of places of [s] where a link starts. *)
Definition link_starts (s : string) : nat :=
  List.length (List.filter starts_link (suffixes s)).

End SpamContent.

Module Loader.
Import GoString GoInt.

(** [Config] in full: the fields that the handler and the synchronizer read
    ([base]), the port, and the settings of the spam checks. *)
Record Settings `{GoRegexp} := {
  base : Config;
  Port : string;
  HoneypotField : string;
  RateLimitWindow : Z;
  RateLimitMax : Z;
  MaxLinks : Z;
  BlockedPatterns : list Regexp;
  MinSubmitTime : Z;
}.

(** The environment: [os.Getenv], which gives the empty string for a
    variable that is not set. *)
Definition Environ : Type := string -> string.

Definition envOrDefault (getenv : Environ) (key fallback : string) : string :=
  let v := getenv key in
  if negb (String.eqb v "") then v else fallback.

(** [strings.Split(s, sep)] for a one-byte separator. *)
Fixpoint Split (s : string) (sep : ascii) : list string :=
  match s with
  | EmptyString => [""]
  | String c s' =>
    if Ascii.eqb c sep then "" :: Split s' sep
    else
      match Split s' sep with
      | h :: t => String c h :: t
      | [] => [String c ""]
      end
  end.

(** [strconv.Atoi], where [int] has 64 bits. *)
Definition Atoi (s : string) : option Z := ParseInt s.

(** The loop over the entries of [STATICOMMENT_ALLOWED_ORIGINS]: the origins
    to add to [cfg.AllowedOrigins], or the error. *)
Fixpoint load_origins `{GoLib} `{GoRegexp} (entries : list string)
  : list string + string :=
  match entries with
  | [] => inl []
  | o :: rest =>
    let o := TrimSpace o in
    if String.eqb o "" then load_origins rest
    else
      let bad :=
        match url_Parse o with
        | None => true
        | Some u => String.eqb (Scheme u) "" || String.eqb (Host u) ""
        end in
      if bad then
        inr ("STATICOMMENT_ALLOWED_ORIGINS: invalid origin " +:+ Quote o +:+
             " (must include scheme and host, e.g. https://example.com)")
      else
        match load_origins rest with
        | inl origins => inl (o :: origins)
        | inr e => inr e
        end
  end.

(** The loop over the entries of [STATICOMMENT_BLOCKED_PATTERNS]. *)
Fixpoint load_patterns `{GoLib} `{GoRegexp} (entries : list string)
  : list Regexp + string :=
  match entries with
  | [] => inl []
  | p :: rest =>
    let p := TrimSpace p in
    if String.eqb p "" then load_patterns rest
    else
      match regexp_Compile ("(?i)" +:+ p) with
      | inr err =>
        inr ("STATICOMMENT_BLOCKED_PATTERNS: invalid regex " +:+ Quote p +:+ ": " +:+ err)
      | inl re =>
        match load_patterns rest with
        | inl res => inl (re :: res)
        | inr e => inr e
        end
      end
  end.

(** A setting that must be a non-negative integer. *)
Definition load_count (getenv : Environ) (key fallback : string) : Z + string :=
  match Atoi (envOrDefault getenv key fallback) with
  | None => inr (key +:+ " must be a non-negative integer")
  | Some n =>
    if n <? 0 then inr (key +:+ " must be a non-negative integer") else inl n
  end.

Definition LoadConfig `{GoLib} `{GoRegexp} (getenv : Environ) : Settings + string :=
  let branch := envOrDefault getenv "STATICOMMENT_BRANCH" "main" in
  let commentsPath :=
    envOrDefault getenv "STATICOMMENT_COMMENTS_PATH" "_data/comments" in
  let postsPath := getenv "STATICOMMENT_POSTS_PATH" in
  let port := envOrDefault getenv "STATICOMMENT_PORT" "8080" in
  let sshKeyPath :=
    envOrDefault getenv "STATICOMMENT_SSH_KEY_PATH" "/app/.ssh/id_ed25519" in
  let sshInsecure := String.eqb (getenv "STATICOMMENT_SSH_INSECURE") "1" in
  if filepath_IsAbs commentsPath then
    inr "STATICOMMENT_COMMENTS_PATH must be a relative path"
  else
    let commentsPath := filepath_Clean commentsPath in
    if HasPrefix commentsPath ".." then
      inr "STATICOMMENT_COMMENTS_PATH must not escape the repo directory"
    else
      let posts : string + string :=
        if negb (String.eqb postsPath "") then
          if filepath_IsAbs postsPath then
            inr "STATICOMMENT_POSTS_PATH must be a relative path"
          else if HasPrefix (filepath_Clean postsPath) ".." then
            inr "STATICOMMENT_POSTS_PATH must not escape the repo directory"
          else inl (filepath_Clean postsPath)
        else inl postsPath in
      match posts with
      | inr e => inr e
      | inl postsPath =>
        let gitRepo := getenv "STATICOMMENT_GIT_REPO" in
        if String.eqb gitRepo "" then inr "STATICOMMENT_GIT_REPO is required"
        else
          let origins := getenv "STATICOMMENT_ALLOWED_ORIGINS" in
          if String.eqb origins "" then inr "STATICOMMENT_ALLOWED_ORIGINS is required"
          else
            match load_origins (Split origins ",") with
            | inr e => inr e
            | inl allowedOrigins =>
              if (List.length allowedOrigins =? 0)%nat then
                inr "STATICOMMENT_ALLOWED_ORIGINS must contain at least one origin"
              else
                let honeypotField :=
                  envOrDefault getenv "STATICOMMENT_HONEYPOT_FIELD" "website" in
                match load_count getenv "STATICOMMENT_RATE_LIMIT_WINDOW" "60" with
                | inr e => inr e
                | inl rateLimitWindow =>
                  match load_count getenv "STATICOMMENT_RATE_LIMIT_MAX" "5" with
                  | inr e => inr e
                  | inl rateLimitMax =>
                    match load_count getenv "STATICOMMENT_MAX_LINKS" "3" with
                    | inr e => inr e
                    | inl maxLinks =>
                      let blockedPatternsStr :=
                        getenv "STATICOMMENT_BLOCKED_PATTERNS" in
                      match (if negb (String.eqb blockedPatternsStr "") then
                               load_patterns (Split blockedPatternsStr ",")
                             else inl []) with
                      | inr e => inr e
                      | inl blockedPatterns =>
                        match load_count getenv "STATICOMMENT_MIN_SUBMIT_TIME" "5" with
                        | inr e => inr e
                        | inl minSubmitTime =>
                          inl {| base := {| GitRepo := gitRepo;
                                            Branch := branch;
                                            CommentsPath := commentsPath;
                                            PostsPath := postsPath;
                                            AllowedOrigins := allowedOrigins;
                                            SSHKeyPath := sshKeyPath;
                                            SSHInsecure := sshInsecure |};
                                 Port := port;
                                 HoneypotField := honeypotField;
                                 RateLimitWindow := rateLimitWindow;
                                 RateLimitMax := rateLimitMax;
                                 MaxLinks := maxLinks;
                                 BlockedPatterns := blockedPatterns;
                                 MinSubmitTime := minSubmitTime |}
                        end
                      end
                    end
                  end
                end
            end
      end.

(** An entry of a list of origins or patterns, as the loops read it. *)
Definition entries_of `{GoLib} (s : string) : list string :=
  List.filter (fun e => negb (String.eqb e "")) (List.map TrimSpace (Split s ",")).

(** An origin that the loader accepts: a URL with a scheme and a host. *)
Definition valid_origin `{GoLib} (o : string) : Prop :=
  exists u, url_Parse o = Some u /\ Scheme u <> "" /\ Host u <> "".

(** A count that the loader accepts. *)
Definition valid_count (getenv : Environ) (key fallback : string) (n : Z) : Prop :=
  Atoi (envOrDefault getenv key fallback) = Some n /\ 0 <= n <= max_int64.

(** The environment holds a configuration that the loader accepts. *)
Definition loadable `{GoLib} `{GoRegexp} (getenv : Environ) : Prop :=
  let commentsPath :=
    envOrDefault getenv "STATICOMMENT_COMMENTS_PATH" "_data/comments" in
  let postsPath := getenv "STATICOMMENT_POSTS_PATH" in
  filepath_IsAbs commentsPath = false /\
  HasPrefix (filepath_Clean commentsPath) ".." = false /\
  (postsPath = "" \/
   (filepath_IsAbs postsPath = false /\
    HasPrefix (filepath_Clean postsPath) ".." = false)) /\
  getenv "STATICOMMENT_GIT_REPO" <> "" /\
  entries_of (getenv "STATICOMMENT_ALLOWED_ORIGINS") <> [] /\
  List.Forall valid_origin (entries_of (getenv "STATICOMMENT_ALLOWED_ORIGINS")) /\
  (exists n, valid_count getenv "STATICOMMENT_RATE_LIMIT_WINDOW" "60" n) /\
  (exists n, valid_count getenv "STATICOMMENT_RATE_LIMIT_MAX" "5" n) /\
  (exists n, valid_count getenv "STATICOMMENT_MAX_LINKS" "3" n) /\
  List.Forall (fun p => exists re, regexp_Compile ("(?i)" +:+ p) = inl re)
    (entries_of (getenv "STATICOMMENT_BLOCKED_PATTERNS")) /\
  (exists n, valid_count getenv "STATICOMMENT_MIN_SUBMIT_TIME" "5" n).

(** What the loader has put in the configuration it returns. *)
Definition loaded `{GoLib} `{GoRegexp} (getenv : Environ) (s : Settings) : Prop :=
  GitRepo (base s) = getenv "STATICOMMENT_GIT_REPO" /\
  Branch (base s) = envOrDefault getenv "STATICOMMENT_BRANCH" "main" /\
  CommentsPath (base s) =
    filepath_Clean (envOrDefault getenv "STATICOMMENT_COMMENTS_PATH" "_data/comments") /\
  PostsPath (base s) =
    (if String.eqb (getenv "STATICOMMENT_POSTS_PATH") "" then ""
     else filepath_Clean (getenv "STATICOMMENT_POSTS_PATH")) /\
  AllowedOrigins (base s) = entries_of (getenv "STATICOMMENT_ALLOWED_ORIGINS") /\
  SSHKeyPath (base s) =
    envOrDefault getenv "STATICOMMENT_SSH_KEY_PATH" "/app/.ssh/id_ed25519" /\
  SSHInsecure (base s) = String.eqb (getenv "STATICOMMENT_SSH_INSECURE") "1" /\
  Port s = envOrDefault getenv "STATICOMMENT_PORT" "8080" /\
  HoneypotField s = envOrDefault getenv "STATICOMMENT_HONEYPOT_FIELD" "website" /\
  valid_count getenv "STATICOMMENT_RATE_LIMIT_WINDOW" "60" (RateLimitWindow s) /\
  valid_count getenv "STATICOMMENT_RATE_LIMIT_MAX" "5" (RateLimitMax s) /\
  valid_count getenv "STATICOMMENT_MAX_LINKS" "3" (MaxLinks s) /\
  List.Forall2 (fun p re => regexp_Compile ("(?i)" +:+ p) = inl re)
    (entries_of (getenv "STATICOMMENT_BLOCKED_PATTERNS")) (BlockedPatterns s) /\
  valid_count getenv "STATICOMMENT_MIN_SUBMIT_TIME" "5" (MinSubmitTime s).

End Loader.

(** ** A small model of the rest of the library, for the examples

    It agrees with Go's library on the inputs of the examples: patterns that
    are plain lower-case words, paths that are already clean, and texts that
    [%q] prints as they are between quotes. *)

Module SimpleMore.
Import GoString Loader.

Fixpoint lower_all (s : string) : string :=
  match s with
  | EmptyString => ""
  | String c s' => String (SimpleLib.lower c) (lower_all s')
  end.

(** The word of an expression [(?i)word]. *)
Definition word_of (re : string) : string :=
  match re with
  | String "(" (String "?" (String "i" (String ")" word))) => lower_all word
  | _ => re
  end.

Definition quote_mark : ascii := ascii_of_nat 34.

#[export] Instance more : GoRegexp := {|
  Regexp := string;
  regexp_Compile := fun p => inl p;
  MatchString := fun re s => Contains (lower_all s) (word_of re);
  filepath_IsAbs := fun p => HasPrefix p "/";
  filepath_Clean := fun p => p;
  Quote := fun s => String quote_mark s +:+ String quote_mark "";
|}.

(** An environment with the variables [vars] set. *)
Definition env_of (vars : list (string * string)) : Environ :=
  fun key => default "" ((list_to_map vars : gmap string string) !! key).

End SimpleMore.

(* ================================================================== *)
(** * Properties *)
(* ================================================================== *)

(** ** Go strings: the library functions meet their descriptions *)

Module GoStringFacts.
Import GoString.

Lemma byte_val_range (c : ascii) : 0 <= byte_val c < 256.
Proof.
  unfold byte_val. pose proof (N_ascii_bounded c). lia.
Qed.

Lemma InStr_cons (c d : ascii) (s : string) :
  InStr c (String d s) <-> d = c \/ InStr c s.
Proof. unfold InStr. simpl. tauto. Qed.

Lemma InStr_empty (c : ascii) : ~ InStr c "".
Proof. unfold InStr. simpl. tauto. Qed.

Lemma mem_byte_InStr (c : ascii) (s : string) :
  mem_byte c s = true <-> InStr c s.
Proof.
  induction s as [|d s IH]; simpl.
  - split; [discriminate | intros H; destruct (InStr_empty _ H)].
  - rewrite InStr_cons, orb_true_iff, IH, Ascii.eqb_eq. intuition congruence.
Qed.

Lemma HasPrefix_app (s p : string) :
  HasPrefix s p = true <-> exists post, s = p +:+ post.
Proof.
  revert s. induction p as [|a p IH]; intros s; simpl.
  - split; [intros _; exists s; reflexivity | reflexivity].
  - destruct s as [|b s]; simpl.
    + split; [discriminate | intros [post H]; discriminate].
    + rewrite andb_true_iff, Ascii.eqb_eq, IH. split.
      * intros [-> [post ->]]. exists post. reflexivity.
      * intros [post H]. injection H as -> ->. eauto.
Qed.

(** [Contains s sub] holds exactly when [sub] is a substring of [s]. *)
Lemma Contains_substring (s sub : string) :
  Contains s sub = true <-> exists pre post, s = pre +:+ sub +:+ post.
Proof.
  induction s as [|a s IH]; cbn [Contains].
  - rewrite orb_false_r, HasPrefix_app. split.
    + intros [post H]. exists "", post. exact H.
    + intros [pre [post H]]. destruct pre; [exists post; exact H|discriminate].
  - rewrite orb_true_iff, HasPrefix_app, IH. split.
    + intros [[post H]|[pre [post H]]].
      * exists "", post. exact H.
      * exists (String a pre), post. rewrite H. reflexivity.
    + intros [pre [post H]]. destruct pre as [|b pre].
      * left. exists post. exact H.
      * right. exists pre, post.
        change (String a s = String b (pre +:+ sub +:+ post)) in H. congruence.
Qed.

Lemma ContainsAny_spec (s chars : string) :
  ContainsAny s chars = true <-> exists c, InStr c s /\ InStr c chars.
Proof.
  induction s as [|a s IH]; simpl.
  - split; [discriminate | intros [c [H _]]; destruct (InStr_empty _ H)].
  - rewrite orb_true_iff, IH, mem_byte_InStr. split.
    + intros [H|[c [H1 H2]]].
      * exists a. split; [apply InStr_cons; auto | exact H].
      * exists c. split; [apply InStr_cons; auto | exact H2].
    + intros [c [H1 H2]]. apply InStr_cons in H1. destruct H1 as [->|H1].
      * left. exact H2.
      * right. exists c. auto.
Qed.

Lemma lor_lower_l (a b : Z) : 0 <= a -> 0 <= b -> a <= Z.lor a b.
Proof.
  intros Ha Hb.
  assert (H0 : 0 <= Z.lor a b) by (apply Z.lor_nonneg; auto).
  assert (H : Z.ldiff a (Z.lor a b) = 0).
  { apply Z.bits_inj'. intros n Hn.
    rewrite Z.ldiff_spec, Z.lor_spec, Z.bits_0.
    destruct (Z.testbit a n), (Z.testbit b n); reflexivity. }
  apply (Z.ldiff_le _ _ H0 H).
Qed.

Lemma lor_lower_r (a b : Z) : 0 <= a -> 0 <= b -> b <= Z.lor a b.
Proof. intros. rewrite Z.lor_comm. apply lor_lower_l; assumption. Qed.

Lemma land_low (x : Z) (n : Z) : 0 <= n -> Z.land x (Z.ones n) = x mod 2 ^ n.
Proof. intros. apply Z.land_ones. assumption. Qed.

Ltac decode_step :=
  match goal with
  | |- context [Z.ltb ?a ?b] => destruct (Z.ltb_spec a b)
  | |- context [Z.leb ?a ?b] => destruct (Z.leb_spec a b)
  | |- context [Z.eqb ?a ?b] => destruct (Z.eqb_spec a b)
  | |- context [match ?s with EmptyString => _ | String _ _ => _ end] =>
    destruct s as [|? ?]
  end; cbn [andb negb Nat.leb fst].

Ltac mod_nonneg :=
  repeat first
    [ apply Z.lor_nonneg; split
    | apply Z.mul_nonneg_nonneg
    | apply Z.mod_pos_bound; lia
    | lia ].

Ltac bound_lor_at a b :=
  assert (0 <= a) by mod_nonneg;
  assert (0 <= b) by mod_nonneg;
  pose proof (lor_lower_l a b ltac:(assumption) ltac:(assumption));
  pose proof (lor_lower_r a b ltac:(assumption) ltac:(assumption));
  generalize dependent (Z.lor a b); intros.

Ltac bound_lor :=
  match goal with
  | |- context [Z.lor ?a ?b] => bound_lor_at a b
  | _ : context [Z.lor ?a ?b] |- _ => bound_lor_at a b
  end.

(** A rune decoded from a sequence that starts with a non-ASCII byte is not an
    ASCII code point; an ASCII byte decodes to itself. *)
Lemma DecodeRune_ascii (c : ascii) (s : string) :
  byte_val c < 128 -> DecodeRuneInString (String c s) = (byte_val c, 1%nat).
Proof.
  intros H. simpl. destruct (Z.ltb_spec (byte_val c) 128); [reflexivity|lia].
Qed.

Lemma DecodeRune_high (c : ascii) (s : string) :
  128 <= byte_val c -> 128 <= fst (DecodeRuneInString (String c s)).
Proof.
  intros H.
  assert (HE : 128 <= RuneError) by (unfold RuneError; lia).
  unfold DecodeRuneInString, first, in_range.
  repeat decode_step; try exact HE; try lia.
  all: repeat match goal with
       | |- context [byte_val ?a] =>
         pose proof (byte_val_range a); generalize dependent (byte_val a); intros
       end.
  all: change 31 with (Z.ones 5); change 15 with (Z.ones 4);
       change 7 with (Z.ones 3); change 63 with (Z.ones 6);
       rewrite ?land_low by lia; rewrite ?Z.shiftl_mul_pow2 by lia.
  all: repeat bound_lor.
  all: Z.div_mod_to_equations; lia.
Qed.

End GoStringFacts.

(** ** Slug validation *)

Module SlugFacts.
Import GoString GoStringFacts SlugCheck.

Lemma slug_rune_ok_ascii (c : Z) : slug_rune_ok c = true -> c < 128.
Proof. unfold slug_rune_ok. lia. Qed.

Lemma range_runes_cons_ascii (c : ascii) (s : string) :
  byte_val c < 128 -> range_runes (String c s) = byte_val c :: range_runes s.
Proof.
  intros H. unfold range_runes. cbn [range_runes_from].
  rewrite (DecodeRune_ascii c s H). reflexivity.
Qed.

Lemma range_runes_cons_high (c : ascii) (s : string) :
  128 <= byte_val c ->
  exists r rs, range_runes (String c s) = r :: rs /\ 128 <= r.
Proof.
  intros H. pose proof (DecodeRune_high c s H) as Hr.
  unfold range_runes. cbn [range_runes_from].
  destruct (DecodeRuneInString (String c s)) as [r size]. eauto.
Qed.

(** The test of the loop, on a byte, accepts exactly the characters of a
    slug: each of the 256 bytes is tried. *)
Lemma slug_rune_ok_alphabet (c : ascii) :
  slug_rune_ok (byte_val c) = is_slug_char c.
Proof.
  destruct c as [[] [] [] [] [] [] [] []]; vm_compute; reflexivity.
Qed.

(** The loop of [isValidSlug] accepts exactly the strings all of whose bytes
    are letters, digits, hyphens or underscores. *)
Lemma runes_ok_iff_bytes_ok (s : string) :
  forallb slug_rune_ok (range_runes s) = true <->
  (forall c, InStr c s -> is_slug_char c = true).
Proof.
  induction s as [|c s IH].
  - split; [intros _ d Hd; destruct (InStr_empty _ Hd) | reflexivity].
  - destruct (Z_lt_le_dec (byte_val c) 128) as [Hlo|Hhi].
    + rewrite (range_runes_cons_ascii c s Hlo). cbn [forallb].
      rewrite andb_true_iff, IH, slug_rune_ok_alphabet. split.
      * intros [Hc Hs] d Hd. apply InStr_cons in Hd.
        destruct Hd as [<-|Hd]; [exact Hc | exact (Hs d Hd)].
      * intros Hall. split.
        -- apply Hall, InStr_cons; auto.
        -- intros d Hd. apply Hall, InStr_cons; auto.
    + destruct (range_runes_cons_high c s Hhi) as (r & rs & -> & Hr).
      cbn [forallb]. split.
      * intros Hok. apply andb_true_iff in Hok. destruct Hok as [Hok _].
        apply slug_rune_ok_ascii in Hok. lia.
      * intros Hall. assert (Hc : is_slug_char c = true)
          by (apply Hall, InStr_cons; auto).
        rewrite <- slug_rune_ok_alphabet in Hc.
        apply slug_rune_ok_ascii in Hc. lia.
Qed.

Lemma isValidSlug_true_iff (slug : string) :
  isValidSlug slug = true <->
  slug <> "" /\ (forall c, InStr c slug -> is_slug_char c = true).
Proof.
  unfold isValidSlug. destruct (String.eqb_spec slug "") as [->|Hne].
  - split; [discriminate | intros [H _]; congruence].
  - destruct (Contains slug "..") eqn:Hdots.
    + split; [discriminate|]. intros [_ Hall]. exfalso.
      apply Contains_substring in Hdots. destruct Hdots as (pre & post & ->).
      assert (H : is_slug_char "." = true).
      { apply Hall. unfold InStr.
        clear. induction pre as [|a pre IH]; [left; reflexivity | right; exact IH]. }
      discriminate H.
    + destruct (ContainsAny slug "/\") eqn:Hsep.
      * split; [discriminate|]. intros [_ Hall]. exfalso.
        apply ContainsAny_spec in Hsep. destruct Hsep as (c & Hc & Hsep).
        specialize (Hall c Hc).
        unfold InStr in Hsep. simpl in Hsep.
        destruct Hsep as [<-|[<-|[]]]; discriminate Hall.
      * rewrite runes_ok_iff_bytes_ok. tauto.
Qed.

(** C3. [isValidSlug] rejects the empty slug, every slug that contains the
    substring [..], every slug that contains [/] or [\], and every slug that
    contains a character other than an ASCII letter, digit, hyphen or
    underscore; it accepts every non-empty slug made only of such
    characters. *)
Theorem isValidSlug_spec (slug : string) :
  (slug = "" -> isValidSlug slug = false) /\
  ((exists pre post, slug = pre +:+ ".." +:+ post) -> isValidSlug slug = false) /\
  (InStr "/" slug \/ InStr "\" slug -> isValidSlug slug = false) /\
  ((exists c, InStr c slug /\ is_slug_char c = false) -> isValidSlug slug = false) /\
  (slug <> "" -> (forall c, InStr c slug -> is_slug_char c = true) ->
   isValidSlug slug = true).
Proof.
  assert (Hbad : (exists c, InStr c slug /\ is_slug_char c = false) ->
                 isValidSlug slug = false).
  { intros (c & Hc & Hbad). apply not_true_is_false. intros Hv.
    apply isValidSlug_true_iff in Hv. destruct Hv as [_ Hall].
    rewrite (Hall c Hc) in Hbad. discriminate. }
  repeat split.
  - intros ->. reflexivity.
  - intros Hsub. apply Contains_substring in Hsub.
    unfold isValidSlug. rewrite Hsub. destruct (String.eqb slug ""); reflexivity.
  - intros [H|H]; apply Hbad; eexists; (split; [exact H | reflexivity]).
  - exact Hbad.
  - intros Hne Hall. apply isValidSlug_true_iff. auto.
Qed.

Example isValidSlug_accepts : isValidSlug "my-post_2024" = true.
Proof. reflexivity. Qed.

Example isValidSlug_rejects_traversal : isValidSlug "../../../etc/passwd" = false.
Proof. reflexivity. Qed.

Example isValidSlug_rejects_dots : isValidSlug "a..b" = false.
Proof. reflexivity. Qed.

Example isValidSlug_rejects_space : isValidSlug "my post" = false.
Proof. reflexivity. Qed.

End SlugFacts.

(** ** Rate limiter *)

Module RateLimiterFacts.
Import GoInt Spam.

Lemma wrap64_range (z : Z) : min_int64 <= wrap64 z <= max_int64.
Proof.
  unfold wrap64, min_int64, max_int64.
  pose proof (Z.mod_pos_bound (z + 2 ^ 63) (2 ^ 64) ltac:(lia)). lia.
Qed.

Lemma wrap64_id (z : Z) : min_int64 <= z <= max_int64 -> wrap64 z = z.
Proof.
  unfold wrap64, min_int64, max_int64. intros H.
  rewrite Z.mod_small by lia. lia.
Qed.

Lemma cutoff_at_sub (rl : RateLimiter) (now : Z) :
  min_int64 < window rl <= max_int64 -> cutoff_at rl now = now - window rl.
Proof.
  intros H. unfold cutoff_at. rewrite wrap64_id; [lia|].
  unfold min_int64, max_int64 in *. lia.
Qed.

Lemma prune_In (cutoff : Z) (l : list Z) (t : Z) :
  In t (prune cutoff l) <-> In t l /\ cutoff < t.
Proof.
  unfold prune, After. rewrite filter_In, Z.ltb_lt. tauto.
Qed.

Lemma prune_length (cutoff : Z) (l : list Z) :
  (List.length (prune cutoff l) <= List.length l)%nat.
Proof. apply List.filter_length_le. Qed.

Lemma stamps_insert (w m : Z) (es : gmap string (list Z)) (ip ip' : string) (l : list Z) :
  stamps {| window := w; max := m; entries := <[ip := l]> es |} ip' =
  if decide (ip = ip') then l
  else stamps {| window := w; max := m; entries := es |} ip'.
Proof.
  unfold stamps. cbn [entries]. rewrite lookup_insert.
  destruct (decide (ip = ip')); reflexivity.
Qed.

Lemma Allow_max (rl : RateLimiter) (now : Z) (ip : string) :
  max (snd (Allow rl now ip)) = max rl /\
  window (snd (Allow rl now ip)) = window rl.
Proof.
  unfold Allow. destruct (max rl <=? 0); [auto|].
  destruct (max rl <=? _); auto.
Qed.

Lemma Allow_bounded (rl : RateLimiter) (now : Z) (ip : string) :
  ledger_bounded rl -> ledger_bounded (snd (Allow rl now ip)).
Proof.
  intros Hb ip'. destruct (Allow_max rl now ip) as [-> _].
  unfold Allow. destruct (Z.leb_spec (max rl) 0) as [|Hpos]; [apply Hb|].
  set (valid := prune (cutoff_at rl now) (stamps rl ip)).
  assert (Hv : (List.length valid <= List.length (stamps rl ip))%nat)
    by apply prune_length.
  destruct (Z.leb_spec (max rl) (Z.of_nat (List.length valid))) as [Hfull|Hroom];
    cbn [snd]; rewrite stamps_insert; destruct (decide (ip = ip')) as [->|Hne].
  - specialize (Hb ip'). lia.
  - destruct rl; apply Hb.
  - rewrite length_app. cbn [List.length]. lia.
  - destruct rl; apply Hb.
Qed.

Lemma cleanup_tick_stamps (rl : RateLimiter) (now : Z) (ip : string) :
  stamps (cleanup_tick rl now) ip = prune (cutoff_at rl now) (stamps rl ip).
Proof.
  unfold cleanup_tick, stamps. cbn [entries]. rewrite lookup_omap.
  destruct (entries rl !! ip) as [l|]; [|reflexivity].
  change (default [] (match prune (cutoff_at rl now) l with
                      | [] => None
                      | valid => Some valid
                      end) = prune (cutoff_at rl now) l).
  destruct (prune (cutoff_at rl now) l); reflexivity.
Qed.

Lemma cleanup_tick_bounded (rl : RateLimiter) (now : Z) :
  ledger_bounded rl -> ledger_bounded (cleanup_tick rl now).
Proof.
  intros Hb ip. rewrite cleanup_tick_stamps.
  pose proof (prune_length (cutoff_at rl now) (stamps rl ip)).
  specialize (Hb ip). cbn [cleanup_tick max]. lia.
Qed.

Lemma limiter_step_bounded (rl : RateLimiter) (e : LimiterEvent) :
  ledger_bounded rl -> ledger_bounded (limiter_step rl e).
Proof.
  destruct e; cbn [limiter_step];
    [apply Allow_bounded | apply cleanup_tick_bounded].
Qed.

Lemma limiter_step_max (rl : RateLimiter) (e : LimiterEvent) :
  max (limiter_step rl e) = max rl.
Proof.
  destruct e; cbn [limiter_step]; [apply Allow_max | reflexivity].
Qed.

Lemma limiter_run_bounded (evs : list LimiterEvent) (rl : RateLimiter) :
  ledger_bounded rl ->
  ledger_bounded (limiter_run rl evs) /\ max (limiter_run rl evs) = max rl.
Proof.
  revert rl. induction evs as [|e evs IH]; intros rl Hb; [auto|].
  unfold limiter_run in *. cbn [fold_left].
  destruct (IH (limiter_step rl e) (limiter_step_bounded rl e Hb)) as [H1 H2].
  rewrite limiter_step_max in H2. auto.
Qed.

Lemma NewRateLimiter_bounded (windowSeconds m : Z) :
  0 <= m -> ledger_bounded (NewRateLimiter windowSeconds m).
Proof.
  intros Hm ip. unfold stamps. cbn [NewRateLimiter entries max].
  rewrite lookup_empty. cbn. lia.
Qed.

(** C2. For a limiter created with [max > 0], in any state it reaches through
    calls of [Allow] and sweeps: [Allow(ip)] at instant [now] first prunes
    the timestamps of [ip] that are not newer than the cutoff [now - window];
    if at least [max] remain it answers [false] and the ledger keeps just the
    pruned list (no new timestamp); otherwise it appends [now] and answers
    [true]; the timestamps of other addresses are untouched.  Consequently,
    after the call, for every address and against every cutoff, the number of
    retained timestamps newer than the cutoff is at most [max]. *)
Theorem Allow_spec (windowSeconds m : Z) (evs : list LimiterEvent)
    (now : Z) (ip : string) :
  0 < m ->
  let rl := limiter_run (NewRateLimiter windowSeconds m) evs in
  let cutoff := cutoff_at rl now in
  let valid := prune cutoff (stamps rl ip) in
  let rl' := snd (Allow rl now ip) in
  (min_int64 < window rl -> cutoff = now - window rl) /\
  (forall t, In t valid <-> In t (stamps rl ip) /\ cutoff < t) /\
  (m <= Z.of_nat (List.length valid) ->
     fst (Allow rl now ip) = false /\ stamps rl' ip = valid) /\
  (Z.of_nat (List.length valid) < m ->
     fst (Allow rl now ip) = true /\ stamps rl' ip = (valid ++ [now])%list) /\
  (forall ip', ip' <> ip -> stamps rl' ip' = stamps rl ip') /\
  (forall ip' c, Z.of_nat (List.length (prune c (stamps rl' ip'))) <= m).
Proof.
  intros Hm rl cutoff valid rl'.
  destruct (limiter_run_bounded evs (NewRateLimiter windowSeconds m)
              (NewRateLimiter_bounded windowSeconds m ltac:(lia))) as [Hb Hmax].
  fold rl in Hb, Hmax. cbn [NewRateLimiter max] in Hmax.
  assert (Hstep : Allow rl now ip =
    if m <=? Z.of_nat (List.length valid)
    then (false, {| window := window rl; max := max rl;
                    entries := <[ip := valid]> (entries rl) |})
    else (true, {| window := window rl; max := max rl;
                   entries := <[ip := (valid ++ [now])%list]> (entries rl) |})).
  { unfold Allow. rewrite Hmax.
    destruct (Z.leb_spec m 0); [lia | reflexivity]. }
  split; [|split; [|split; [|split; [|split]]]].
  - intros Hw. apply cutoff_at_sub. split; [exact Hw|].
    assert (Hr : window rl = window (NewRateLimiter windowSeconds m)).
    { subst rl. clear. generalize (NewRateLimiter windowSeconds m).
      induction evs as [|e evs IH]; intros r; [reflexivity|].
      unfold limiter_run in *. cbn [fold_left]. rewrite IH.
      destruct e; cbn [limiter_step]; [apply Allow_max | reflexivity]. }
    rewrite Hr. cbn [NewRateLimiter window]. apply wrap64_range.
  - intros t. apply prune_In.
  - intros Hfull. unfold rl'. rewrite Hstep.
    destruct (Z.leb_spec m (Z.of_nat (List.length valid))); [|lia].
    cbn [fst snd]. split; [reflexivity|].
    rewrite stamps_insert. destruct (decide (ip = ip)); [reflexivity|congruence].
  - intros Hroom. unfold rl'. rewrite Hstep.
    destruct (Z.leb_spec m (Z.of_nat (List.length valid))); [lia|].
    cbn [fst snd]. split; [reflexivity|].
    rewrite stamps_insert. destruct (decide (ip = ip)); [reflexivity|congruence].
  - intros ip' Hne. unfold rl'. rewrite Hstep.
    destruct (m <=? Z.of_nat (List.length valid)); cbn [snd];
      rewrite stamps_insert; (destruct (decide (ip = ip')); [congruence|]);
      destruct rl; reflexivity.
  - intros ip' c. pose proof (Allow_bounded rl now ip Hb ip') as Hb'.
    destruct (Allow_max rl now ip) as [Hm' _]. rewrite Hm', Hmax in Hb'.
    fold rl' in Hb'. pose proof (prune_length c (stamps rl' ip')). lia.
Qed.

(** Two requests per window: the third request within the window is refused
    and leaves no timestamp; once the window has passed, it is accepted. *)
Lemma Allow_spec_witness :
  let rl := limiter_run (NewRateLimiter 60 2)
              [AllowCall (5 * Second) "10.0.0.1"; AllowCall (6 * Second) "10.0.0.1"] in
  fst (Allow rl (7 * Second) "10.0.0.1") = false /\
  stamps (snd (Allow rl (7 * Second) "10.0.0.1")) "10.0.0.1" =
    prune (cutoff_at rl (7 * Second)) (stamps rl "10.0.0.1").
Proof.
  intros rl.
  refine (proj1 (proj2 (proj2
    (Allow_spec 60 2 [AllowCall (5 * Second) "10.0.0.1";
                      AllowCall (6 * Second) "10.0.0.1"]
                (7 * Second) "10.0.0.1" _))) _).
  - lia.
  - vm_compute. discriminate.
Defined.

Example Allow_after_window :
  let rl := limiter_run (NewRateLimiter 60 2)
              [AllowCall (5 * Second) "10.0.0.1"; AllowCall (6 * Second) "10.0.0.1"] in
  fst (Allow rl (65 * Second) "10.0.0.1") = true /\
  stamps (snd (Allow rl (65 * Second) "10.0.0.1")) "10.0.0.1" =
    [6 * Second; 65 * Second].
Proof. vm_compute. split; reflexivity. Qed.

End RateLimiterFacts.

(** ** Honeypot and submission time *)

Module SpamFacts.
Import GoString GoInt Http Spam.
Import RateLimiterFacts.

Lemma eqb_empty_false (s : string) : String.eqb s "" = false <-> s <> "".
Proof. destruct (String.eqb_spec s ""); split; congruence. Qed.

Lemma FormValue_absent (r : Request) (key : string) :
  Form r !! key = None -> FormValue r key = "".
Proof. intros H. unfold FormValue, first_value. rewrite H. reflexivity. Qed.

(** C10. With an empty field name [checkHoneypot] answers [false] whatever
    the request holds; with a field name, it answers [true] exactly when the
    value of that form field is not empty once trimmed. *)
Theorem checkHoneypot_spec `{GoLib} (r : Request) (fieldName : string) :
  (fieldName = "" -> checkHoneypot r fieldName = false) /\
  (fieldName <> "" ->
   (checkHoneypot r fieldName = true <->
    TrimSpace (FormValue r fieldName) <> "")).
Proof.
  unfold checkHoneypot. split.
  - intros ->. reflexivity.
  - intros Hne. apply eqb_empty_false in Hne. rewrite Hne.
    rewrite negb_true_iff. apply eqb_empty_false.
Qed.

(** C9 (as the code has it). [checkTimestamp] answers [false] whenever the
    configured minimum is not positive, and whenever the timestamp field is
    absent or blank (empty once trimmed).  With a positive minimum and a
    field that is not blank, it answers [true] whenever the field does not
    parse as a decimal 64-bit integer, and for a field that parses to [ts],
    with [now - ts] within 64 bits, it answers [true] exactly when
    [now - ts] is less than the minimum. *)
Theorem checkTimestamp_spec `{GoLib} (now : Z) (r : Request) (minSeconds : Z) :
  let tsStr := TrimSpace (FormValue r "_timestamp") in
  (minSeconds <= 0 -> checkTimestamp now r minSeconds = false) /\
  (Form r !! "_timestamp" = None -> checkTimestamp now r minSeconds = false) /\
  (tsStr = "" -> checkTimestamp now r minSeconds = false) /\
  (0 < minSeconds -> tsStr <> "" -> ParseInt tsStr = None ->
   checkTimestamp now r minSeconds = true) /\
  (forall ts, 0 < minSeconds -> tsStr <> "" -> ParseInt tsStr = Some ts ->
   min_int64 <= now - ts <= max_int64 ->
   (checkTimestamp now r minSeconds = true <-> now - ts < minSeconds)).
Proof.
  intros tsStr. unfold checkTimestamp. fold tsStr.
  assert (Hblank : tsStr = "" ->
    (if minSeconds <=? 0 then false
     else if String.eqb tsStr "" then false
     else match ParseInt tsStr with
          | Some ts => wrap64 (now - ts) <? minSeconds
          | None => true
          end) = false).
  { intros ->. destruct (minSeconds <=? 0); reflexivity. }
  split; [|split; [|split; [|split]]].
  - intros Hmin. destruct (Z.leb_spec minSeconds 0); [reflexivity|lia].
  - intros Habs. apply Hblank. unfold tsStr.
    rewrite (FormValue_absent r _ Habs). apply TrimSpace_empty.
  - exact Hblank.
  - intros Hmin Hne Hparse. destruct (Z.leb_spec minSeconds 0); [lia|].
    apply eqb_empty_false in Hne. rewrite Hne, Hparse. reflexivity.
  - intros ts Hmin Hne Hparse Hfit. destruct (Z.leb_spec minSeconds 0); [lia|].
    apply eqb_empty_false in Hne. rewrite Hne, Hparse.
    rewrite (wrap64_id _ Hfit). apply Z.ltb_lt.
Qed.

End SpamFacts.

(** ** Repository synchronizer: commit and push *)

Module GitFacts.
Import GoString Sys Git GitSpec.

Lemma bind_eq {A B} (m : M A) (k : A -> M B) (w : World) :
  (m ≫= k) w = let '(a, w') := m w in k a w'.
Proof. reflexivity. Qed.

Lemma mret_eq {A} (a : A) (w : World) : (mret a : M A) w = (a, w).
Proof. reflexivity. Qed.

(** A subprocess leaves the files as they are. *)
Lemma run_eq (cfg : Config) (dir : string) (args : list string) (w : World) :
  run cfg dir args w =
  let r := env w (history w) (git cfg dir args) in
  (error_of r, logged w (files w) (git cfg dir args) r).
Proof.
  unfold run. rewrite bind_eq. unfold perform.
  destruct (env w (history w) (git cfg dir args)); reflexivity.
Qed.

Lemma logged_history w fs a r :
  history (logged w fs a r) = (history w ++ [(a, r)])%list.
Proof. reflexivity. Qed.

Lemma push_loop_trace (cfg : Config) (n : nat) (w : World) :
  exists tr,
    history (snd (push_loop cfg n w)) = (history w ++ tr)%list /\
    push_trace cfg n tr (fst (push_loop cfg n w)).
Proof.
  revert w. induction n as [|n IH]; intros w; cbn [push_loop].
  - exists []. rewrite app_nil_r. split; [reflexivity | constructor].
  - rewrite bind_eq, run_eq. cbv beta iota zeta.
    destruct (env w (history w) (git cfg repoDir ["push"])) as [out|e1] eqn:E1;
      cbn [error_of].
    + eexists. split; [reflexivity | apply pt_pushed].
    + rewrite bind_eq. unfold pullLocked. rewrite run_eq. cbv beta iota zeta.
      set (w1 := logged w (files w) (git cfg repoDir ["push"]) (Err e1)).
      destruct (env w1 (history w1) (git cfg repoDir ["pull"; "--rebase"]))
        as [out|e2] eqn:E2; cbn [error_of].
      * set (w2 := logged w1 _ _ _).
        destruct (IH w2) as (tr & Hh & Ht).
        exists ((push cfg, Err e1) :: (pull cfg, Ok out) :: tr). split.
        -- rewrite Hh. unfold w2, w1. rewrite !logged_history, <- !app_assoc.
           reflexivity.
        -- apply pt_retry. exact Ht.
      * rewrite bind_eq, run_eq. cbv beta iota zeta. rewrite mret_eq. cbn [fst snd].
        eexists. split; [|apply (pt_pull_failed cfg n e1 e2)].
        unfold w1. rewrite !logged_history, <- !app_assoc. reflexivity.
Qed.

Lemma is_action_same (a : Action) (r : Result) : is_action a (a, r) = true.
Proof. unfold is_action. apply bool_decide_eq_true_2. reflexivity. Qed.

Lemma is_action_other (a b : Action) (r : Result) :
  b <> a -> is_action a (b, r) = false.
Proof. intros H. unfold is_action. apply bool_decide_eq_false_2. exact H. Qed.

Lemma is_push_pull cfg r : is_action (push cfg) (pull cfg, r) = false.
Proof. apply is_action_other. discriminate. Qed.

Lemma is_push_abort cfg r : is_action (push cfg) (rebase_abort cfg, r) = false.
Proof. apply is_action_other. discriminate. Qed.

Ltac count_events :=
  unfold count_action, is_failed in *;
  repeat progress
    (cbn [List.filter snd is_ok negb andb List.length];
     rewrite ?is_action_same, ?is_push_pull, ?is_push_abort).

Lemma push_trace_count cfg n tr err :
  push_trace cfg n tr err -> (count_action (push cfg) tr <= n)%nat.
Proof.
  induction 1; count_events; lia.
Qed.

Lemma push_trace_success cfg n tr err :
  push_trace cfg n tr err ->
  forall i out, tr !! i = Some (push cfg, Ok out) ->
  S i = List.length tr /\ err = None.
Proof.
  induction 1 as [|n out'|n e1 e2 r|n e1 out' tr err Ht IH]; intros i out Hi.
  - destruct i; discriminate.
  - destruct i as [|i]; [auto | destruct i; discriminate].
  - do 3 (destruct i as [|i]; [discriminate|]). destruct i; discriminate.
  - do 2 (destruct i as [|i]; [discriminate|]). cbn in Hi.
    destruct (IH i out Hi) as [Hl He]. cbn. auto.
Qed.

Lemma push_trace_pull_failed cfg n tr err :
  push_trace cfg n tr err ->
  forall i e, tr !! i = Some (pull cfg, Err e) ->
  (exists r, tr !! S i = Some (rebase_abort cfg, r)) /\
  S (S i) = List.length tr /\
  err = wrap_err "git pull during push retry" e.
Proof.
  induction 1 as [|n out'|n e1 e2 r|n e1 out' tr err Ht IH]; intros i e Hi.
  - destruct i; discriminate.
  - destruct i as [|i]; [discriminate | destruct i; discriminate].
  - destruct i as [|i]; [discriminate|]. destruct i as [|i].
    + injection Hi as <-. split; [eexists; reflexivity | auto].
    + destruct i as [|i]; [discriminate | destruct i; discriminate].
  - do 2 (destruct i as [|i]; [discriminate|]). cbn in Hi.
    destruct (IH i e Hi) as (Hr & Hl & He). cbn. auto.
Qed.

Lemma push_trace_exhausted cfg n tr err :
  push_trace cfg n tr err ->
  (List.length (List.filter (is_failed (push cfg)) tr) <= n)%nat /\
  (List.length (List.filter (is_failed (push cfg)) tr) = n -> err <> None) /\
  (err = None -> exists out, last tr = Some (push cfg, Ok out)).
Proof.
  induction 1 as [|n out'|n e1 e2 r|n e1 out' tr err Ht IH].
  - cbn. split; [lia|]. split; discriminate.
  - count_events. split; [lia|]. split; [lia | eauto].
  - count_events. split; [lia|]. split; discriminate.
  - destruct IH as (Hle & Hall & Hlast). count_events.
    split; [lia|]. split; [intros; apply Hall; lia|].
    intros He. destruct (Hlast He) as [out Hout]. exists out.
    destruct tr as [|ev tr]; [inversion Ht; subst; discriminate|exact Hout].
Qed.

(** C1. [CommitAndPush] always returns, and runs [git push] at most 3 times.
    Either the pull/add/commit phase fails: the pull, the add or the commit
    ended with an error, nothing is run after the step that failed, and that
    step's error is returned without any push.  Or the three steps succeed
    and are followed by the push phase [rest], in which: a push that succeeds
    is the last action and the call returns success; a pull-rebase that fails
    is followed by [git rebase --abort], after which nothing more is run and
    the call returns that pull's error; and when three pushes have failed the
    call returns an error. *)
Theorem CommitAndPush_retry (cfg : Config) (filePath slug : string) (w : World) :
  let out := CommitAndPush cfg filePath slug w in
  let err := fst out in
  exists tr,
    history (snd out) = (history w ++ tr)%list /\
    (count_action (push cfg) tr <= 3)%nat /\
    ((prepare_failed cfg filePath slug tr err /\
      err <> None /\ count_action (push cfg) tr = 0%nat) \/
     (exists o1 o2 o3 rest,
        tr = (pull cfg, Ok o1) :: (git_add cfg filePath, Ok o2)
             :: (git_commit cfg slug, Ok o3) :: rest /\
        push_trace cfg 3 rest err /\
        (forall i o, rest !! i = Some (push cfg, Ok o) ->
           S i = List.length rest /\ err = None) /\
        (forall i e, rest !! i = Some (pull cfg, Err e) ->
           (exists r, rest !! S i = Some (rebase_abort cfg, r)) /\
           S (S i) = List.length rest /\
           err = wrap_err "git pull during push retry" e) /\
        (List.length (List.filter (is_failed (push cfg)) rest) = 3%nat ->
           err <> None) /\
        (err = None -> exists o, last rest = Some (push cfg, Ok o)))).
Proof.
  cbv zeta. unfold CommitAndPush, pullLocked.
  rewrite bind_eq, run_eq. cbv beta iota zeta.
  destruct (env w (history w) (git cfg repoDir ["pull"; "--rebase"]))
    as [o1|e] eqn:E1; cbn [error_of].
  2:{ rewrite mret_eq. cbn [fst snd]. eexists. split; [reflexivity|].
      count_events. split; [lia|]. left.
      split; [apply pf_pull|]. split; [discriminate | reflexivity]. }
  set (w1 := logged w _ _ _).
  rewrite bind_eq, run_eq. cbv beta iota zeta.
  destruct (env w1 (history w1) (git cfg repoDir ["add"; filePath]))
    as [o2|e] eqn:E2; cbn [error_of].
  2:{ rewrite mret_eq. cbn [fst snd]. unfold w1.
      rewrite !logged_history, <- !app_assoc.
      eexists. split; [reflexivity|]. cbn [app].
      count_events. rewrite ?is_action_other by discriminate.
      cbn. split; [lia|]. left.
      split; [apply pf_add|]. split; [discriminate | reflexivity]. }
  set (w2 := logged w1 _ _ _).
  rewrite bind_eq, run_eq. cbv beta iota zeta.
  destruct (env w2 (history w2)
              (git cfg repoDir ["commit"; "-m"; "Add comment on " +:+ slug]))
    as [o3|e] eqn:E3; cbn [error_of].
  2:{ rewrite mret_eq. cbn [fst snd]. unfold w2, w1.
      rewrite !logged_history, <- !app_assoc.
      eexists. split; [reflexivity|]. cbn [app].
      count_events. rewrite ?is_action_other by discriminate.
      cbn. split; [lia|]. left.
      split; [apply pf_commit|]. split; [discriminate | reflexivity]. }
  set (w3 := logged w2 _ _ _).
  destruct (push_loop_trace cfg pushMaxRetries w3) as (rest & Hh & Ht).
  pose proof (push_trace_count _ _ _ _ Ht) as Hcount.
  exists ((pull cfg, Ok o1) :: (git_add cfg filePath, Ok o2)
          :: (git_commit cfg slug, Ok o3) :: rest).
  split; [|split].
  - rewrite Hh. unfold w3, w2, w1. rewrite !logged_history, <- !app_assoc.
    reflexivity.
  - unfold count_action in *. cbn [List.filter].
    rewrite is_push_pull, !is_action_other by discriminate. exact Hcount.
  - right. exists o1, o2, o3, rest. split; [reflexivity|].
    split; [exact Ht|]. split; [exact (push_trace_success _ _ _ _ Ht)|].
    split; [exact (push_trace_pull_failed _ _ _ _ Ht)|].
    destruct (push_trace_exhausted _ _ _ _ Ht) as (_ & H3 & Hl). auto.
Qed.

End GitFacts.

(** ** Host trust store *)

Module HostKeyFacts.
Import GoString Sys Git GitSpec GitFacts.

Lemma perform_plain (a : Action) (w : World) :
  plain a = true ->
  perform a w =
  (env w (history w) a, logged w (files w) a (env w (history w) a)).
Proof.
  intros H. unfold perform.
  destruct (env w (history w) a); destruct a; try discriminate H; reflexivity.
Qed.

Lemma perform_ReadFile (p : string) (w : World) :
  exists r,
    perform (ReadFile p) w = (r, logged w (files w) (ReadFile p) r) /\
    (forall data, r = Ok data -> files w !! p = Some data).
Proof.
  unfold perform. destruct (env w (history w) (ReadFile p)) as [o|e]; cbn [effect].
  - destruct (files w !! p) as [data|] eqn:E.
    + eexists. split; [reflexivity|]. intros d [= <-]. reflexivity.
    + eexists. split; [reflexivity|]. discriminate.
  - eexists. split; [reflexivity|]. discriminate.
Qed.

Lemma perform_WriteFile (p data : string) (w : World) :
  let r := env w (history w) (WriteFile p data) in
  perform (WriteFile p data) w =
  (r, logged w (if is_ok r then <[p := data]> (files w) else files w)
             (WriteFile p data) r).
Proof.
  unfold perform. destruct (env w (history w) (WriteFile p data)); reflexivity.
Qed.

Lemma perform_WriteAppend (p data : string) (w : World) :
  let r := env w (history w) (WriteAppend p data) in
  perform (WriteAppend p data) w =
  (r, logged w (if is_ok r
                then <[p := default "" (files w !! p) +:+ data]> (files w)
                else files w)
             (WriteAppend p data) r).
Proof.
  unfold perform. destruct (env w (history w) (WriteAppend p data)); reflexivity.
Qed.

Ltac norm_history :=
  cbn [fst snd]; rewrite ?logged_history, <- ?app_assoc; cbn [app].

(** [scanAndAppendHostKeys] scans first; it succeeds exactly when each of its
    actions does, and then the scan's output is at the end of the store;
    when it fails having scanned nothing, the files are as before. *)
Lemma scanAndAppendHostKeys_spec `{GoLib} (host : string) (w : World) :
  let out := scanAndAppendHostKeys host w in
  exists r rest,
    history (snd out) = (history w ++ (Keyscan host, r) :: rest)%list /\
    (fst out = None <-> all_ok ((Keyscan host, r) :: rest) = true) /\
    (fst out = None ->
     exists keys, r = Ok keys /\ files (snd out) = store_appended (files w) keys) /\
    (is_ok r = false -> rest = [] /\ files (snd out) = files w) /\
    (forall cfg, count_action (clone cfg) ((Keyscan host, r) :: rest) = 0%nat).
Proof.
  cbv zeta. unfold scanAndAppendHostKeys, scanHostKeys.
  rewrite !bind_eq, perform_plain by reflexivity.
  destruct (env w (history w) (Keyscan host)) as [keys|e] eqn:E1;
    rewrite mret_eq; cbv beta iota zeta; cbn [fst snd].
  2:{ rewrite mret_eq. exists (Err e), []. norm_history.
      repeat split; try discriminate; auto. }
  set (w1 := logged w _ _ _).
  rewrite bind_eq, perform_plain by reflexivity.
  destruct (env w1 (history w1) (MkdirAll (filepath_Dir knownHostsPath)))
    as [o2|e] eqn:E2; cbv beta iota zeta.
  2:{ rewrite mret_eq. eexists _, _. unfold w1. norm_history.
      split; [reflexivity|]. cbn. repeat split; discriminate. }
  set (w2 := logged w1 _ _ _).
  rewrite bind_eq, perform_plain by reflexivity.
  destruct (env w2 (history w2) (OpenAppend knownHostsPath))
    as [o3|e] eqn:E3; cbv beta iota zeta.
  2:{ rewrite mret_eq. eexists _, _. unfold w2, w1. norm_history.
      split; [reflexivity|]. cbn. repeat split; discriminate. }
  set (w3 := logged w2 _ _ _).
  rewrite bind_eq, perform_WriteAppend. cbv beta iota zeta.
  destruct (env w3 (history w3) (WriteAppend knownHostsPath keys))
    as [o4|e] eqn:E4; cbv beta iota zeta; rewrite mret_eq.
  2:{ eexists _, _. unfold w3, w2, w1. norm_history.
      split; [reflexivity|]. cbn. repeat split; discriminate. }
  eexists _, _. unfold w3, w2, w1. norm_history.
  split; [reflexivity|]. cbn. repeat split; try discriminate.
  exists keys. split; reflexivity.
Qed.

(** [scanAndWriteHostKeys] scans first; it succeeds exactly when each of its
    actions does, and then the store holds the scan's output and nothing
    else. *)
Lemma scanAndWriteHostKeys_spec `{GoLib} (host : string) (w : World) :
  let out := scanAndWriteHostKeys host w in
  exists r rest,
    history (snd out) = (history w ++ (Keyscan host, r) :: rest)%list /\
    (fst out = None <-> all_ok ((Keyscan host, r) :: rest) = true) /\
    (fst out = None ->
     exists keys, r = Ok keys /\ files (snd out) = store_replaced (files w) keys) /\
    (forall cfg, count_action (clone cfg) ((Keyscan host, r) :: rest) = 0%nat).
Proof.
  cbv zeta. unfold scanAndWriteHostKeys, scanHostKeys.
  rewrite !bind_eq, perform_plain by reflexivity.
  destruct (env w (history w) (Keyscan host)) as [keys|e] eqn:E1;
    rewrite mret_eq; cbv beta iota zeta; cbn [fst snd].
  2:{ rewrite mret_eq. exists (Err e), []. norm_history.
      repeat split; try discriminate; auto. }
  set (w1 := logged w _ _ _).
  rewrite bind_eq, perform_plain by reflexivity.
  destruct (env w1 (history w1) (MkdirAll (filepath_Dir knownHostsPath)))
    as [o2|e] eqn:E2; cbv beta iota zeta.
  2:{ rewrite mret_eq. eexists _, _. unfold w1. norm_history.
      split; [reflexivity|]. cbn. repeat split; discriminate. }
  set (w2 := logged w1 _ _ _).
  rewrite bind_eq, perform_WriteFile. cbv beta iota zeta.
  destruct (env w2 (history w2) (WriteFile knownHostsPath keys))
    as [o4|e] eqn:E4; cbv beta iota zeta; rewrite mret_eq.
  2:{ eexists _, _. unfold w2, w1. norm_history.
      split; [reflexivity|]. cbn. repeat split; discriminate. }
  eexists _, _. unfold w2, w1. norm_history.
  split; [reflexivity|]. cbn. repeat split; try discriminate.
  exists keys. split; reflexivity.
Qed.

Lemma refreshHostKeys_no_host `{GoLib} (cfg : Config) (w : World) :
  extractHost (GitRepo cfg) = "" -> refreshHostKeys cfg w = (no_host cfg, w).
Proof. intros Hh. unfold refreshHostKeys. rewrite Hh. reflexivity. Qed.

Lemma refreshHostKeys_host `{GoLib} (cfg : Config) (w : World) :
  extractHost (GitRepo cfg) <> "" ->
  refreshHostKeys cfg w = scanAndWriteHostKeys (extractHost (GitRepo cfg)) w.
Proof.
  intros Hh. unfold refreshHostKeys.
  destruct (String.eqb_spec (extractHost (GitRepo cfg)) ""); [congruence|reflexivity].
Qed.

(** [scanAndWriteHostKeys] for the host of the remote, action by action. *)
Lemma scanAndWriteHostKeys_trace `{GoLib} (cfg : Config) (w : World) :
  extractHost (GitRepo cfg) <> "" ->
  let out := scanAndWriteHostKeys (extractHost (GitRepo cfg)) w in
  exists rtr,
    history (snd out) = (history w ++ rtr)%list /\
    refresh_trace cfg rtr (match fst out with None => true | Some _ => false end).
Proof.
  intros Hh. cbv zeta. unfold scanAndWriteHostKeys, scanHostKeys.
  rewrite !bind_eq, perform_plain by reflexivity.
  destruct (env w (history w) (Keyscan _)) as [keys|e] eqn:E1;
    rewrite mret_eq; cbv beta iota zeta; cbn [fst snd].
  2:{ rewrite mret_eq. eexists. norm_history. split; [reflexivity|].
      apply rt_scan_failed. exact Hh. }
  set (w1 := logged w _ _ _).
  rewrite bind_eq, perform_plain by reflexivity. fold ssh_dir.
  destruct (env w1 (history w1) (MkdirAll ssh_dir)) as [o2|e] eqn:E2;
    cbv beta iota zeta.
  2:{ rewrite mret_eq. eexists. unfold w1. norm_history. split; [reflexivity|].
      apply rt_mkdir_failed. exact Hh. }
  set (w2 := logged w1 _ _ _).
  rewrite bind_eq, perform_WriteFile. cbv beta iota zeta.
  destruct (env w2 (history w2) (WriteFile knownHostsPath keys))
    as [o4|e] eqn:E4; cbv beta iota zeta; rewrite mret_eq.
  2:{ eexists. unfold w2, w1. norm_history. split; [reflexivity|].
      apply rt_write_failed. exact Hh. }
  eexists. unfold w2, w1. norm_history. split; [reflexivity|].
  apply rt_replaced. exact Hh.
Qed.

Lemma refreshHostKeys_trace `{GoLib} (cfg : Config) (w : World) :
  exists rtr,
    history (snd (refreshHostKeys cfg w)) = (history w ++ rtr)%list /\
    refresh_trace cfg rtr
      (match fst (refreshHostKeys cfg w) with None => true | Some _ => false end).
Proof.
  destruct (String.eqb_spec (extractHost (GitRepo cfg)) "") as [Hh|Hh].
  - rewrite (refreshHostKeys_no_host cfg w Hh). exists []. cbn [fst snd].
    rewrite app_nil_r. split; [reflexivity|]. apply rt_no_host. exact Hh.
  - rewrite (refreshHostKeys_host cfg w Hh).
    apply (scanAndWriteHostKeys_trace cfg w Hh).
Qed.

Lemma hostInKnownHosts_spec (host : string) (w : World) :
  exists r,
    hostInKnownHosts host w =
      (listed host r, logged w (files w) (ReadFile knownHostsPath) r) /\
    (forall data, r = Ok data -> files w !! knownHostsPath = Some data).
Proof.
  unfold hostInKnownHosts. rewrite bind_eq.
  destruct (perform_ReadFile knownHostsPath w) as (r & -> & Hr).
  exists r. split; [|exact Hr]. destruct r; reflexivity.
Qed.

Lemma ensureHostKeys_trace `{GoLib} (cfg : Config) (w : World) :
  exists pre,
    history (snd (ensureHostKeys cfg w)) = (history w ++ pre)%list /\
    count_action (clone cfg) pre = 0%nat.
Proof.
  unfold ensureHostKeys. destruct (SSHInsecure cfg).
  { exists []. rewrite app_nil_r. split; reflexivity. }
  destruct (String.eqb (extractHost (GitRepo cfg)) "").
  { exists []. rewrite app_nil_r. split; reflexivity. }
  rewrite bind_eq.
  destruct (hostInKnownHosts_spec (extractHost (GitRepo cfg)) w) as (r0 & -> & _).
  destruct (listed _ r0).
  - rewrite mret_eq. eexists. norm_history. split; [reflexivity|].
    unfold count_action. cbn [List.filter].
    rewrite is_action_other by discriminate. reflexivity.
  - set (w1 := logged w _ _ _).
    destruct (scanAndAppendHostKeys_spec (extractHost (GitRepo cfg)) w1)
      as (r & rest & Hhist & _ & _ & _ & Hcl).
    eexists. split.
    + rewrite Hhist. unfold w1. norm_history. reflexivity.
    + unfold count_action in *. cbn [List.filter].
      rewrite is_action_other by discriminate. apply Hcl.
Qed.

Lemma SplitN2_cut (pre post : string) (sep : ascii) :
  ~ InStr sep pre -> SplitN2 (pre +:+ String sep post) sep = [pre; post].
Proof.
  induction pre as [|c pre IH]; intros Hno.
  - change ("" +:+ String sep post) with (String sep post).
    cbn [SplitN2]. rewrite Ascii.eqb_refl. reflexivity.
  - change (String c pre +:+ String sep post)
      with (String c (pre +:+ String sep post)).
    cbn [SplitN2]. destruct (Ascii.eqb_spec c sep) as [->|Hne].
    + exfalso. apply Hno. apply GoStringFacts.InStr_cons. auto.
    + rewrite IH; [reflexivity|]. intros Hin. apply Hno.
      apply GoStringFacts.InStr_cons. auto.
Qed.

Lemma append_assoc (a b c : string) : (a +:+ b) +:+ c = a +:+ (b +:+ c).
Proof.
  induction a as [|x a IH]; [reflexivity|].
  change (String x ((a +:+ b) +:+ c) = String x (a +:+ (b +:+ c))).
  rewrite IH. reflexivity.
Qed.

(** The SSH form [user@host:path]. *)
Lemma extractHost_ssh `{GoLib} (user host path : string) :
  ~ InStr "@" user -> ~ InStr ":" host ->
  Contains (user +:+ "@" +:+ host +:+ ":" +:+ path) "://" = false ->
  extractHost (user +:+ "@" +:+ host +:+ ":" +:+ path) = host.
Proof.
  intros Hu Hh Hscheme. unfold extractHost. rewrite Hscheme.
  assert (Hat : Contains (user +:+ "@" +:+ host +:+ ":" +:+ path) "@" = true).
  { apply GoStringFacts.Contains_substring. eexists _, _. reflexivity. }
  assert (Hcolon : Contains (user +:+ "@" +:+ host +:+ ":" +:+ path) ":" = true).
  { apply GoStringFacts.Contains_substring.
    exists (user +:+ "@" +:+ host), path.
    rewrite !append_assoc. reflexivity. }
  rewrite Hat, Hcolon. cbn [andb negb].
  change (user +:+ "@" +:+ host +:+ ":" +:+ path)
    with (user +:+ String "@" (host +:+ String ":" path)).
  rewrite (SplitN2_cut user _ "@" Hu). cbn [nth].
  rewrite (SplitN2_cut host _ ":" Hh). reflexivity.
Qed.

(** The URL form: whatever contains [://] is left to the URL parser. *)
Lemma extractHost_url `{GoLib} (repo : string) :
  Contains repo "://" = true ->
  extractHost repo = match url_Parse repo with
                     | Some u => Hostname u
                     | None => ""
                     end.
Proof.
  intros Hs. unfold extractHost. rewrite Hs, !andb_false_r.
  destruct (url_Parse repo); reflexivity.
Qed.

(** C6 (as the code has it). [ensureHostKeys] does nothing when strict
    checking is disabled (whatever the remote URL is); with strict checking it
    returns an error when no host can be read off the remote URL, and else it
    reads the store: if the host is listed it does nothing more and succeeds,
    otherwise it scans the host's keys and, when every step succeeds, the
    store is the old store with the scan's output appended.
    [refreshHostKeys] returns an error when no host can be read off the
    remote URL; else it scans the host without looking at the store and, when
    every step succeeds, the store is exactly the scan's output.
    [extractHost] finds the host of [user@host:path] and hands
    [scheme://host/path] to the URL parser. *)
Theorem host_keys_spec `{GoLib} (cfg : Config) (w : World) :
  let host := extractHost (GitRepo cfg) in
  let ens := ensureHostKeys cfg w in
  let ref := refreshHostKeys cfg w in
  (SSHInsecure cfg = true -> ens = (None, w)) /\
  (SSHInsecure cfg = false -> host = "" -> ens = (no_host cfg, w)) /\
  (SSHInsecure cfg = false -> host <> "" ->
   exists r0 rest,
     history (snd ens) = (history w ++ (ReadFile knownHostsPath, r0) :: rest)%list /\
     (forall data, r0 = Ok data -> files w !! knownHostsPath = Some data) /\
     (listed host r0 = true ->
      rest = [] /\ fst ens = None /\ files (snd ens) = files w) /\
     (listed host r0 = false ->
      exists r rest', rest = (Keyscan host, r) :: rest' /\
        (fst ens = None <-> all_ok rest = true) /\
        (fst ens = None ->
         exists keys, r = Ok keys /\
                      files (snd ens) = store_appended (files w) keys))) /\
  (host = "" -> ref = (no_host cfg, w)) /\
  (host <> "" ->
   exists r rest,
     history (snd ref) = (history w ++ (Keyscan host, r) :: rest)%list /\
     (fst ref = None <-> all_ok ((Keyscan host, r) :: rest) = true) /\
     (fst ref = None ->
      exists keys, r = Ok keys /\ files (snd ref) = store_replaced (files w) keys)) /\
  (forall user h path,
     GitRepo cfg = user +:+ "@" +:+ h +:+ ":" +:+ path ->
     ~ InStr "@" user -> ~ InStr ":" h -> Contains (GitRepo cfg) "://" = false ->
     host = h) /\
  (Contains (GitRepo cfg) "://" = true ->
   host = match url_Parse (GitRepo cfg) with
          | Some u => Hostname u
          | None => ""
          end).
Proof.
  cbv zeta. split; [|split; [|split; [|split; [|split; [|split]]]]].
  - intros Hi. unfold ensureHostKeys. rewrite Hi. reflexivity.
  - intros Hs Hh. unfold ensureHostKeys. rewrite Hs, Hh. reflexivity.
  - intros Hs Hh. unfold ensureHostKeys. rewrite Hs.
    destruct (String.eqb_spec (extractHost (GitRepo cfg)) ""); [congruence|].
    rewrite bind_eq.
    destruct (hostInKnownHosts_spec (extractHost (GitRepo cfg)) w)
      as (r0 & -> & Hdata).
    destruct (listed (extractHost (GitRepo cfg)) r0) eqn:Hl.
    + rewrite mret_eq. exists r0, []. norm_history.
      split; [reflexivity|]. split; [exact Hdata|].
      split; [intros _; auto | intros Hn; congruence].
    + set (w1 := logged w _ _ _).
      destruct (scanAndAppendHostKeys_spec (extractHost (GitRepo cfg)) w1)
        as (r & rest & Hhist & Hok & Happ & _ & _).
      exists r0, ((Keyscan (extractHost (GitRepo cfg)), r) :: rest).
      split; [rewrite Hhist; unfold w1; norm_history; reflexivity|].
      split; [exact Hdata|]. split; [intros Hn; congruence|]. intros _.
      exists r, rest. split; [reflexivity|]. split; [exact Hok|exact Happ].
  - apply refreshHostKeys_no_host.
  - intros Hh. rewrite (refreshHostKeys_host cfg w Hh).
    destruct (scanAndWriteHostKeys_spec (extractHost (GitRepo cfg)) w)
      as (r & rest & Hhist & Hok & Hrep & _).
    exists r, rest. auto.
  - intros user h path -> Hu Hhh Hs. apply extractHost_ssh; assumption.
  - apply extractHost_url.
Qed.

End HostKeyFacts.

(** ** Repository synchronizer: clone *)

Module CloneFacts.
Import GoString Sys Git GitSpec GitFacts HostKeyFacts.

Lemma perform_RemoveAll (p : string) (w : World) :
  exists fs,
    perform (RemoveAll p) w =
    (env w (history w) (RemoveAll p),
     logged w fs (RemoveAll p) (env w (history w) (RemoveAll p))).
Proof.
  unfold perform. destruct (env w (history w) (RemoveAll p)); cbn [effect];
    eexists; reflexivity.
Qed.

Lemma count_action_app (a : Action) (l1 l2 : list Event) :
  count_action a (l1 ++ l2) = (count_action a l1 + count_action a l2)%nat.
Proof. unfold count_action. rewrite List.filter_app, length_app. reflexivity. Qed.

Lemma count_action_cons (a : Action) (e : Event) (l : list Event) :
  count_action a (e :: l) =
  ((if is_action a e then 1 else 0) + count_action a l)%nat.
Proof. unfold count_action. cbn [List.filter]. destruct (is_action a e); reflexivity. Qed.

Lemma count_action_nil (a : Action) : count_action a [] = 0%nat.
Proof. reflexivity. Qed.

Lemma Clone_finish_failed (cfg : Config) (e : string) (w : World) :
  Clone_finish cfg (Some e) w = (wrap_err "git clone" e, w).
Proof. reflexivity. Qed.

Lemma Clone_finish_trace (cfg : Config) (w : World) :
  exists tr,
    history (snd (Clone_finish cfg None w)) = (history w ++ tr)%list /\
    identity_trace cfg tr (fst (Clone_finish cfg None w)).
Proof.
  unfold Clone_finish. rewrite bind_eq, run_eq. cbv beta iota zeta.
  destruct (env w (history w) _) as [o1|e] eqn:E1; cbn [error_of].
  2:{ rewrite mret_eq. eexists. norm_history. split; [reflexivity|constructor]. }
  set (w1 := logged w _ _ _).
  rewrite bind_eq, run_eq. cbv beta iota zeta.
  destruct (env w1 (history w1) _) as [o2|e] eqn:E2; cbn [error_of];
    rewrite mret_eq; eexists; unfold w1; norm_history;
    (split; [reflexivity|constructor]).
Qed.

Lemma identity_trace_no_clone (cfg : Config) (tr : list Event) (err : error) :
  identity_trace cfg tr err -> count_action (clone cfg) tr = 0%nat.
Proof.
  destruct 1; repeat progress
    (rewrite ?count_action_cons, ?count_action_nil,
       ?is_action_other by discriminate); reflexivity.
Qed.

Lemma identity_trace_done (cfg : Config) (tr : list Event) (err : error) :
  identity_trace cfg tr err -> err = None ->
  exists o1 o2, tr = [(config_email cfg, Ok o1); (config_name cfg, Ok o2)].
Proof. destruct 1; try discriminate. eauto. Qed.

Ltac count_clones :=
  repeat progress
    (rewrite ?count_action_app, ?count_action_cons, ?count_action_nil,
       ?is_action_same, ?is_action_other by discriminate).

Lemma refresh_trace_no_clone `{GoLib} (cfg : Config) (rtr : list Event) (ok : bool) :
  refresh_trace cfg rtr ok -> count_action (clone cfg) rtr = 0%nat.
Proof. destruct 1; count_clones; reflexivity. Qed.

(** Following the protocol, [git clone] is run at most twice. *)
Lemma clone_protocol_count `{GoLib} (cfg : Config) (tr : list Event) (err : error) :
  clone_protocol cfg tr err -> (count_action (clone cfg) tr <= 2)%nat.
Proof.
  destruct 1;
    repeat match goal with
    | Hi : identity_trace _ _ _ |- _ => apply identity_trace_no_clone in Hi
    | Hr : refresh_trace _ _ _ |- _ => apply refresh_trace_no_clone in Hr
    end;
    count_clones; lia.
Qed.

(** A successful [Clone] has pulled an existing working copy, or has cloned
    and then set the commit identity. *)
Lemma clone_protocol_success `{GoLib} (cfg : Config) (tr : list Event) (err : error) :
  clone_protocol cfg tr err -> err = None ->
  (exists o1 o2, tr = [(Stat git_dir, Ok o1); (pull cfg, Ok o2)]) \/
  (exists tr0 o1 o2 o3,
     tr = (tr0 ++ [(clone cfg, Ok o1); (config_email cfg, Ok o2);
                   (config_name cfg, Ok o3)])%list).
Proof.
  destruct 1 as [o r| | e0 o1 o2 tr err Hid | | | | |
                 | e0 o1 e rtr o3 o4 o5 tr err Hs Hr Hid];
    intros Herr; try discriminate Herr.
  - left. destruct r; [eauto | discriminate].
  - right. destruct (identity_trace_done _ _ _ Hid Herr) as (a & b & ->).
    exists [(Stat git_dir, Err e0); (MkdirAll repoDir, Ok o1)], o2, a, b.
    reflexivity.
  - right. destruct (identity_trace_done _ _ _ Hid Herr) as (a & b & ->).
    exists ((Stat git_dir, Err e0) :: (MkdirAll repoDir, Ok o1) :: (clone cfg, Err e)
            :: rtr ++ [(RemoveAll repoDir, Ok o3); (MkdirAll repoDir, Ok o4)])%list,
      o5, a, b.
    cbn [app]. rewrite <- !app_assoc. reflexivity.
Qed.

(** [Clone] follows the protocol, after the bootstrap of the host keys. *)
Lemma Clone_follows_protocol `{GoLib} (cfg : Config) (w : World) :
  exists pre tr,
    history (snd (Clone cfg w)) = (history w ++ pre ++ tr)%list /\
    history (snd (ensureHostKeys cfg w)) = (history w ++ pre)%list /\
    count_action (clone cfg) pre = 0%nat /\
    clone_protocol cfg tr (fst (Clone cfg w)).
Proof.
  destruct (ensureHostKeys_trace cfg w) as (pre & Hpre & Hcount).
  exists pre. unfold Clone. rewrite bind_eq.
  destruct (ensureHostKeys cfg w) as [e0 w0]. cbn [snd] in Hpre.
  rewrite bind_eq, perform_plain by reflexivity.
  fold git_dir.
  assert (Hgoal : forall (out : error * World) tr,
    history (snd out) = (history w0 ++ tr)%list ->
    clone_protocol cfg tr (fst out) ->
    exists tr0, history (snd out) = (history w ++ pre ++ tr0)%list /\
      history w0 = (history w ++ pre)%list /\
      count_action (clone cfg) pre = 0%nat /\ clone_protocol cfg tr0 (fst out)).
  { intros out tr Hh Hp. exists tr. rewrite Hh, Hpre, <- app_assoc. auto. }
  destruct (env w0 (history w0) (Stat git_dir)) as [o|es] eqn:Est; cbn [is_ok].
  { (* the working copy exists *)
    unfold pullLocked. rewrite run_eq. cbv zeta.
    eapply Hgoal; [norm_history; reflexivity | apply cp_pull]. }
  set (w1 := logged w0 _ _ _).
  rewrite bind_eq, perform_plain by reflexivity.
  destruct (env w1 (history w1) (MkdirAll repoDir)) as [o1|e] eqn:Emk;
    cbv beta iota zeta.
  2:{ rewrite mret_eq. eapply Hgoal; [unfold w1; norm_history; reflexivity|].
      apply cp_mkdir_failed. }
  set (w2 := logged w1 _ _ _).
  rewrite bind_eq, run_eq. cbv beta iota zeta. fold (clone cfg).
  destruct (env w2 (history w2) (clone cfg)) as [o2|e] eqn:Ecl; cbn [error_of].
  { (* cloned at once *)
    set (w3 := logged w2 _ _ _).
    destruct (Clone_finish_trace cfg w3) as (tr & Hh & Hid).
    eapply Hgoal; [rewrite Hh; unfold w3, w2, w1; norm_history; reflexivity|].
    apply cp_cloned. exact Hid. }
  set (w3 := logged w2 _ _ _).
  destruct (SSHInsecure cfg) eqn:Hs; cbn [negb].
  { rewrite Clone_finish_failed.
    eapply Hgoal; [unfold w3, w2, w1; norm_history; reflexivity|].
    apply cp_failed_insecure. exact Hs. }
  rewrite bind_eq.
  destruct (refreshHostKeys_trace cfg w3) as (rtr & Hrh & Hrt).
  destruct (refreshHostKeys cfg w3) as [scanErr w4]. cbn [fst snd] in Hrh, Hrt.
  destruct scanErr as [se|].
  { rewrite mret_eq.
    eapply Hgoal; [cbn [snd]; rewrite Hrh; unfold w3, w2, w1; norm_history;
                   reflexivity|].
    apply cp_refresh_failed; assumption. }
  rewrite bind_eq. destruct (perform_RemoveAll repoDir w4) as (fs & ->).
  destruct (env w4 (history w4) (RemoveAll repoDir)) as [o3|e'] eqn:Erm;
    cbv beta iota zeta.
  2:{ rewrite mret_eq.
      eapply Hgoal; [cbn [snd]; norm_history; rewrite Hrh; unfold w3, w2, w1;
                     norm_history; reflexivity|].
      apply cp_remove_failed; assumption. }
  set (w5 := logged w4 _ _ _).
  rewrite bind_eq, perform_plain by reflexivity.
  destruct (env w5 (history w5) (MkdirAll repoDir)) as [o4|e'] eqn:Emk2;
    cbv beta iota zeta.
  2:{ rewrite mret_eq.
      eapply Hgoal; [cbn [snd]; unfold w5; norm_history; rewrite Hrh;
                     unfold w3, w2, w1; norm_history; reflexivity|].
      apply cp_mkdir_again_failed; assumption. }
  set (w6 := logged w5 _ _ _).
  rewrite bind_eq, run_eq. cbv beta iota zeta. fold (clone cfg).
  destruct (env w6 (history w6) (clone cfg)) as [o5|e'] eqn:Ecl2; cbn [error_of].
  2:{ rewrite Clone_finish_failed.
      eapply Hgoal; [cbn [snd]; unfold w6, w5; norm_history; rewrite Hrh;
                     unfold w3, w2, w1; norm_history; reflexivity|].
      apply cp_retry_failed; assumption. }
  set (w7 := logged w6 _ _ _).
  destruct (Clone_finish_trace cfg w7) as (tr & Hh & Hid).
  eapply Hgoal; [rewrite Hh; unfold w7, w6, w5; norm_history; rewrite Hrh;
                 unfold w3, w2, w1; norm_history; reflexivity|].
  apply cp_retry_cloned; assumption.
Qed.

(** *** What [Clone] does to the files *)

Lemma tracked_ret {A} (a : A) : tracked (mret a : M A).
Proof. intros w. exists []. rewrite mret_eq, app_nil_r. split; reflexivity. Qed.

Lemma tracked_perform (a : Action) : tracked (perform a).
Proof.
  intros w. unfold perform.
  destruct (env w (history w) a) as [out|e] eqn:E; cbn [effect].
  - destruct a; try (eexists [_]; split; reflexivity).
    destruct (files w !! path); eexists [_]; split; reflexivity.
  - eexists [_]. split; reflexivity.
Qed.

Lemma replay_app (fs : gmap string string) (l1 l2 : list Event) :
  replay fs (l1 ++ l2) = replay (replay fs l1) l2.
Proof. apply fold_left_app. Qed.

Lemma tracked_bind {A B} (m : M A) (k : A -> M B) :
  tracked m -> (forall a, tracked (k a)) -> tracked (m ≫= k).
Proof.
  intros Hm Hk w. rewrite bind_eq. destruct (Hm w) as (tr1 & Hh1 & Hf1).
  destruct (m w) as [a w1]. cbn [snd] in Hh1, Hf1.
  destruct (Hk a w1) as (tr2 & Hh2 & Hf2).
  exists (tr1 ++ tr2)%list. rewrite Hh2, Hf2, Hh1, Hf1, replay_app, app_assoc.
  split; reflexivity.
Qed.

Ltac track :=
  cbv zeta;
  repeat first
    [ apply tracked_ret
    | apply tracked_perform
    | apply tracked_bind
    | match goal with
      | |- forall _, _ => intro
      | |- tracked (match ?x with _ => _ end) => destruct x
      | |- tracked (if ?b then _ else _) => destruct b
      end ].

Lemma Clone_tracked `{GoLib} (cfg : Config) : tracked (Clone cfg).
Proof.
  unfold Clone, ensureHostKeys, refreshHostKeys, hostInKnownHosts,
    scanAndAppendHostKeys, scanAndWriteHostKeys, scanHostKeys, Clone_finish,
    pullLocked, run.
  track.
Qed.

(** Git commands leave the files as they are. *)
Lemma replay_identity (cfg : Config) (tr : list Event) (err : error)
    (fs : gmap string string) :
  identity_trace cfg tr err -> replay fs tr = fs.
Proof. destruct 1; reflexivity. Qed.

(** The store is not in the working copy. *)
Lemma store_outlives_removal (fs : gmap string string) (keys : string) :
  filter (fun kv : string * string => under repoDir (fst kv) = false)
    (<[knownHostsPath := keys]> fs) !! knownHostsPath = Some keys.
Proof.
  apply map_lookup_filter_Some. split; [apply lookup_insert_eq | reflexivity].
Qed.

(** A second clone is run only after the refresh of the host keys and the
    removal of the partial directory; the store then holds the keys that were
    scanned, and nothing else. *)
Lemma clone_protocol_retry `{GoLib} (cfg : Config) (tr : list Event) (err : error)
    (fs : gmap string string) :
  clone_protocol cfg tr err -> count_action (clone cfg) tr = 2%nat ->
  SSHInsecure cfg = false /\
  exists e0 o1 e keys o2 o3 o4 o5 r rest,
    tr = (Stat git_dir, Err e0) :: (MkdirAll repoDir, Ok o1) :: (clone cfg, Err e)
         :: (Keyscan (extractHost (GitRepo cfg)), Ok keys)
         :: (MkdirAll ssh_dir, Ok o2) :: (WriteFile knownHostsPath keys, Ok o3)
         :: (RemoveAll repoDir, Ok o4) :: (MkdirAll repoDir, Ok o5)
         :: (clone cfg, r) :: rest /\
    count_action (clone cfg) rest = 0%nat /\
    replay fs tr !! knownHostsPath = Some keys.
Proof.
  destruct 1 as [o r| e0 e | e0 o1 o2 itr err Hi | e0 o1 e Hs
                | e0 o1 e rtr Hs Hr | e0 o1 e rtr e' Hs Hr
                | e0 o1 e rtr o3 e' Hs Hr
                | e0 o1 e rtr o3 o4 e' Hs Hr
                | e0 o1 e rtr o3 o4 o5 itr err Hs Hr Hi];
    try pose proof (identity_trace_no_clone _ _ _ Hi) as Hic;
    try pose proof (refresh_trace_no_clone _ _ _ Hr) as Hrc;
    count_clones; intros Hcount; try lia.
  - (* the retry failed *)
    split; [exact Hs|]. inversion Hr as [| | | |keys q1 q2 Hh]; subst.
    exists e0, o1, e, keys, q1, q2, o3, o4, (Err e'), [].
    split; [reflexivity|]. split; [reflexivity|].
    cbn [app replay fold_left replay_event fst snd]. apply store_outlives_removal.
  - (* the retry succeeded *)
    split; [exact Hs|]. inversion Hr as [| | | |keys q1 q2 Hh]; subst.
    exists e0, o1, e, keys, q1, q2, o3, o4, (Ok o5), itr.
    split; [reflexivity|]. split; [apply (identity_trace_no_clone _ _ _ Hi)|].
    cbn [app]. change (?a :: ?b :: ?c :: ?d :: ?e1 :: ?f :: ?g :: ?h :: ?i :: itr)
      with ([a; b; c; d; e1; f; g; h; i] ++ itr)%list.
    rewrite replay_app, (replay_identity cfg itr err _ Hi).
    cbn [replay fold_left replay_event fst snd]. apply store_outlives_removal.
Qed.

(** C5. After the bootstrap of the host keys, [Clone] follows the protocol:
    when a working copy exists it pulls and returns the pull's result, without
    cloning; otherwise (the working directory created) it runs the
    single-branch clone of the configured branch; if that fails and strict
    host checking is enabled it refreshes the host keys (it scans the host of
    the remote and writes the store anew with the output of the scan), removes
    and recreates the directory and runs the clone once more; it returns an
    error when the refresh or the retry fails; after a clone that succeeded it
    sets the commit identity.  [git clone] is never run more than twice, and
    it is run a second time only after the keys were scanned, the store
    replaced and the directory removed; when [Clone] then returns, the store
    holds the scanned keys and nothing else.  [Clone] returns success only
    after a successful pull of the existing copy, or after a successful clone
    followed by both identity settings. *)
Theorem Clone_spec `{GoLib} (cfg : Config) (w : World) :
  let out := Clone cfg w in
  exists pre tr,
    history (snd out) = (history w ++ pre ++ tr)%list /\
    history (snd (ensureHostKeys cfg w)) = (history w ++ pre)%list /\
    clone_protocol cfg tr (fst out) /\
    (count_action (clone cfg) (pre ++ tr) <= 2)%nat /\
    (forall o, tr !! 0%nat = Some (Stat git_dir, Ok o) ->
       count_action (clone cfg) (pre ++ tr) = 0%nat /\
       exists r, tr = [(Stat git_dir, Ok o); (pull cfg, r)] /\ fst out = error_of r) /\
    (forall e o, tr !! 0%nat = Some (Stat git_dir, Err e) ->
       tr !! 1%nat = Some (MkdirAll repoDir, Ok o) ->
       exists r, tr !! 2%nat =
         Some (git cfg "/app" ["clone"; "--branch"; Branch cfg; "--single-branch";
                               GitRepo cfg; repoDir], r)) /\
    (fst out = None ->
       (exists o1 o2, tr = [(Stat git_dir, Ok o1); (pull cfg, Ok o2)]) \/
       (exists tr0 o1 o2 o3,
          tr = (tr0 ++ [(clone cfg, Ok o1); (config_email cfg, Ok o2);
                        (config_name cfg, Ok o3)])%list)) /\
    (count_action (clone cfg) (pre ++ tr) = 2%nat ->
       SSHInsecure cfg = false /\
       exists e0 o1 e keys o2 o3 o4 o5 r rest,
         tr = (Stat git_dir, Err e0) :: (MkdirAll repoDir, Ok o1) :: (clone cfg, Err e)
              :: (Keyscan (extractHost (GitRepo cfg)), Ok keys)
              :: (MkdirAll ssh_dir, Ok o2) :: (WriteFile knownHostsPath keys, Ok o3)
              :: (RemoveAll repoDir, Ok o4) :: (MkdirAll repoDir, Ok o5)
              :: (clone cfg, r) :: rest /\
         count_action (clone cfg) rest = 0%nat /\
         files (snd out) !! knownHostsPath = Some keys).
Proof.
  cbv zeta.
  destruct (Clone_follows_protocol cfg w) as (pre & tr & Hh & Hpre & Hc & Hp).
  exists pre, tr. split; [exact Hh|]. split; [exact Hpre|]. split; [exact Hp|].
  pose proof (clone_protocol_count cfg tr _ Hp) as Hle.
  split; [rewrite count_action_app; lia|].
  split; [|split; [|split]].
  - intros o Ho. rewrite count_action_app, Hc.
    inversion Hp; subst; try discriminate Ho.
    injection Ho as <-. split; [|eauto].
    count_clones. reflexivity.
  - intros e o H0 H1.
    inversion Hp; subst; try discriminate H0; try discriminate H1;
      eexists; reflexivity.
  - apply (clone_protocol_success cfg tr _ Hp).
  - rewrite count_action_app, Hc. cbn [Nat.add]. intros Htwo.
    destruct (Clone_tracked cfg w) as (all & Hall & Hfiles).
    rewrite Hh in Hall. apply app_inv_head in Hall. subst all.
    rewrite replay_app in Hfiles.
    destruct (clone_protocol_retry cfg tr _ (replay (files w) pre) Hp Htwo)
      as (Hs & e0 & o1 & e & keys & o2 & o3 & o4 & o5 & r & rest & Htr & Hrest & Hstore).
    split; [exact Hs|].
    exists e0, o1, e, keys, o2, o3, o4, o5, r, rest.
    split; [exact Htr|]. split; [exact Hrest|]. rewrite Hfiles. exact Hstore.
Qed.

End CloneFacts.

(** ** Comment writer *)

Module WriterFacts.
Import GoString GoFmt Sys Git GitSpec GitFacts HostKeyFacts Handler.

Lemma hex_length (b : string) : String.length (hex b) = (2 * String.length b)%nat.
Proof. induction b as [|c b IH]; cbn [hex String.length]; lia. Qed.

Lemma fit_length (n : nat) (s : string) : String.length (fit n s) = n.
Proof.
  revert s. induction n as [|n IH]; intros s; [reflexivity|].
  destruct s; cbn [fit String.length]; rewrite IH; reflexivity.
Qed.

Lemma append_length (a b : string) :
  String.length (a +:+ b) = (String.length a + String.length b)%nat.
Proof.
  induction a as [|c a IH]; [reflexivity|].
  change (String c a +:+ b) with (String c (a +:+ b)).
  cbn [String.length]. rewrite IH. reflexivity.
Qed.

(** The stamp of a file name has fourteen characters. *)
Lemma format_compact_length (t : UTCTime) :
  String.length (format_compact t) = 14%nat.
Proof.
  unfold format_compact, pad4. rewrite !append_length. reflexivity.
Qed.

(** C7 (as the code has it). When [writeComment] succeeds it has created the
    directory [<comments-root>/<slug>] in the repository, drawn 4 random
    bytes, and written the serialized record to the file
    [<stamp>-<8 hex digits>.yml] of that directory, where the stamp is the
    UTC time to the second; it returns that path relative to the repository
    root.  The file is written with [os.WriteFile]: afterwards the file holds
    the record whatever it held before, so a record of the same name is
    replaced and no error is reported.  The call succeeds exactly when the
    record can be serialized and each of its actions succeeds. *)
Theorem writeComment_spec `{GoLib} (cfg : Config) (now : UTCTime) (c : Comment)
    (w : World) :
  let out := writeComment cfg now c w in
  let dir := filepath_Join (CommentsPath cfg) (Slug c) in
  (forall relPath, fst out = (relPath, None) ->
   exists b data o1 o3,
     relPath = filepath_Join dir
                 (format_compact now +:+ "-" +:+ hex (fit 4 b) +:+ ".yml") /\
     String.length (format_compact now) = 14%nat /\
     String.length (hex (fit 4 b)) = 8%nat /\
     yaml_Marshal c = Some data /\
     history (snd out) =
       (history w ++ [(MkdirAll (FullPath dir), Ok o1); (RandRead 4, Ok b);
                      (WriteFile (FullPath relPath) data, Ok o3)])%list /\
     files (snd out) = <[FullPath relPath := data]> (files w)) /\
  (exists tr,
     history (snd out) = (history w ++ tr)%list /\
     (snd (fst out) = None <->
      all_ok tr = true /\ is_Some (yaml_Marshal c))) /\
  (snd (fst out) <> None -> fst (fst out) = "").
Proof.
  cbv zeta. unfold writeComment, randomHex.
  rewrite bind_eq, perform_plain by reflexivity.
  destruct (env w (history w) _) as [o1|e] eqn:E1; cbv beta iota zeta.
  2:{ rewrite mret_eq. cbn [fst snd]. split; [discriminate|]. split; [|reflexivity].
      eexists. norm_history. split; [reflexivity|]. cbn.
      split; [discriminate | intros [? _]; discriminate]. }
  set (w1 := logged w _ _ _).
  rewrite !bind_eq, perform_plain by reflexivity.
  destruct (env w1 (history w1) (RandRead 4)) as [b|e] eqn:E2;
    rewrite mret_eq; cbv beta iota zeta; cbn [fst snd].
  2:{ rewrite mret_eq. cbn [fst snd]. split; [discriminate|]. split; [|reflexivity].
      eexists. unfold w1. norm_history. split; [reflexivity|]. cbn.
      split; [discriminate | intros [? _]; discriminate]. }
  set (w2 := logged w1 _ _ _).
  destruct (yaml_Marshal c) as [data|] eqn:Ey.
  2:{ rewrite mret_eq. cbn [fst snd]. split; [discriminate|]. split; [|reflexivity].
      eexists. unfold w2, w1. norm_history. split; [reflexivity|].
      split; [discriminate | intros [_ [x Hx]]; discriminate]. }
  rewrite bind_eq, perform_WriteFile. cbv beta iota zeta.
  destruct (env w2 (history w2) _) as [o3|e] eqn:E3; cbv beta iota zeta;
    rewrite mret_eq; cbn [fst snd is_ok].
  2:{ split; [discriminate|]. split; [|reflexivity].
      eexists. unfold w2, w1. norm_history. split; [reflexivity|]. cbn.
      split; [discriminate | intros [? _]; discriminate]. }
  split; [|split].
  - intros relPath [= <-]. exists b, data, o1, o3.
    split; [reflexivity|]. split; [apply format_compact_length|].
    split; [rewrite hex_length, fit_length; reflexivity|].
    split; [reflexivity|]. unfold w2, w1. norm_history. auto.
  - eexists. unfold w2, w1. norm_history. split; [reflexivity|]. cbn.
    split; [intros _; split; [reflexivity | eexists; reflexivity] | reflexivity].
  - intros Hn. congruence.
Qed.

End WriterFacts.

(** ** Comment handler *)

Module HandlerFacts.
Import GoString GoFmt Http Sys Git GitSpec GitFacts Handler SlugCheck.
Import SpamFacts.

Lemma allowed_In (cfg : Config) (origin : string) :
  allowed cfg origin = true <-> In origin (AllowedOrigins cfg).
Proof.
  unfold allowed. rewrite existsb_exists. split.
  - intros (a & Ha & Heq). apply String.eqb_eq in Heq. congruence.
  - intros Hin. exists origin. split; [exact Hin | apply String.eqb_refl].
Qed.

(** [checkOrigin] accepts exactly the requests whose origin is an entry of the
    allow-list. *)
Lemma checkOrigin_spec `{GoLib} (cfg : Config) (r : Request) :
  checkOrigin cfg r = true <-> in_allow_list cfg (request_origin r).
Proof.
  unfold checkOrigin, request_origin, in_allow_list.
  destruct (String.eqb (Header_Get r "Origin") ""); cbn [negb].
  - destruct (String.eqb (Header_Get r "Referer") "").
    + split; [discriminate | intros (a & Ha & _); discriminate].
    + destruct (url_Parse (Header_Get r "Referer")) as [u|].
      * rewrite allowed_In. split; [eauto | intros (a & [= <-] & Hin); exact Hin].
      * split; [discriminate | intros (a & Ha & _); discriminate].
  - rewrite allowed_In. split; [eauto | intros (a & [= <-] & Hin); exact Hin].
Qed.

(** [isAllowedRedirect] accepts exactly the URLs whose scheme and host are an
    entry of the allow-list. *)
Lemma isAllowedRedirect_spec `{GoLib} (cfg : Config) (rawURL : string) :
  isAllowedRedirect cfg rawURL = true <-> in_allow_list cfg (url_origin rawURL).
Proof.
  unfold isAllowedRedirect, url_origin, in_allow_list.
  destruct (url_Parse rawURL) as [u|].
  - rewrite allowed_In. split; [eauto | intros (a & [= <-] & Hin); exact Hin].
  - split; [discriminate | intros (a & Ha & _); discriminate].
Qed.

Lemma errorRedirect_empty `{GoLib} (msg : string) :
  errorRedirect "" msg = HttpError msg StatusBadRequest.
Proof. reflexivity. Qed.

(** C4 (as the code has it). A POST request whose origin ([Origin] header,
    else scheme and host of the [Referer]) is no entry of the allow-list is
    answered with 403 and a plain-text body.  A POST request that passes the
    origin check, whose form parses and whose redirect URL is not empty once
    trimmed and has a scheme and host that are no entry of the allow-list, is
    answered with 403 and a plain-text body, whatever the other fields are.
    In no case does a request whose origin or whose redirect URL is not
    allowed get a redirect. *)
Theorem ServeHTTP_forbidden `{GoLib} (cfg : Config) (tDate tFile : UTCTime)
    (r : Request) (w : World) :
  Method r = "POST" ->
  let redirectURL := TrimSpace (FormValue r "url") in
  (~ in_allow_list cfg (request_origin r) ->
   ServeHTTP cfg tDate tFile r w =
     (HttpError "Forbidden: origin not allowed" StatusForbidden, w)) /\
  (in_allow_list cfg (request_origin r) -> ParseFormErr r = false ->
   redirectURL <> "" -> ~ in_allow_list cfg (url_origin redirectURL) ->
   ServeHTTP cfg tDate tFile r w =
     (HttpError "Forbidden: redirect URL origin not allowed" StatusForbidden, w)) /\
  (~ in_allow_list cfg (request_origin r) \/
   ~ in_allow_list cfg (url_origin redirectURL) ->
   is_redirect (fst (ServeHTTP cfg tDate tFile r w)) = false /\
   snd (ServeHTTP cfg tDate tFile r w) = w).
Proof.
  intros Hpost redirectURL.
  assert (Horigin : ~ in_allow_list cfg (request_origin r) ->
    ServeHTTP cfg tDate tFile r w =
      (HttpError "Forbidden: origin not allowed" StatusForbidden, w)).
  { intros Hno. unfold ServeHTTP. rewrite Hpost, String.eqb_refl. cbn [negb].
    destruct (checkOrigin cfg r) eqn:Hc; [|reflexivity].
    apply checkOrigin_spec in Hc. contradiction. }
  assert (Hredirect : checkOrigin cfg r = true -> ParseFormErr r = false ->
    redirectURL <> "" -> isAllowedRedirect cfg redirectURL = false ->
    ServeHTTP cfg tDate tFile r w =
      (HttpError "Forbidden: redirect URL origin not allowed" StatusForbidden, w)).
  { intros Hc Hparse Hne Hno. unfold ServeHTTP. rewrite Hpost, String.eqb_refl.
    cbn [negb]. rewrite Hc, Hparse. cbn [negb]. fold redirectURL.
    apply eqb_empty_false in Hne. rewrite Hne, Hno. reflexivity. }
  split; [exact Horigin|]. split.
  - intros Hc Hparse Hne Hno. apply Hredirect; auto.
    + apply checkOrigin_spec. exact Hc.
    + destruct (isAllowedRedirect cfg redirectURL) eqn:Ha; [|reflexivity].
      apply isAllowedRedirect_spec in Ha. contradiction.
  - intros [Hno|Hno]; [rewrite (Horigin Hno); auto|].
    destruct (checkOrigin cfg r) eqn:Hc.
    2:{ rewrite Horigin; [auto|]. intros Hin. apply checkOrigin_spec in Hin.
        congruence. }
    assert (Ha : isAllowedRedirect cfg redirectURL = false).
    { destruct (isAllowedRedirect cfg redirectURL) eqn:Ha; [|reflexivity].
      apply isAllowedRedirect_spec in Ha. contradiction. }
    destruct (ParseFormErr r) eqn:Hparse.
    { unfold ServeHTTP. rewrite Hpost, String.eqb_refl. cbn [negb].
      rewrite Hc, Hparse. cbn [negb]. auto. }
    destruct (String.eqb_spec redirectURL "") as [He|Hne].
    + unfold ServeHTTP. rewrite Hpost, String.eqb_refl. cbn [negb].
      rewrite Hc, Hparse. cbn [negb]. fold redirectURL. rewrite He.
      cbn [String.eqb negb andb]. rewrite !orb_true_r.
      rewrite errorRedirect_empty. auto.
    + rewrite (Hredirect eq_refl eq_refl Hne Ha). auto.
Qed.

Lemma range_runes_from_length (skip : nat) (s : string) :
  (List.length (range_runes_from skip s) <= String.length s)%nat.
Proof.
  revert skip. induction s as [|c s IH]; intros skip; [cbn; lia|].
  cbn [range_runes_from]. destruct skip as [|k].
  - destruct (DecodeRuneInString (String c s)) as [rn size].
    cbn [List.length String.length]. specialize (IH (pred size)). lia.
  - cbn [String.length]. specialize (IH k). lia.
Qed.

(** A string has at most as many characters as bytes. *)
Lemma RuneCount_le_len (s : string) : Z.of_nat (RuneCountInString s) <= len s.
Proof.
  unfold RuneCountInString, range_runes, len.
  pose proof (range_runes_from_length 0 s). lia.
Qed.

Lemma errorRedirect_other `{GoLib} (redirectURL msg msg' : string) (u : URL) :
  msg <> msg' -> errorRedirect redirectURL msg <> RedirectError u msg'.
Proof.
  intros Hne. unfold errorRedirect.
  destruct (negb (String.eqb redirectURL "")); [|discriminate].
  destruct (url_Parse redirectURL); [congruence|discriminate].
Qed.

(** C8 (as the code has it). For a submission that has passed the earlier
    checks (a POST from an allowed origin, the form parsed, the redirect URL
    allowed, the required fields present): if the trimmed body is longer than
    10000 bytes, the answer is the see-other redirect to the redirect URL with
    [comment_error] set to [Comment body too long], and nothing else happens;
    this holds in particular for every body of more than 10000 characters.  A
    body of at most 10000 bytes is not rejected by this check. *)
Theorem ServeHTTP_body_length `{GoLib} (cfg : Config) (tDate tFile : UTCTime)
    (r : Request) (w : World) :
  let name := TrimSpace (FormValue r "name") in
  let body := TrimSpace (FormValue r "body") in
  let slug := TrimSpace (FormValue r "slug") in
  let redirectURL := TrimSpace (FormValue r "url") in
  Method r = "POST" -> checkOrigin cfg r = true -> ParseFormErr r = false ->
  isAllowedRedirect cfg redirectURL = true ->
  name <> "" -> body <> "" -> slug <> "" -> redirectURL <> "" ->
  (exists u, url_Parse redirectURL = Some u /\
     status (RedirectError u "Comment body too long") = 303 /\
     (defaultMaxBodyLen < len body ->
      ServeHTTP cfg tDate tFile r w = (RedirectError u "Comment body too long", w)) /\
     (defaultMaxBodyLen < Z.of_nat (RuneCountInString body) ->
      ServeHTTP cfg tDate tFile r w = (RedirectError u "Comment body too long", w))) /\
  (len body <= defaultMaxBodyLen ->
   forall u, fst (ServeHTTP cfg tDate tFile r w) <> RedirectError u "Comment body too long").
Proof.
  intros name body slug redirectURL Hpost Hc Hparse Ha Hname Hbody Hslug Hurl.
  apply eqb_empty_false in Hname, Hbody, Hslug, Hurl.
  assert (Hstart : ServeHTTP cfg tDate tFile r w =
    (if defaultMaxBodyLen <? len body then
       mret (errorRedirect redirectURL "Comment body too long")
     else if negb (isValidSlug slug) then
       mret (errorRedirect redirectURL "Invalid slug")
     else if negb (String.eqb (TrimSpace (FormValue r "reply_to")) "") &&
             negb (isValidSlug (TrimSpace (FormValue r "reply_to"))) then
       mret (errorRedirect redirectURL "Invalid reply_to")
     else
       found ← (if negb (String.eqb (PostsPath cfg) "") then postExists cfg slug
                else mret true);
       if negb found then mret (errorRedirect redirectURL "Post not found")
       else
         let comment := {| Name := name; Email := TrimSpace (FormValue r "email");
                           Body := body; Date := format_RFC3339 tDate;
                           Slug := slug;
                           ReplyTo := TrimSpace (FormValue r "reply_to") |} in
         written ← writeComment cfg tFile comment;
         match snd written with
         | Some _ => mret (errorRedirect redirectURL "Failed to save comment")
         | None =>
           err ← CommitAndPush cfg (fst written) slug;
           match err with
           | Some _ => mret (errorRedirect redirectURL "Failed to publish comment")
           | None =>
             match url_Parse redirectURL with
             | None => mret (HttpError "Bad redirect URL" StatusBadRequest)
             | Some u => mret (RedirectSubmitted u)
             end
           end
         end) w).
  { unfold ServeHTTP. rewrite Hpost, String.eqb_refl. cbn [negb].
    rewrite Hc, Hparse. cbn [negb]. fold name body slug redirectURL.
    rewrite Hurl, Ha, Hname, Hbody, Hslug. reflexivity. }
  assert (Hparsed : exists u, url_Parse redirectURL = Some u).
  { unfold isAllowedRedirect in Ha. destruct (url_Parse redirectURL); [eauto|discriminate]. }
  destruct Hparsed as [u Hu].
  assert (Hlong : defaultMaxBodyLen < len body ->
    ServeHTTP cfg tDate tFile r w = (RedirectError u "Comment body too long", w)).
  { intros Hl. rewrite Hstart. destruct (Z.ltb_spec defaultMaxBodyLen (len body)); [|lia].
    unfold errorRedirect. rewrite Hurl, Hu. reflexivity. }
  split.
  - exists u. split; [exact Hu|]. split; [reflexivity|]. split; [exact Hlong|].
    intros Hl. apply Hlong. pose proof (RuneCount_le_len body). lia.
  - intros Hl u'. rewrite Hstart.
    destruct (Z.ltb_spec defaultMaxBodyLen (len body)); [lia|].
    destruct (negb (isValidSlug slug));
      [apply errorRedirect_other; discriminate|].
    destruct (_ && _); [apply errorRedirect_other; discriminate|].
    rewrite bind_eq.
    destruct ((if negb (String.eqb (PostsPath cfg) "") then postExists cfg slug
               else mret true) w) as [found w1].
    destruct found; cbn [negb]; [|apply errorRedirect_other; discriminate].
    cbv zeta. rewrite bind_eq.
    destruct (writeComment cfg tFile _ w1) as [[relPath werr] w2]. cbn [fst snd].
    destruct werr; [apply errorRedirect_other; discriminate|].
    rewrite bind_eq.
    destruct (CommitAndPush cfg relPath slug w2) as [err w3].
    destruct err; [apply errorRedirect_other; discriminate|].
    rewrite Hu. discriminate.
Qed.

End HandlerFacts.

(** ** The program on examples *)

Module Examples.
Import GoString GoInt Http Spam Sys Git GitSpec Handler SimpleLib.

(** An equation between closed terms, checked by evaluating its left side. *)
Ltac compute_eq :=
  match goal with |- ?l = ?r => vm_cast_no_check (@eq_refl _ r) end.

Ltac by_evaluation :=
  cbv zeta; repeat apply conj; first [compute_eq | vm_compute; discriminate].

(** With strict checking disabled, [ensureHostKeys] returns no error for a
    remote (here a local path) that names no host; [refreshHostKeys] does. *)
Lemma host_keys_counterexample :
  let cfg := {| GitRepo := "/srv/git/site.git"; Branch := "main";
                CommentsPath := "_data/comments"; PostsPath := "";
                AllowedOrigins := ["https://example.com"];
                SSHKeyPath := "/app/.ssh/id_ed25519"; SSHInsecure := true |} in
  let w := SimpleLib.world (SimpleLib.always "") ∅ in
  extractHost (GitRepo cfg) = "" /\
  fst (ensureHostKeys cfg w) = None /\
  fst (refreshHostKeys cfg w) = no_host cfg.
Proof. by_evaluation. Qed.

(** The host of an SSH remote and of an HTTPS remote. *)
Example extractHost_forms :
  extractHost "git@github.com:you/your-site.git" = "github.com" /\
  extractHost "https://gitlab.com/you/your-site.git" = "gitlab.com".
Proof. by_evaluation. Qed.

(** A host that is not listed yet: its keys are appended to the store. *)
Example ensureHostKeys_appends :
  let w := SimpleLib.world (SimpleLib.always "github.com ssh-ed25519 AAAA")
             {[ knownHostsPath := "gitlab.com ssh-ed25519 BBBB" ]} in
  let out := ensureHostKeys SimpleLib.site w in
  fst out = None /\
  files (snd out) !! knownHostsPath =
    Some "gitlab.com ssh-ed25519 BBBBgithub.com ssh-ed25519 AAAA".
Proof. by_evaluation. Qed.

(** A refresh replaces the store. *)
Example refreshHostKeys_overwrites :
  let w := SimpleLib.world (SimpleLib.always "github.com ssh-ed25519 AAAA")
             {[ knownHostsPath := "github.com ssh-ed25519 STALE" ]} in
  let out := refreshHostKeys SimpleLib.site w in
  fst out = None /\
  files (snd out) !! knownHostsPath = Some "github.com ssh-ed25519 AAAA".
Proof. by_evaluation. Qed.

(** The push is refused once (the remote has moved), the pull-rebase passes
    and the second push succeeds: success, after two pushes. *)
Example CommitAndPush_second_attempt :
  let cfg := site in
  let w := world
             (scripted [Ok ""; Ok ""; Ok ""; Err "rejected"; Ok ""; Ok ""]) ∅ in
  let out := CommitAndPush cfg "_data/comments/my-post/c.yml" "my-post" w in
  fst out = None /\
  List.map fst (history (snd out)) =
    [pull cfg; git_add cfg "_data/comments/my-post/c.yml"; git_commit cfg "my-post";
     push cfg; pull cfg; push cfg].
Proof. by_evaluation. Qed.

(** Every push is refused: three pushes, then the error. *)
Example CommitAndPush_exhausted :
  let cfg := site in
  let w := world
             (scripted [Ok ""; Ok ""; Ok ""; Err "rejected"; Ok "";
                                  Err "rejected"; Ok ""; Err "rejected"; Ok ""]) ∅ in
  let out := CommitAndPush cfg "_data/comments/my-post/c.yml" "my-post" w in
  fst out = Some "git push failed after 3 attempts" /\
  count_action (push cfg) (history (snd out)) = 3%nat.
Proof. by_evaluation. Qed.

(** The host's keys in the store are stale: the first clone fails, the keys
    are refreshed (the store is replaced), the directory is discarded and
    the second clone succeeds; the identity is set. *)
Example Clone_retries_once :
  let w := world
             (scripted [Ok ""; Err "stat"; Ok ""; Err "host key verification failed";
                        Ok "github.com ssh-ed25519 NEW"; Ok ""; Ok ""; Ok ""; Ok "";
                        Ok ""; Ok ""; Ok ""])
             {[ knownHostsPath := "github.com ssh-ed25519 STALE" ]} in
  let out := Clone site w in
  fst out = None /\
  count_action (clone site) (history (snd out)) = 2%nat /\
  files (snd out) !! knownHostsPath = Some "github.com ssh-ed25519 NEW" /\
  List.map fst (history (snd out)) =
    [ReadFile knownHostsPath; Stat "/app/repo/.git"; MkdirAll repoDir; clone site;
     Keyscan "github.com"; MkdirAll "/app/.ssh";
     WriteFile knownHostsPath "github.com ssh-ed25519 NEW";
     RemoveAll repoDir; MkdirAll repoDir; clone site;
     config_email site; config_name site].
Proof. by_evaluation. Qed.

(** The retry fails too: an error, and no third clone. *)
Example Clone_retry_fails :
  let w := world
             (scripted [Ok ""; Err "stat"; Ok ""; Err "unreachable";
                        Ok "github.com ssh-ed25519 NEW"; Ok ""; Ok ""; Ok ""; Ok "";
                        Err "unreachable"])
             {[ knownHostsPath := "github.com ssh-ed25519 STALE" ]} in
  let out := Clone site w in
  fst out = Some "git clone: unreachable" /\
  count_action (clone site) (history (snd out)) = 2%nat.
Proof. by_evaluation. Qed.

(** A working copy is there: pull, no clone. *)
Example Clone_pulls_existing :
  let w := world (always "") {[ knownHostsPath := "github.com ssh-ed25519 KEY" ]} in
  let out := Clone site w in
  fst out = None /\
  List.map fst (history (snd out)) =
    [ReadFile knownHostsPath; Stat "/app/repo/.git"; pull site].
Proof. by_evaluation. Qed.

(** A record of the same name is already there: [writeComment] succeeds and
    the file now holds the new record. *)
Lemma writeComment_counterexample :
  let c := {| Name := "Ann"; Email := ""; Body := "Second"; Date := "2024-01-02T15:04:05Z";
              Slug := "my-post"; ReplyTo := "" |} in
  let now := {| GoFmt.year := 2024; GoFmt.month := 1; GoFmt.day := 2;
                GoFmt.hour := 15; GoFmt.minute := 4; GoFmt.second := 5 |} in
  let path := "/app/repo/_data/comments/my-post/20240102150405-61626364.yml" in
  let w := world (always "abcd") {[ path := "name: Bob" ]} in
  let out := writeComment site now c w in
  files w !! path = Some "name: Bob" /\
  fst out = ("_data/comments/my-post/20240102150405-61626364.yml", None) /\
  files (snd out) !! path = marshal c /\
  marshal c <> Some "name: Bob".
Proof. by_evaluation. Qed.

(** A request from a foreign origin, and a request from the allowed origin
    that asks to be redirected to a foreign site: both are answered 403. *)
Lemma ServeHTTP_forbidden_witness :
  let fields := [("name", "Ann"); ("body", "Hello"); ("slug", "my-post")] in
  let w := world (always "") ∅ in
  ServeHTTP site an_instant an_instant
    (post "http://evil.example.com" (fields ++ [("url", "https://example.com/p")])) w
  = (HttpError "Forbidden: origin not allowed" 403, w) /\
  ServeHTTP site an_instant an_instant
    (post "https://example.com" (fields ++ [("url", "http://evil.example.com/page")])) w
  = (HttpError "Forbidden: redirect URL origin not allowed" 403, w).
Proof.
  intros fields w. split.
  - refine (proj1 (HandlerFacts.ServeHTTP_forbidden site an_instant an_instant
                     (post "http://evil.example.com"
                        (fields ++ [("url", "https://example.com/p")]))
                     w eq_refl) _).
    intros (a & Ha & Hin). vm_compute in Ha. injection Ha as <-.
    destruct Hin as [Hin|[]]. discriminate Hin.
  - refine (proj1 (proj2 (HandlerFacts.ServeHTTP_forbidden site an_instant
                            an_instant
                            (post "https://example.com"
                               (fields ++ [("url", "http://evil.example.com/page")]))
                            w eq_refl)) _ eq_refl _ _).
    + exists "https://example.com". split; [reflexivity | left; reflexivity].
    + vm_compute. discriminate.
    + intros (a & Ha & Hin). vm_compute in Ha. injection Ha as <-.
      destruct Hin as [Hin|[]]. discriminate Hin.
Defined.

(** Requests whose redirect URL is not an allowed one and that are not
    answered 403: the redirect URL is blank (400, as for a missing one), or
    the form does not parse (400). *)
Lemma ServeHTTP_forbidden_counterexample :
  let w := world (always "") ∅ in
  let blank := post "https://example.com"
                 [("name", "Ann"); ("body", "Hello"); ("slug", "my-post"); ("url", " ")] in
  let broken := malformed (post "https://example.com"
                 [("name", "Ann"); ("url", "http://evil.example.com/page")]) in
  checkOrigin site blank = true /\
  isAllowedRedirect site (FormValue blank "url") = false /\
  isAllowedRedirect site (TrimSpace (FormValue blank "url")) = false /\
  ServeHTTP site an_instant an_instant blank w =
    (HttpError "Missing required fields (name, body, slug, url)" 400, w) /\
  checkOrigin site broken = true /\
  isAllowedRedirect site (FormValue broken "url") = false /\
  ServeHTTP site an_instant an_instant broken w = (HttpError "Bad request" 400, w).
Proof. by_evaluation. Qed.

(** A body of 10001 bytes is answered with the error redirect. *)
Lemma ServeHTTP_body_length_witness :
  let r := post "https://example.com"
             [("name", "Ann"); ("body", replicate_str (Z.to_nat 10001) "x");
              ("slug", "my-post"); ("url", "https://example.com/p")] in
  let w := world (always "") ∅ in
  ServeHTTP site an_instant an_instant r w =
    (RedirectError {| su_scheme := "https"; su_host := "example.com"; su_path := "/p" |}
                   "Comment body too long", w).
Proof.
  intros r w.
  destruct (HandlerFacts.ServeHTTP_body_length site an_instant an_instant r w)
    as [(u & Hu & _ & Hlong & _) _].
  - reflexivity.
  - compute_eq.
  - reflexivity.
  - compute_eq.
  - apply SpamFacts.eqb_empty_false. compute_eq.
  - apply SpamFacts.eqb_empty_false. compute_eq.
  - apply SpamFacts.eqb_empty_false. compute_eq.
  - apply SpamFacts.eqb_empty_false. compute_eq.
  - vm_compute in Hu. injection Hu as <-. apply Hlong.
    apply Z.ltb_lt. compute_eq.
Defined.

(** A body of 5001 characters, each of two bytes, is rejected as too long. *)
Lemma ServeHTTP_body_length_counterexample :
  let body := replicate_str (Z.to_nat 5001) e_acute in
  let r := post "https://example.com"
             [("name", "Ann"); ("body", body); ("slug", "my-post");
              ("url", "https://example.com/p")] in
  let w := world (always "") ∅ in
  Z.of_nat (RuneCountInString (TrimSpace (FormValue r "body"))) = 5001 /\
  len (TrimSpace (FormValue r "body")) = 10002 /\
  ServeHTTP site an_instant an_instant r w =
    (RedirectError {| su_scheme := "https"; su_host := "example.com"; su_path := "/p" |}
                   "Comment body too long", w).
Proof. by_evaluation. Qed.

(** A blank timestamp field is present and is no integer, and so is [soon];
    the first is not flagged, and the second is not flagged when the check is
    switched off. *)
Lemma checkTimestamp_counterexample :
  let blank := post "https://example.com" [("_timestamp", " ")] in
  let soon := post "https://example.com" [("_timestamp", "soon")] in
  Form blank !! "_timestamp" = Some [" "] /\
  ParseInt " " = None /\
  checkTimestamp 1700000000 blank 5 = false /\
  ParseInt (TrimSpace (FormValue soon "_timestamp")) = None /\
  checkTimestamp 1700000000 soon 0 = false.
Proof. by_evaluation. Qed.

(** Two seconds after the form was served is too fast; a minute is not; and
    a timestamp that does not parse is flagged. *)
Example checkTimestamp_cases :
  checkTimestamp 1700000000 (post "https://example.com" [("_timestamp", "1699999998")]) 5
    = true /\
  checkTimestamp 1700000000 (post "https://example.com" [("_timestamp", "1699999940")]) 5
    = false /\
  checkTimestamp 1700000000 (post "https://example.com" [("_timestamp", "soon")]) 5
    = true /\
  checkTimestamp 1700000000 (post "https://example.com" []) 5 = false.
Proof. by_evaluation. Qed.

(** The subtraction is done in 64 bits: a timestamp so far in the past that
    [now - ts] leaves the range is flagged as too fast. *)
Example checkTimestamp_wraps :
  ParseInt "-9223372036854775808" = Some (-9223372036854775808) /\
  5 <= 1700000000 - (-9223372036854775808) /\
  checkTimestamp 1700000000
    (post "https://example.com" [("_timestamp", "-9223372036854775808")]) 5 = true.
Proof. by_evaluation. Qed.

Example checkHoneypot_cases :
  checkHoneypot (post "https://example.com" [("website", "http://spam.example")]) "website"
    = true /\
  checkHoneypot (post "https://example.com" [("website", "  ")]) "website" = false /\
  checkHoneypot (post "https://example.com" [("website", "http://spam.example")]) ""
    = false.
Proof. by_evaluation. Qed.

(** A valid submission is written, committed and pushed, and answered with
    the redirect back to the post. *)
Example ServeHTTP_accepts :
  let r := post "https://example.com"
             [("name", "Ann"); ("body", "Hello"); ("slug", "my-post");
              ("url", "https://example.com/p")] in
  let out := ServeHTTP site an_instant an_instant r (world (always "abcd") ∅) in
  fst out = RedirectSubmitted
              {| su_scheme := "https"; su_host := "example.com"; su_path := "/p" |} /\
  List.map fst (history (snd out)) =
    [MkdirAll "/app/repo/_data/comments/my-post"; RandRead 4;
     WriteFile "/app/repo/_data/comments/my-post/20240102150405-61626364.yml"
       (default "" (marshal {| Name := "Ann"; Email := ""; Body := "Hello";
                               Date := "2024-01-02T15:04:05Z"; Slug := "my-post";
                               ReplyTo := "" |}));
     pull site; git_add site "_data/comments/my-post/20240102150405-61626364.yml";
     git_commit site "my-post"; push site].
Proof. by_evaluation. Qed.

(** A slug that tries to leave the comments directory is refused. *)
Example ServeHTTP_rejects_traversal :
  let r := post "https://example.com"
             [("name", "Ann"); ("body", "Hello"); ("slug", "../../etc");
              ("url", "https://example.com/p")] in
  let w := world (always "") ∅ in
  ServeHTTP site an_instant an_instant r w =
    (RedirectError {| su_scheme := "https"; su_host := "example.com"; su_path := "/p" |}
                   "Invalid slug", w).
Proof. by_evaluation. Qed.

End Examples.

(* ================================================================== *)
(** * Further properties *)
(* ================================================================== *)

(** ** Rate limiter: sweeps, bursts, clients *)

Module RateLimiterMore.
Import GoInt Spam SpamRuns RateLimiterFacts.

Lemma prune_prune (c1 c2 : Z) (l : list Z) :
  c1 <= c2 -> prune c2 (prune c1 l) = prune c2 l.
Proof.
  intros Hc. unfold prune, After. induction l as [|t l IH]; [reflexivity|].
  cbn [List.filter]. destruct (Z.ltb_spec c1 t); cbn [List.filter].
  - rewrite IH. reflexivity.
  - destruct (Z.ltb_spec c2 t); [lia | exact IH].
Qed.

Lemma prune_all (c : Z) (l : list Z) :
  (forall t, In t l -> c < t) -> prune c l = l.
Proof.
  unfold prune, After. induction l as [|t l IH]; intros Hall; [reflexivity|].
  cbn [List.filter]. destruct (Z.ltb_spec c t) as [_|Hle].
  - rewrite IH; [reflexivity|]. intros u Hu. apply Hall. right. exact Hu.
  - specialize (Hall t (or_introl eq_refl)). lia.
Qed.

Lemma prune_none (c : Z) (l : list Z) :
  (forall t, In t l -> t <= c) -> prune c l = [].
Proof.
  unfold prune, After. induction l as [|t l IH]; intros Hall; [reflexivity|].
  cbn [List.filter]. destruct (Z.ltb_spec c t) as [Hlt|_].
  - specialize (Hall t (or_introl eq_refl)). lia.
  - apply IH. intros u Hu. apply Hall. right. exact Hu.
Qed.

Lemma Allow_unfold (rl : RateLimiter) (now : Z) (ip : string) :
  0 < max rl ->
  Allow rl now ip =
  let valid := prune (cutoff_at rl now) (stamps rl ip) in
  if max rl <=? Z.of_nat (List.length valid)
  then (false, {| window := window rl; max := max rl;
                  entries := <[ip := valid]> (entries rl) |})
  else (true, {| window := window rl; max := max rl;
                 entries := <[ip := (valid ++ [now])%list]> (entries rl) |}).
Proof.
  intros Hm. unfold Allow. destruct (Z.leb_spec (max rl) 0); [lia|reflexivity].
Qed.

Lemma stamps_insert_same (w m : Z) (es : gmap string (list Z)) (ip : string)
    (l : list Z) :
  stamps {| window := w; max := m; entries := <[ip := l]> es |} ip = l.
Proof. rewrite stamps_insert. destruct (decide (ip = ip)); congruence. Qed.

(** X1. A sweep keeps, for every address, exactly the timestamps newer than
    the cutoff, and removes the addresses left with none (no empty list stays
    in the ledger).  It never changes an answer: a call of [Allow] at the
    instant of the sweep or later answers the same with or without the
    sweep, and (the limiter being on) leaves the same timestamps. *)
Theorem cleanup_tick_transparent (rl : RateLimiter) (now : Z) (ip : string) :
  stamps (cleanup_tick rl now) ip = prune (cutoff_at rl now) (stamps rl ip) /\
  entries (cleanup_tick rl now) !! ip <> Some [] /\
  (entries (cleanup_tick rl now) !! ip = None <->
   prune (cutoff_at rl now) (stamps rl ip) = []) /\
  (forall now2, now <= now2 ->
     fst (Allow (cleanup_tick rl now) now2 ip) = fst (Allow rl now2 ip) /\
     (0 < max rl ->
      stamps (snd (Allow (cleanup_tick rl now) now2 ip)) ip =
      stamps (snd (Allow rl now2 ip)) ip)).
Proof.
  split; [apply cleanup_tick_stamps|].
  assert (Hlook : entries (cleanup_tick rl now) !! ip =
                  match prune (cutoff_at rl now) (stamps rl ip) with
                  | [] => None
                  | valid => Some valid
                  end).
  { unfold cleanup_tick, stamps. cbn [entries]. rewrite lookup_omap.
    destruct (entries rl !! ip) as [l|]; reflexivity. }
  split; [|split].
  - rewrite Hlook. destruct (prune _ _); discriminate.
  - rewrite Hlook. destruct (prune _ _); split; congruence.
  - intros now2 Hle.
    destruct (Z.leb_spec (max rl) 0) as [Hoff|Hon].
    { unfold Allow. cbn [cleanup_tick max].
      destruct (Z.leb_spec (max rl) 0); [|lia]. cbn [fst].
      split; [reflexivity | lia]. }
    assert (Hon' : 0 < max (cleanup_tick rl now)) by exact Hon.
    rewrite (Allow_unfold _ now2 ip Hon'), (Allow_unfold rl now2 ip Hon).
    cbv zeta. rewrite cleanup_tick_stamps.
    change (cutoff_at (cleanup_tick rl now) now2) with (cutoff_at rl now2).
    rewrite prune_prune by (unfold cutoff_at; lia).
    cbn [cleanup_tick max window].
    destruct (max rl <=? _); cbn [fst snd]; rewrite !stamps_insert_same; auto.
Qed.

Lemma limiter_step_window (rl : RateLimiter) (e : LimiterEvent) :
  window (limiter_step rl e) = window rl.
Proof.
  destruct e; cbn [limiter_step]; [apply Allow_max | reflexivity].
Qed.

Lemma limiter_run_cons (rl : RateLimiter) (e : LimiterEvent) (evs : list LimiterEvent) :
  limiter_run rl (e :: evs) = limiter_run (limiter_step rl e) evs.
Proof. reflexivity. Qed.

Lemma limiter_run_params (evs : list LimiterEvent) (rl : RateLimiter) :
  max (limiter_run rl evs) = max rl /\ window (limiter_run rl evs) = window rl.
Proof.
  revert rl. induction evs as [|e evs IH]; intros rl; [auto|].
  rewrite limiter_run_cons. destruct (IH (limiter_step rl e)) as [-> ->].
  rewrite limiter_step_max, limiter_step_window. auto.
Qed.

(** The answer of [Allow] depends on the limits and on the caller's own
    timestamps only. *)
Lemma Allow_answer_ext (rl1 rl2 : RateLimiter) (now : Z) (ip : string) :
  max rl1 = max rl2 -> window rl1 = window rl2 ->
  stamps rl1 ip = stamps rl2 ip ->
  fst (Allow rl1 now ip) = fst (Allow rl2 now ip).
Proof.
  intros Hm Hw Hs. unfold Allow, cutoff_at. rewrite Hm, Hw, Hs.
  destruct (max rl2 <=? 0); [reflexivity|].
  destruct (max rl2 <=? _); reflexivity.
Qed.

Lemma cutoff_at_plain (rl : RateLimiter) (now : Z) :
  0 <= window rl <= max_int64 -> cutoff_at rl now = now - window rl.
Proof.
  intros H. apply cutoff_at_sub. unfold min_int64, max_int64 in *. lia.
Qed.

(** Calls that all fall within one window are recorded one after the other,
    as long as the maximum is not reached. *)
Lemma burst_recorded (q : list Z) (rl : RateLimiter) (ip : string) (p : list Z)
    (hi : Z) :
  0 < max rl -> 0 <= window rl <= max_int64 ->
  stamps rl ip = p ->
  Z.of_nat (List.length (p ++ q)) <= max rl ->
  (forall t, In t (p ++ q) -> hi - window rl < t <= hi) ->
  stamps (limiter_run rl (List.map (fun t => AllowCall t ip) q)) ip = (p ++ q)%list /\
  limiter_answers rl (List.map (fun t => AllowCall t ip) q) =
    List.map (fun _ => true) q.
Proof.
  revert rl p. induction q as [|t q IH]; intros rl p Hm Hw Hp Hlen Hin.
  - rewrite app_nil_r. auto.
  - cbn [List.map limiter_answers]. rewrite limiter_run_cons. cbn [limiter_step].
    assert (Hvalid : prune (cutoff_at rl t) (stamps rl ip) = p).
    { rewrite Hp. apply prune_all. intros u Hu. rewrite cutoff_at_plain by exact Hw.
      pose proof (Hin u (in_or_app _ _ _ (or_introl Hu))).
      pose proof (Hin t (in_or_app p (t :: q) t (or_intror (or_introl eq_refl)))). lia. }
    rewrite (Allow_unfold rl t ip Hm). cbv zeta. rewrite Hvalid.
    rewrite length_app in Hlen. cbn [List.length] in Hlen.
    destruct (Z.leb_spec (max rl) (Z.of_nat (List.length p))); [lia|].
    cbn [fst snd].
    set (rl' := {| window := window rl; max := max rl;
                   entries := <[ip := (p ++ [t])%list]> (entries rl) |}).
    destruct (IH rl' (p ++ [t])%list) as [Hs Ha].
    + exact Hm.
    + exact Hw.
    + apply stamps_insert_same.
    + rewrite <- app_assoc. cbn [app]. rewrite length_app. cbn [List.length].
      cbn [max rl']. lia.
    + intros u Hu. rewrite <- app_assoc in Hu. cbn [app] in Hu.
      cbn [window rl']. apply Hin. exact Hu.
    + rewrite <- app_assoc in Hs. cbn [app] in Hs. rewrite Hs, Ha. auto.
Qed.

(** X2. With a maximum of [m] requests per window of [windowSeconds]: [m]
    requests of one address within one window are all accepted, the next
    request within that window is rejected, and a request that comes when
    the window has passed for all of them is accepted. *)
Theorem burst_then_rejected (windowSeconds m : Z) (ip : string) (ts : list Z)
    (now : Z) :
  0 < m -> 0 <= windowSeconds * Second <= max_int64 ->
  Z.of_nat (List.length ts) = m ->
  (forall t, In t ts -> now - windowSeconds * Second < t <= now) ->
  let calls := List.map (fun t => AllowCall t ip) ts in
  let rl := limiter_run (NewRateLimiter windowSeconds m) calls in
  limiter_answers (NewRateLimiter windowSeconds m) calls =
    List.map (fun _ => true) ts /\
  fst (Allow rl now ip) = false /\
  (forall later, (forall t, In t ts -> t <= later - windowSeconds * Second) ->
     fst (Allow rl later ip) = true).
Proof.
  intros Hm Hw Hlen Hin calls rl.
  set (rl0 := NewRateLimiter windowSeconds m).
  assert (Hwin : window rl0 = windowSeconds * Second).
  { cbn [rl0 NewRateLimiter window]. apply wrap64_id.
    unfold min_int64, max_int64 in *. lia. }
  destruct (burst_recorded ts rl0 ip [] now) as [Hs Ha].
  - exact Hm.
  - rewrite Hwin. exact Hw.
  - unfold stamps. cbn [rl0 NewRateLimiter entries]. rewrite lookup_empty. reflexivity.
  - cbn [app]. cbn [rl0 NewRateLimiter max]. lia.
  - cbn [app]. rewrite Hwin. exact Hin.
  - cbn [app] in Hs. change (stamps rl ip = ts) in Hs.
    assert (Hmax : max rl = m) by apply (limiter_run_params calls rl0).
    assert (Hwindow : window rl = windowSeconds * Second).
    { rewrite <- Hwin. apply (limiter_run_params calls rl0). }
    clearbody rl.
    assert (Hw' : 0 <= window rl <= max_int64) by (rewrite Hwindow; exact Hw).
    assert (Hm' : 0 < max rl) by (rewrite Hmax; exact Hm).
    split; [exact Ha|]. split.
    + rewrite (Allow_unfold rl now ip Hm'). cbv zeta. rewrite Hs.
      rewrite prune_all.
      * rewrite Hmax. destruct (Z.leb_spec m (Z.of_nat (List.length ts))); [reflexivity|lia].
      * intros t Ht. rewrite cutoff_at_plain, Hwindow by exact Hw'.
        apply (Hin t Ht).
    + intros later Hlater. rewrite (Allow_unfold rl later ip Hm'). cbv zeta.
      rewrite Hs, prune_none.
      * rewrite Hmax. cbn [List.length].
        destruct (Z.leb_spec m (Z.of_nat 0)); [lia|reflexivity].
      * intros t Ht. rewrite cutoff_at_plain, Hwindow by exact Hw'.
        apply (Hlater t Ht).
Qed.

Lemma burst_then_rejected_witness :
  let calls := [AllowCall (5 * Second) "10.0.0.1"; AllowCall (6 * Second) "10.0.0.1"] in
  let rl := limiter_run (NewRateLimiter 60 2) calls in
  limiter_answers (NewRateLimiter 60 2) calls = [true; true] /\
  fst (Allow rl (7 * Second) "10.0.0.1") = false /\
  (forall later, (forall t, In t [5 * Second; 6 * Second] -> t <= later - 60 * Second) ->
     fst (Allow rl later "10.0.0.1") = true).
Proof.
  refine (burst_then_rejected 60 2 "10.0.0.1" [5 * Second; 6 * Second] (7 * Second)
            _ _ _ _).
  - lia.
  - vm_compute. split; discriminate.
  - reflexivity.
  - intros t [<-|[<-|[]]]; vm_compute; split; (reflexivity || discriminate).
Defined.

(** X3. What other clients do does not count: calls of [Allow] for other
    addresses leave the timestamps of an address as they are, and the answer
    to its next request is the same as without them. *)
Theorem other_clients_invisible (rl : RateLimiter) (evs : list LimiterEvent)
    (ip : string) :
  Forall (other_client ip) evs ->
  stamps (limiter_run rl evs) ip = stamps rl ip /\
  (forall now, fst (Allow (limiter_run rl evs) now ip) = fst (Allow rl now ip)).
Proof.
  intros Hall.
  assert (Hs : stamps (limiter_run rl evs) ip = stamps rl ip).
  { revert rl. induction Hall as [|e evs He _ IH]; intros rl; [reflexivity|].
    rewrite limiter_run_cons, IH. destruct e as [now ip'|now]; [|destruct He].
    cbn [other_client] in He. cbn [limiter_step]. unfold Allow.
    destruct (max rl <=? 0); [reflexivity|].
    destruct (max rl <=? _); cbn [snd]; rewrite stamps_insert;
      (destruct (decide (ip' = ip)); [contradiction|]); destruct rl; reflexivity. }
  split; [exact Hs|]. intros now.
  destruct (limiter_run_params evs rl) as [Hm Hw].
  apply Allow_answer_ext; assumption.
Qed.

Lemma other_clients_invisible_witness :
  let rl := limiter_run (NewRateLimiter 60 1) [AllowCall (5 * Second) "10.0.0.1"] in
  let others := [AllowCall (6 * Second) "10.0.0.2"; AllowCall (7 * Second) "10.0.0.3"] in
  stamps (limiter_run rl others) "10.0.0.1" = stamps rl "10.0.0.1" /\
  (forall now, fst (Allow (limiter_run rl others) now "10.0.0.1") =
               fst (Allow rl now "10.0.0.1")).
Proof.
  refine (other_clients_invisible _ _ "10.0.0.1" _).
  repeat constructor; cbn; discriminate.
Defined.

(** X4. A limiter created with a maximum of zero (or less) is off for good:
    whatever calls and sweeps follow, every request is accepted and the
    ledger stays empty. *)
Theorem limiter_off (windowSeconds m : Z) (evs : list LimiterEvent) :
  m <= 0 ->
  entries (limiter_run (NewRateLimiter windowSeconds m) evs) = ∅ /\
  Forall (fun answer => answer = true)
    (limiter_answers (NewRateLimiter windowSeconds m) evs).
Proof.
  intros Hm. set (rl0 := NewRateLimiter windowSeconds m).
  assert (H0 : entries rl0 = ∅ /\ max rl0 <= 0) by (split; [reflexivity|exact Hm]).
  revert H0. generalize rl0. clear rl0.
  induction evs as [|e evs IH]; intros rl [He Hmax]; [split; [exact He|constructor]|].
  rewrite limiter_run_cons. destruct e as [now ip|now].
  - cbn [limiter_step limiter_answers]. unfold Allow.
    destruct (Z.leb_spec (max rl) 0); [|lia]. cbn [fst snd].
    destruct (IH rl (conj He Hmax)) as [H1 H2]. split; [exact H1|].
    constructor; [reflexivity | exact H2].
  - cbn [limiter_step limiter_answers]. apply IH. split.
    + cbn [cleanup_tick entries]. rewrite He. apply omap_empty.
    + exact Hmax.
Qed.

Lemma limiter_off_witness :
  entries (limiter_run (NewRateLimiter 60 0)
             [AllowCall 5 "10.0.0.1"; CleanupTick 6; AllowCall 7 "10.0.0.1"]) = ∅ /\
  Forall (fun answer => answer = true)
    (limiter_answers (NewRateLimiter 60 0)
       [AllowCall 5 "10.0.0.1"; CleanupTick 6; AllowCall 7 "10.0.0.1"]).
Proof. apply limiter_off. lia. Defined.

End RateLimiterMore.

(** ** Publishing: what [CommitAndPush] does at most *)

Module PublishFacts.
Import GoString GoFmt Sys Git GitSpec GitFacts HostKeyFacts Handler HandlerSpec.

Lemma push_trace_length (cfg : Config) (n : nat) (tr : list Event) (err : error) :
  push_trace cfg n tr err -> (List.length tr <= 2 * n + 1)%nat.
Proof. induction 1; cbn [List.length]; lia. Qed.

Lemma push_trace_git (cfg : Config) (n : nat) (tr : list Event) (err : error) :
  push_trace cfg n tr err -> List.Forall (git_in_repo cfg) tr.
Proof.
  induction 1; repeat constructor; try assumption; eexists; reflexivity.
Qed.

Lemma push_loop_files (cfg : Config) (n : nat) (w : World) :
  files (snd (push_loop cfg n w)) = files w /\
  env (snd (push_loop cfg n w)) = env w.
Proof.
  revert w. induction n as [|n IH]; intros w; cbn [push_loop]; [auto|].
  rewrite bind_eq, run_eq. cbv beta iota zeta.
  destruct (env w (history w) (git cfg repoDir ["push"])) as [out|e1];
    cbn [error_of]; [auto|].
  rewrite bind_eq. unfold pullLocked. rewrite run_eq. cbv beta iota zeta.
  set (w1 := logged w _ _ _).
  destruct (env w1 (history w1) _) as [out|e2]; cbn [error_of].
  - destruct (IH (logged w1 (files w1) (git cfg repoDir ["pull"; "--rebase"]) (Ok out)))
      as [-> ->]. auto.
  - rewrite bind_eq, run_eq. cbv beta iota zeta. rewrite mret_eq. auto.
Qed.

(** [CommitAndPush] step by step: what it has run, and that it leaves the
    files alone. *)
Lemma CommitAndPush_outcome (cfg : Config) (filePath slug : string) (w : World) :
  let out := CommitAndPush cfg filePath slug w in
  files (snd out) = files w /\
  exists tr,
    history (snd out) = (history w ++ tr)%list /\
    List.Forall (git_in_repo cfg) tr /\
    (List.length tr <= 10)%nat /\
    (exists r, tr !! 0%nat = Some (pull cfg, r)) /\
    (fst out = None ->
     exists o1 o2 o3 rest,
       tr = (pull cfg, Ok o1) :: (git_add cfg filePath, Ok o2)
            :: (git_commit cfg slug, Ok o3) :: rest /\
       push_trace cfg 3 rest None).
Proof.
  cbv zeta. unfold CommitAndPush, pullLocked.
  rewrite bind_eq, run_eq. cbv beta iota zeta.
  destruct (env w (history w) (git cfg repoDir ["pull"; "--rebase"]))
    as [o1|e] eqn:E1; cbn [error_of].
  2:{ rewrite mret_eq. cbn [fst snd]. split; [reflexivity|].
      eexists. split; [reflexivity|].
      split; [repeat constructor; eexists; reflexivity|].
      split; [cbn; lia|]. split; [eexists; reflexivity | discriminate]. }
  set (w1 := logged w _ _ _).
  rewrite bind_eq, run_eq. cbv beta iota zeta.
  destruct (env w1 (history w1) (git cfg repoDir ["add"; filePath]))
    as [o2|e] eqn:E2; cbn [error_of].
  2:{ rewrite mret_eq. cbn [fst snd]. split; [reflexivity|].
      unfold w1. rewrite !logged_history, <- !app_assoc.
      eexists. split; [reflexivity|]. cbn [app].
      split; [repeat constructor; eexists; reflexivity|].
      split; [cbn; lia|]. split; [eexists; reflexivity | discriminate]. }
  set (w2 := logged w1 _ _ _).
  rewrite bind_eq, run_eq. cbv beta iota zeta.
  destruct (env w2 (history w2)
              (git cfg repoDir ["commit"; "-m"; "Add comment on " +:+ slug]))
    as [o3|e] eqn:E3; cbn [error_of].
  2:{ rewrite mret_eq. cbn [fst snd]. split; [reflexivity|].
      unfold w2, w1. rewrite !logged_history, <- !app_assoc.
      eexists. split; [reflexivity|]. cbn [app].
      split; [repeat constructor; eexists; reflexivity|].
      split; [cbn; lia|]. split; [eexists; reflexivity | discriminate]. }
  set (w3 := logged w2 _ _ _).
  destruct (push_loop_trace cfg pushMaxRetries w3) as (rest & Hh & Ht).
  destruct (push_loop_files cfg pushMaxRetries w3) as [Hf _].
  split; [rewrite Hf; reflexivity|].
  exists ((pull cfg, Ok o1) :: (git_add cfg filePath, Ok o2)
          :: (git_commit cfg slug, Ok o3) :: rest).
  split; [rewrite Hh; unfold w3, w2, w1; rewrite !logged_history, <- !app_assoc;
          reflexivity|].
  split.
  { repeat (constructor; [eexists; reflexivity|]). exact (push_trace_git _ _ _ _ Ht). }
  split.
  { pose proof (push_trace_length _ _ _ _ Ht) as Hl. unfold pushMaxRetries in Hl.
    cbn [List.length]. lia. }
  split; [eexists; reflexivity|].
  intros Hnone. exists o1, o2, o3, rest. split; [reflexivity|].
  rewrite Hnone in Ht. exact Ht.
Qed.

(** X5. [CommitAndPush] does a bounded amount of work and nothing but git:
    it starts with a pull, runs at most ten commands, each of them a git
    command in the working copy with the configured SSH command, and it
    changes no file itself. *)
Theorem CommitAndPush_only_git (cfg : Config) (filePath slug : string) (w : World) :
  let out := CommitAndPush cfg filePath slug w in
  files (snd out) = files w /\
  exists tr,
    history (snd out) = (history w ++ tr)%list /\
    (1 <= List.length tr <= 10)%nat /\
    (exists r, tr !! 0%nat = Some (pull cfg, r)) /\
    (forall a r, In (a, r) tr ->
       exists args, a = Run repoDir "git" args (sshCommand cfg)).
Proof.
  cbv zeta.
  destruct (CommitAndPush_outcome cfg filePath slug w)
    as (Hf & tr & Hh & Hgit & Hlen & [r0 H0] & _).
  split; [exact Hf|]. exists tr. split; [exact Hh|].
  split.
  { destruct tr; [discriminate H0 | cbn [List.length] in *; lia]. }
  split; [eauto|].
  intros a r Hin. rewrite List.Forall_forall in Hgit.
  destruct (Hgit _ Hin) as [args Ha]. exists args. exact Ha.
Qed.

End PublishFacts.

(** ** The handler, from the request to the answer *)

Module HandlerMore.
Import GoString GoFmt Http Sys Git GitSpec GitFacts HostKeyFacts Handler SlugCheck.
Import HandlerSpec HandlerFacts PublishFacts.

(** [ServeHTTP] is its checks, then the publication. *)
Lemma ServeHTTP_checks `{GoLib} (cfg : Config) (tDate tFile : UTCTime) (r : Request)
    (w : World) :
  ServeHTTP cfg tDate tFile r w =
  match rejection cfg r with
  | Some resp => (resp, w)
  | None => publish cfg tDate tFile r w
  end.
Proof.
  unfold ServeHTTP, rejection, publish, comment_of, form_field.
  destruct (negb (String.eqb (Method r) "POST")); [reflexivity|].
  destruct (negb (checkOrigin cfg r)); [reflexivity|].
  destruct (ParseFormErr r); [reflexivity|]. cbv zeta.
  destruct (_ && _); [reflexivity|].
  destruct (_ || _); [reflexivity|].
  destruct (_ <? _); [reflexivity|].
  destruct (negb (isValidSlug _)); [reflexivity|].
  destruct (_ && _); reflexivity.
Qed.

Lemma rejection_validated `{GoLib} (cfg : Config) (r : Request) :
  rejection cfg r = None <-> validated cfg r = true.
Proof.
  unfold rejection, validated.
  destruct (String.eqb (Method r) "POST"); cbn [negb andb]; [|split; discriminate].
  destruct (checkOrigin cfg r); cbn [negb andb]; [|split; discriminate].
  destruct (ParseFormErr r); cbn [negb andb]; [split; discriminate|].
  destruct (String.eqb (form_field r "url") ""); cbn [negb andb orb].
  { rewrite !andb_false_r, !orb_true_r. cbn [andb]. split; discriminate. }
  destruct (isAllowedRedirect cfg (form_field r "url")); cbn [negb andb];
    [|split; discriminate].
  destruct (String.eqb (form_field r "name") ""); cbn [negb andb orb];
    [split; discriminate|].
  destruct (String.eqb (form_field r "body") ""); cbn [negb andb orb];
    [split; discriminate|].
  destruct (String.eqb (form_field r "slug") ""); cbn [negb andb orb];
    [split; discriminate|].
  rewrite Z.ltb_antisym.
  destruct (len (form_field r "body") <=? defaultMaxBodyLen); cbn [negb andb];
    [|split; discriminate].
  destruct (isValidSlug (form_field r "slug")); cbn [negb andb]; [|split; discriminate].
  destruct (String.eqb (form_field r "reply_to") ""); cbn [negb andb orb];
    [split; reflexivity|].
  destruct (isValidSlug (form_field r "reply_to")); cbn [negb]; split;
    (reflexivity || discriminate).
Qed.

(** What [validated] says, check by check. *)
Lemma validated_spec `{GoLib} (cfg : Config) (r : Request) :
  validated cfg r = true ->
  Method r = "POST" /\ checkOrigin cfg r = true /\ ParseFormErr r = false /\
  isAllowedRedirect cfg (form_field r "url") = true /\
  form_field r "name" <> "" /\ form_field r "body" <> "" /\ form_field r "slug" <> "" /\
  form_field r "url" <> "" /\ len (form_field r "body") <= defaultMaxBodyLen /\
  isValidSlug (form_field r "slug") = true /\
  (form_field r "reply_to" = "" \/ isValidSlug (form_field r "reply_to") = true).
Proof.
  unfold validated. rewrite !andb_true_iff, !negb_true_iff, orb_true_iff.
  intros ((((((((((Hm & Ho) & Hp) & Ha) & Hn) & Hb) & Hs) & Hu) & Hl) & Hv) & Hr).
  apply String.eqb_eq in Hm. apply String.eqb_neq in Hn, Hb, Hs, Hu.
  apply Z.leb_le in Hl. rewrite String.eqb_eq in Hr. auto 12.
Qed.

(** The answers of [errorRedirect]. *)
Lemma errorRedirect_cases `{GoLib} (redirectURL msg : string) :
  (exists u, redirectURL <> "" /\ url_Parse redirectURL = Some u /\
             errorRedirect redirectURL msg = RedirectError u msg) \/
  errorRedirect redirectURL msg = HttpError msg StatusBadRequest.
Proof.
  unfold errorRedirect. destruct (String.eqb_spec redirectURL ""); cbn [negb]; [auto|].
  destruct (url_Parse redirectURL) as [u|]; [left; eauto | auto].
Qed.

Lemma errorRedirect_is_error `{GoLib} (redirectURL msg msg' : string) (u : URL) :
  errorRedirect redirectURL msg = RedirectError u msg' ->
  msg' = msg /\ redirectURL <> "" /\ url_Parse redirectURL = Some u.
Proof.
  destruct (errorRedirect_cases redirectURL msg) as [(u' & Hne & Hu & ->)| ->];
    [|discriminate].
  intros [= -> ->]. auto.
Qed.

Lemma errorRedirect_not_submitted `{GoLib} (redirectURL msg : string) (u : URL) :
  errorRedirect redirectURL msg <> RedirectSubmitted u.
Proof.
  destruct (errorRedirect_cases redirectURL msg) as [(u' & _ & _ & ->)| ->];
    discriminate.
Qed.

Lemma errorRedirect_status `{GoLib} (redirectURL msg : string) :
  status (errorRedirect redirectURL msg) = 303 \/
  status (errorRedirect redirectURL msg) = 400.
Proof.
  destruct (errorRedirect_cases redirectURL msg) as [(u' & _ & _ & ->)| ->]; auto.
Qed.

Lemma postExists_outcome `{GoLib} (cfg : Config) (slug : string) (w : World) :
  let res := env w (history w) (Glob (post_pattern cfg slug)) in
  postExists cfg slug w =
  (match res with Ok matches => negb (String.eqb matches "") | Err _ => false end,
   logged w (files w) (Glob (post_pattern cfg slug)) res).
Proof.
  cbv zeta. unfold postExists. fold (post_pattern cfg slug).
  rewrite bind_eq, perform_plain by reflexivity.
  destruct (env w (history w) (Glob (post_pattern cfg slug))); reflexivity.
Qed.

(** [writeComment] step by step. *)
Lemma writeComment_outcome `{GoLib} (cfg : Config) (now : UTCTime) (c : Comment)
    (w : World) :
  let out := writeComment cfg now c w in
  let dir := FullPath (filepath_Join (CommentsPath cfg) (Slug c)) in
  (exists r rest, history (snd out) = (history w ++ (MkdirAll dir, r) :: rest)%list) /\
  (snd (fst out) = None ->
   exists b data o1 o3,
     fst out = (record_path cfg (Slug c) now b, None) /\
     yaml_Marshal c = Some data /\
     history (snd out) =
       (history w ++ [(MkdirAll dir, Ok o1); (RandRead 4, Ok b);
                      (WriteFile (FullPath (record_path cfg (Slug c) now b)) data,
                       Ok o3)])%list /\
     files (snd out) = <[FullPath (record_path cfg (Slug c) now b) := data]> (files w)).
Proof.
  cbv zeta. unfold writeComment, randomHex, record_path.
  rewrite bind_eq, perform_plain by reflexivity.
  destruct (env w (history w) _) as [o1|e] eqn:E1; cbv beta iota zeta.
  2:{ rewrite mret_eq. cbn [fst snd]. split; [|discriminate].
      eexists _, _. norm_history. reflexivity. }
  set (w1 := logged w _ _ _).
  rewrite !bind_eq, perform_plain by reflexivity.
  destruct (env w1 (history w1) (RandRead 4)) as [b|e] eqn:E2;
    rewrite mret_eq; cbv beta iota zeta; cbn [fst snd].
  2:{ rewrite mret_eq. cbn [fst snd]. split; [|discriminate].
      eexists _, _. unfold w1. norm_history. reflexivity. }
  set (w2 := logged w1 _ _ _).
  destruct (yaml_Marshal c) as [data|] eqn:Ey.
  2:{ rewrite mret_eq. cbn [fst snd]. split; [|discriminate].
      eexists _, _. unfold w2, w1. norm_history. reflexivity. }
  rewrite bind_eq, perform_WriteFile. cbv beta iota zeta.
  destruct (env w2 (history w2) _) as [o3|e] eqn:E3; cbv beta iota zeta;
    rewrite mret_eq; cbn [fst snd is_ok].
  2:{ split; [|discriminate]. eexists _, _. unfold w2, w1. norm_history. reflexivity. }
  split.
  - eexists _, _. unfold w2, w1. norm_history. reflexivity.
  - intros _. exists b, data, o1, o3. unfold w2, w1. norm_history. auto.
Qed.

(** The publication, stage by stage: the post is looked up (when posts are
    checked), the record is written, and it is committed and pushed. *)
Lemma publish_cases `{GoLib} (cfg : Config) (tDate tFile : UTCTime) (r : Request)
    (w : World) :
  let out := publish cfg tDate tFile r w in
  let url := form_field r "url" in
  let slug := form_field r "slug" in
  (PostsPath cfg <> "" /\ fst out = errorRedirect url "Post not found" /\
   files (snd out) = files w /\
   exists res,
     history (snd out) = (history w ++ [(Glob (post_pattern cfg slug), res)])%list) \/
  (exists pre w1,
     post_found cfg slug pre /\ history w1 = (history w ++ pre)%list /\
     files w1 = files w /\
     let wr := writeComment cfg tFile (comment_of tDate r) w1 in
     (snd (fst wr) <> None /\ fst out = errorRedirect url "Failed to save comment" /\
      snd out = snd wr) \/
     (snd (fst wr) = None /\
      let cp := CommitAndPush cfg (fst (fst wr)) slug (snd wr) in
      snd out = snd cp /\
      ((fst cp <> None /\ fst out = errorRedirect url "Failed to publish comment") \/
       (fst cp = None /\
        fst out = match url_Parse url with
                  | Some u => RedirectSubmitted u
                  | None => HttpError "Bad redirect URL" StatusBadRequest
                  end)))).
Proof.
  cbv zeta. unfold publish. rewrite bind_eq.
  assert (Hrest : forall pre w1,
    post_found cfg (form_field r "slug") pre -> history w1 = (history w ++ pre)%list ->
    files w1 = files w ->
    let out := (written ← writeComment cfg tFile (comment_of tDate r);
       match snd written with
       | Some _ => mret (errorRedirect (form_field r "url") "Failed to save comment")
       | None =>
         err ← CommitAndPush cfg (fst written) (form_field r "slug");
         match err with
         | Some _ => mret (errorRedirect (form_field r "url") "Failed to publish comment")
         | None =>
           match url_Parse (form_field r "url") with
           | None => mret (HttpError "Bad redirect URL" StatusBadRequest)
           | Some u => mret (RedirectSubmitted u)
           end
         end
       end) w1 in
    exists pre w1,
     post_found cfg (form_field r "slug") pre /\ history w1 = (history w ++ pre)%list /\
     files w1 = files w /\
     let wr := writeComment cfg tFile (comment_of tDate r) w1 in
     (snd (fst wr) <> None /\
      fst out = errorRedirect (form_field r "url") "Failed to save comment" /\
      snd out = snd wr) \/
     (snd (fst wr) = None /\
      let cp := CommitAndPush cfg (fst (fst wr)) (form_field r "slug") (snd wr) in
      snd out = snd cp /\
      ((fst cp <> None /\
        fst out = errorRedirect (form_field r "url") "Failed to publish comment") \/
       (fst cp = None /\
        fst out = match url_Parse (form_field r "url") with
                  | Some u => RedirectSubmitted u
                  | None => HttpError "Bad redirect URL" StatusBadRequest
                  end)))).
  { intros pre w1 Hpre Hh Hf. cbv zeta. exists pre, w1.
    split; [exact Hpre|]. split; [exact Hh|]. split; [exact Hf|].
    rewrite bind_eq.
    destruct (writeComment cfg tFile (comment_of tDate r) w1) as [[relPath werr] w2].
    cbn [fst snd]. destruct werr as [e|].
    { left. rewrite mret_eq. cbn [fst snd]. split; [discriminate | auto]. }
    right. split; [reflexivity|]. rewrite bind_eq.
    destruct (CommitAndPush cfg relPath (form_field r "slug") w2) as [err w3].
    cbn [fst snd]. destruct err as [e|].
    { rewrite mret_eq. cbn [fst snd]. split; [reflexivity|]. left.
      split; [discriminate | reflexivity]. }
    destruct (url_Parse (form_field r "url")); rewrite mret_eq; cbn [fst snd];
      (split; [reflexivity|]); right; auto. }
  destruct (String.eqb_spec (PostsPath cfg) "") as [Hp|Hp]; cbn [negb].
  - rewrite mret_eq. cbn [negb]. right.
    apply (Hrest [] w); [left; auto | rewrite app_nil_r; reflexivity | reflexivity].
  - rewrite postExists_outcome. cbv zeta.
    destruct (env w (history w) (Glob (post_pattern cfg (form_field r "slug"))))
      as [matches|e] eqn:Eg.
    + destruct (String.eqb_spec matches "") as [Hm|Hm]; cbn [negb].
      * left. rewrite mret_eq. cbn [fst snd]. split; [exact Hp|].
        split; [reflexivity|]. split; [reflexivity|]. eexists. reflexivity.
      * right. apply (Hrest [(Glob (post_pattern cfg (form_field r "slug")), Ok matches)]).
        -- right. split; [exact Hp|]. exists matches. auto.
        -- reflexivity.
        -- reflexivity.
    + cbn [negb]. left. rewrite mret_eq. cbn [fst snd]. split; [exact Hp|].
      split; [reflexivity|]. split; [reflexivity|]. eexists. reflexivity.
Qed.

(** The answer of the publication is an error redirect, or the redirect to
    the parsed redirect URL (a 400 when it does not parse). *)
Lemma publish_response `{GoLib} (cfg : Config) (tDate tFile : UTCTime) (r : Request)
    (w : World) :
  (exists msg, fst (publish cfg tDate tFile r w) = errorRedirect (form_field r "url") msg) \/
  fst (publish cfg tDate tFile r w) =
    match url_Parse (form_field r "url") with
    | Some u => RedirectSubmitted u
    | None => HttpError "Bad redirect URL" StatusBadRequest
    end.
Proof.
  destruct (publish_cases cfg tDate tFile r w)
    as [(_ & Hr & _)|(pre & w1 & _ & _ & _ & [(_ & Hr & _)|(_ & _ & [[_ Hr]|[_ Hr]])])];
    eauto.
Qed.

(** The answers of the checks that come after the redirect URL was found to
    be allowed are error redirects. *)
Lemma rejection_cases `{GoLib} (cfg : Config) (r : Request) (resp : Response) :
  rejection cfg r = Some resp ->
  (Method r <> "POST" /\ resp = HttpError "Method not allowed" StatusMethodNotAllowed) \/
  (Method r = "POST" /\ checkOrigin cfg r = false /\
   resp = HttpError "Forbidden: origin not allowed" StatusForbidden) \/
  (Method r = "POST" /\ checkOrigin cfg r = true /\ ParseFormErr r = true /\
   resp = HttpError "Bad request" StatusBadRequest) \/
  (Method r = "POST" /\ checkOrigin cfg r = true /\ ParseFormErr r = false /\
   form_field r "url" <> "" /\ isAllowedRedirect cfg (form_field r "url") = false /\
   resp = HttpError "Forbidden: redirect URL origin not allowed" StatusForbidden) \/
  (Method r = "POST" /\ checkOrigin cfg r = true /\ ParseFormErr r = false /\
   (form_field r "url" = "" \/ isAllowedRedirect cfg (form_field r "url") = true) /\
   exists msg, resp = errorRedirect (form_field r "url") msg).
Proof.
  unfold rejection.
  destruct (String.eqb_spec (Method r) "POST") as [Hm|Hm]; cbn [negb];
    [|intros [= <-]; left; auto].
  destruct (checkOrigin cfg r); cbn [negb]; [|intros [= <-]; right; left; auto].
  destruct (ParseFormErr r); [intros [= <-]; do 2 right; left; auto|].
  destruct (String.eqb_spec (form_field r "url") "") as [Hu|Hu]; cbn [negb andb].
  { intros Hresp. do 4 right. repeat (split; [reflexivity || auto|]).
    rewrite !orb_true_r in Hresp. injection Hresp as <-. eauto. }
  destruct (isAllowedRedirect cfg (form_field r "url")); cbn [negb];
    [|intros [= <-]; do 3 right; left; auto 10].
  intros Hresp. do 4 right. repeat (split; [reflexivity || auto|]).
  destruct (_ || _); [injection Hresp as <-; eauto|].
  destruct (_ <? _); [injection Hresp as <-; eauto|].
  destruct (negb _); [injection Hresp as <-; eauto|].
  destruct (_ && _); [injection Hresp as <-; eauto | discriminate].
Qed.

(** The messages of the checks. *)
Lemma rejection_messages `{GoLib} (cfg : Config) (r : Request) (u : URL) (msg : string) :
  rejection cfg r = Some (RedirectError u msg) ->
  In msg ["Missing required fields (name, body, slug, url)"; "Comment body too long";
          "Invalid slug"; "Invalid reply_to"].
Proof.
  unfold rejection.
  destruct (negb (String.eqb (Method r) "POST")); [discriminate|].
  destruct (negb (checkOrigin cfg r)); [discriminate|].
  destruct (ParseFormErr r); [discriminate|].
  destruct (_ && _); [discriminate|].
  destruct (_ || _);
    [intros [= Hr]; apply errorRedirect_is_error in Hr as [-> _]; cbn; auto|].
  destruct (_ <? _);
    [intros [= Hr]; apply errorRedirect_is_error in Hr as [-> _]; cbn; auto|].
  destruct (negb _);
    [intros [= Hr]; apply errorRedirect_is_error in Hr as [-> _]; cbn; auto|].
  destruct (_ && _);
    [intros [= Hr]; apply errorRedirect_is_error in Hr as [-> _]; cbn; auto 6
    |discriminate].
Qed.

(** What [publish] does when the post is looked up and nothing is found. *)
Lemma publish_not_found `{GoLib} (cfg : Config) (tDate tFile : UTCTime) (r : Request)
    (w : World) :
  PostsPath cfg <> "" ->
  nothing_found (env w (history w) (Glob (post_pattern cfg (form_field r "slug")))) ->
  publish cfg tDate tFile r w =
  (errorRedirect (form_field r "url") "Post not found",
   logged w (files w) (Glob (post_pattern cfg (form_field r "slug")))
     (env w (history w) (Glob (post_pattern cfg (form_field r "slug"))))).
Proof.
  intros Hp Hres. unfold publish. rewrite bind_eq.
  apply String.eqb_neq in Hp. rewrite Hp. cbn [negb].
  rewrite postExists_outcome. cbv zeta.
  destruct Hres as [-> | [e ->]]; reflexivity.
Qed.

(** What [publish] does when the post is there: it goes on to write. *)
Lemma publish_found `{GoLib} (cfg : Config) (tDate tFile : UTCTime) (r : Request)
    (w : World) (u : URL) :
  fst (publish cfg tDate tFile r w) = RedirectError u "Post not found" ->
  PostsPath cfg <> "" /\
  nothing_found (env w (history w) (Glob (post_pattern cfg (form_field r "slug")))).
Proof.
  unfold publish. rewrite bind_eq.
  destruct (String.eqb_spec (PostsPath cfg) "") as [Hp|Hp]; cbn [negb].
  - rewrite mret_eq. cbn [negb]. rewrite bind_eq.
    destruct (writeComment cfg tFile (comment_of tDate r) w) as [[relPath werr] w2].
    cbn [fst snd]. destruct werr as [e|].
    { rewrite mret_eq. cbn [fst]. intros He.
      apply errorRedirect_is_error in He as [Hm _]. discriminate Hm. }
    rewrite bind_eq.
    destruct (CommitAndPush cfg relPath (form_field r "slug") w2) as [err w3].
    destruct err as [e|].
    { rewrite mret_eq. cbn [fst]. intros He.
      apply errorRedirect_is_error in He as [Hm _]. discriminate Hm. }
    destruct (url_Parse (form_field r "url")); rewrite mret_eq; discriminate.
  - rewrite postExists_outcome. cbv zeta.
    destruct (env w (history w) (Glob (post_pattern cfg (form_field r "slug"))))
      as [matches|e]; [|intros _; split; [exact Hp | right; eauto]].
    destruct (String.eqb_spec matches "") as [->|Hm]; cbn [negb];
      [intros _; split; [exact Hp | left; reflexivity]|].
    rewrite bind_eq.
    destruct (writeComment cfg tFile (comment_of tDate r) _) as [[relPath werr] w2].
    cbn [fst snd]. destruct werr as [e|].
    { rewrite mret_eq. cbn [fst]. intros He.
      apply errorRedirect_is_error in He as [Hx _]. discriminate Hx. }
    rewrite bind_eq.
    destruct (CommitAndPush cfg relPath (form_field r "slug") w2) as [err w3].
    destruct err as [e|].
    { rewrite mret_eq. cbn [fst]. intros He.
      apply errorRedirect_is_error in He as [Hx _]. discriminate Hx. }
    destruct (url_Parse (form_field r "url")); rewrite mret_eq; discriminate.
Qed.

(** [writeComment] runs no subprocess. *)
Lemma writeComment_no_run `{GoLib} (cfg : Config) (now : UTCTime) (c : Comment)
    (w : World) :
  exists tr,
    history (snd (writeComment cfg now c w)) = (history w ++ tr)%list /\
    List.Forall (fun e => is_run (fst e) = false) tr.
Proof.
  unfold writeComment, randomHex.
  rewrite bind_eq, perform_plain by reflexivity.
  destruct (env w (history w) _) as [o1|e] eqn:E1; cbv beta iota zeta.
  2:{ rewrite mret_eq. eexists. norm_history. split; [reflexivity|].
      repeat constructor. }
  set (w1 := logged w _ _ _).
  rewrite !bind_eq, perform_plain by reflexivity.
  destruct (env w1 (history w1) (RandRead 4)) as [b|e] eqn:E2;
    rewrite mret_eq; cbv beta iota zeta; cbn [fst snd].
  2:{ rewrite mret_eq. eexists. unfold w1. norm_history. split; [reflexivity|].
      repeat constructor. }
  set (w2 := logged w1 _ _ _).
  destruct (yaml_Marshal c) as [data|] eqn:Ey.
  2:{ rewrite mret_eq. eexists. unfold w2, w1. norm_history. split; [reflexivity|].
      repeat constructor. }
  rewrite bind_eq, perform_WriteFile. cbv beta iota zeta.
  destruct (env w2 (history w2) _) as [o3|e] eqn:E3; cbv beta iota zeta;
    rewrite mret_eq; eexists; unfold w2, w1; norm_history;
    (split; [reflexivity | repeat constructor]).
Qed.

(** X6. The status of every answer of [ServeHTTP] is 303, 400, 403 or 405.
    It is 405 exactly for the requests that are not POST; it is 403 exactly
    for the POST requests whose origin is not allowed, or whose form parses
    and names a redirect URL (not blank) that is not allowed; and it is 303
    exactly when the answer is a redirect. *)
Theorem ServeHTTP_status `{GoLib} (cfg : Config) (tDate tFile : UTCTime)
    (r : Request) (w : World) :
  let resp := fst (ServeHTTP cfg tDate tFile r w) in
  (status resp = 303 \/ status resp = 400 \/ status resp = 403 \/ status resp = 405) /\
  (status resp = 405 <-> Method r <> "POST") /\
  (status resp = 403 <->
   Method r = "POST" /\
   (checkOrigin cfg r = false \/
    (ParseFormErr r = false /\ form_field r "url" <> "" /\
     isAllowedRedirect cfg (form_field r "url") = false))) /\
  (status resp = 303 <-> is_redirect resp = true).
Proof.
  cbv zeta. rewrite ServeHTTP_checks.
  destruct (rejection cfg r) as [resp|] eqn:Hrej.
  - cbn [fst].
    destruct (rejection_cases cfg r resp Hrej)
      as [(Hm & ->)|[(Hm & Ho & ->)|[(Hm & Ho & Hp & ->)|[(Hm & Ho & Hp & Hu & Ha & ->)
          |(Hm & Ho & Hp & Hu & msg & ->)]]]].
    + cbn. intuition (try discriminate; try congruence).
    + cbn. intuition (try discriminate; try congruence).
    + cbn. intuition (try discriminate; try congruence).
    + cbn. intuition (try discriminate; try congruence).
    + destruct (errorRedirect_cases (form_field r "url") msg) as [(u & _ & _ & ->)| ->];
        cbn; intuition (try discriminate; try congruence).
  - apply rejection_validated, validated_spec in Hrej.
    destruct Hrej as (Hm & Ho & Hp & Ha & _ & _ & _ & Hu & _).
    destruct (publish_response cfg tDate tFile r w) as [[msg ->]| ->].
    + destruct (errorRedirect_cases (form_field r "url") msg) as [(u & _ & _ & ->)| ->];
        cbn; intuition (try discriminate; try congruence).
    + destruct (url_Parse (form_field r "url"));
        cbn; intuition (try discriminate; try congruence).
Qed.

(** X7. [ServeHTTP] redirects to allowed sites only: whenever its answer is a
    redirect, to report an error or a success, the request is a POST from an
    allowed origin, and the target is the parsed redirect URL of the form,
    whose scheme and host are an entry of the allow-list. *)
Theorem ServeHTTP_redirect_allowed `{GoLib} (cfg : Config) (tDate tFile : UTCTime)
    (r : Request) (w : World) (u : URL) :
  (exists msg, fst (ServeHTTP cfg tDate tFile r w) = RedirectError u msg) \/
  fst (ServeHTTP cfg tDate tFile r w) = RedirectSubmitted u ->
  Method r = "POST" /\ checkOrigin cfg r = true /\ ParseFormErr r = false /\
  url_Parse (form_field r "url") = Some u /\
  In (Scheme u +:+ "://" +:+ Host u) (AllowedOrigins cfg).
Proof.
  rewrite ServeHTTP_checks.
  assert (Hallowed : isAllowedRedirect cfg (form_field r "url") = true ->
    url_Parse (form_field r "url") = Some u ->
    In (Scheme u +:+ "://" +:+ Host u) (AllowedOrigins cfg)).
  { unfold isAllowedRedirect. intros Ha Hu. rewrite Hu in Ha.
    apply allowed_In. exact Ha. }
  destruct (rejection cfg r) as [resp|] eqn:Hrej.
  - cbn [fst]. intros Hresp.
    destruct (rejection_cases cfg r resp Hrej)
      as [(Hm & ->)|[(Hm & Ho & ->)|[(Hm & Ho & Hp & ->)|[(Hm & Ho & Hp & Hu & Ha & ->)
          |(Hm & Ho & Hp & Hu & msg & ->)]]]];
      try (destruct Hresp as [[m Hr]|Hr]; discriminate Hr).
    destruct Hresp as [[m Hr]|Hr];
      [|exfalso; exact (errorRedirect_not_submitted _ _ _ Hr)].
    apply errorRedirect_is_error in Hr as (_ & Hne & Hparse).
    destruct Hu as [Hu|Hu]; [contradiction|]. auto 6.
  - apply rejection_validated, validated_spec in Hrej.
    destruct Hrej as (Hm & Ho & Hp & Ha & _ & _ & _ & Hu & _).
    intros Hresp.
    assert (Hparse : url_Parse (form_field r "url") = Some u); [|auto 6].
    destruct (publish_response cfg tDate tFile r w) as [[msg Hr]|Hr];
      rewrite Hr in Hresp.
    + destruct Hresp as [[m He]|He];
        [|exfalso; exact (errorRedirect_not_submitted _ _ _ He)].
      apply errorRedirect_is_error in He. tauto.
    + destruct (url_Parse (form_field r "url")) as [u'|];
        destruct Hresp as [[m He]|He]; try discriminate He.
      injection He as ->. reflexivity.
Qed.

(** X8. [ServeHTTP] acts exactly for the submissions that pass all of its
    checks.  When a check fails, nothing is run or written and the answer is
    not the success redirect.  When all pass, something is run: first the
    look-up of the post when posts are checked, else the creation of the
    directory for the post's comments. *)
Theorem ServeHTTP_acts_iff_validated `{GoLib} (cfg : Config) (tDate tFile : UTCTime)
    (r : Request) (w : World) :
  let out := ServeHTTP cfg tDate tFile r w in
  (validated cfg r = false ->
   snd out = w /\ forall u, fst out <> RedirectSubmitted u) /\
  (validated cfg r = true ->
   exists res rest,
     history (snd out) =
       (history w ++ (first_action cfg (form_field r "slug"), res) :: rest)%list).
Proof.
  cbv zeta. rewrite ServeHTTP_checks. split.
  - intros Hv. destruct (rejection cfg r) as [resp|] eqn:Hrej.
    2:{ apply rejection_validated in Hrej. congruence. }
    cbn [fst snd]. split; [reflexivity|]. intros u ->.
    destruct (rejection_cases cfg r _ Hrej)
      as [(_ & He)|[(_ & _ & He)|[(_ & _ & _ & He)|[(_ & _ & _ & _ & _ & He)
          |(_ & _ & _ & _ & msg & He)]]]]; try discriminate He.
    symmetry in He. exact (errorRedirect_not_submitted _ _ _ He).
  - intros Hv. apply rejection_validated in Hv. rewrite Hv.
    unfold first_action.
    destruct (publish_cases cfg tDate tFile r w)
      as [(Hp & _ & _ & res & Hh)|(pre & w1 & Hpre & Hh1 & _ & Hcases)].
    { apply String.eqb_neq in Hp. rewrite Hp. exists res, []. exact Hh. }
    cbv zeta in Hcases.
    destruct (writeComment_outcome cfg tFile (comment_of tDate r) w1)
      as [(rd & restw & Hhw) _].
    cbn [Slug comment_of] in Hhw.
    assert (Hhist : exists tail,
      history (snd (publish cfg tDate tFile r w)) =
      (history w1 ++
       (MkdirAll (FullPath (filepath_Join (CommentsPath cfg) (form_field r "slug"))), rd)
       :: tail)%list).
    { destruct Hcases as [(_ & _ & ->)|(_ & -> & _)].
      - exists restw. exact Hhw.
      - destruct (CommitAndPush_outcome cfg
                    (fst (fst (writeComment cfg tFile (comment_of tDate r) w1)))
                    (form_field r "slug")
                    (snd (writeComment cfg tFile (comment_of tDate r) w1)))
          as (_ & tr & Hht & _).
        exists (restw ++ tr)%list. rewrite Hht, Hhw, <- app_assoc. reflexivity. }
    destruct Hhist as [tail Hhist]. rewrite Hhist, Hh1.
    destruct Hpre as [[Hp ->]|(Hp & matches & _ & ->)].
    + rewrite Hp. cbn [String.eqb]. rewrite app_nil_r. eauto.
    + apply String.eqb_neq in Hp. rewrite Hp. rewrite <- app_assoc. cbn [app]. eauto.
Qed.

(** X9. The success redirect is given only for a comment that was written and
    published: the record built from the trimmed fields was serialized and
    written to its file in the directory of the post's comments, that file
    was added and committed with the message naming the post, and the last
    command run is a push that succeeded.  Before that, the post was found
    when posts are checked. *)
Theorem ServeHTTP_submitted `{GoLib} (cfg : Config) (tDate tFile : UTCTime)
    (r : Request) (w : World) (u : URL) :
  let out := ServeHTTP cfg tDate tFile r w in
  fst out = RedirectSubmitted u ->
  validated cfg r = true /\ url_Parse (form_field r "url") = Some u /\
  exists pre b data o1 o2 o3 o4 o5 rest,
    let slug := form_field r "slug" in
    let relPath := record_path cfg slug tFile b in
    post_found cfg slug pre /\
    yaml_Marshal (comment_of tDate r) = Some data /\
    history (snd out) =
      (history w ++ pre ++
       [(MkdirAll (FullPath (filepath_Join (CommentsPath cfg) slug)), Ok o1);
        (RandRead 4, Ok b); (WriteFile (FullPath relPath) data, Ok o2);
        (pull cfg, Ok o3); (git_add cfg relPath, Ok o4);
        (git_commit cfg slug, Ok o5)] ++ rest)%list /\
    push_trace cfg 3 rest None /\
    (exists o, last rest = Some (push cfg, Ok o)) /\
    files (snd out) = <[FullPath relPath := data]> (files w).
Proof.
  cbv zeta. rewrite ServeHTTP_checks.
  destruct (rejection cfg r) as [resp|] eqn:Hrej.
  { cbn [fst]. intros ->.
    destruct (rejection_cases cfg r _ Hrej)
      as [(_ & He)|[(_ & _ & He)|[(_ & _ & _ & He)|[(_ & _ & _ & _ & _ & He)
          |(_ & _ & _ & _ & msg & He)]]]]; try discriminate He.
    symmetry in He. destruct (errorRedirect_not_submitted _ _ _ He). }
  intros Hout. split; [apply rejection_validated; exact Hrej|].
  destruct (publish_cases cfg tDate tFile r w)
    as [(_ & He & _)|(pre & w1 & Hpre & Hh1 & Hf1 & Hcases)].
  { rewrite He in Hout. destruct (errorRedirect_not_submitted _ _ _ Hout). }
  cbv zeta in Hcases.
  destruct Hcases as [(_ & He & _)|(Hw & Hsnd & [(_ & He)|(Hcp & He)])];
    try (rewrite He in Hout; destruct (errorRedirect_not_submitted _ _ _ Hout)).
  rewrite He in Hout.
  destruct (url_Parse (form_field r "url")) as [u'|]; [|discriminate Hout].
  injection Hout as ->. split; [reflexivity|].
  destruct (writeComment_outcome cfg tFile (comment_of tDate r) w1) as [_ Hwr].
  destruct (Hwr Hw) as (b & data & o1 & o2 & Hpath & Hdata & Hhw & Hfw).
  cbn [Slug comment_of] in Hpath, Hhw, Hfw.
  rewrite Hpath in Hcp, Hsnd. cbn [fst] in Hcp, Hsnd.
  destruct (CommitAndPush_outcome cfg
              (record_path cfg (form_field r "slug") tFile b) (form_field r "slug")
              (snd (writeComment cfg tFile (comment_of tDate r) w1)))
    as (Hfc & tr & Hhc & _ & _ & _ & Hok).
  destruct (Hok Hcp) as (o3 & o4 & o5 & rest & -> & Hpush).
  exists pre, b, data, o1, o2, o3, o4, o5, rest.
  split; [exact Hpre|]. split; [exact Hdata|].
  split.
  { rewrite Hsnd, Hhc, Hhw, Hh1. rewrite <- !app_assoc. reflexivity. }
  split; [exact Hpush|].
  split; [apply (push_trace_exhausted _ _ _ _ Hpush); reflexivity|].
  rewrite Hsnd, Hfc, Hfw, Hf1. reflexivity.
Qed.

(** X10. A comment that could not be published stays in the working copy:
    when the answer is the error redirect [Failed to publish comment], the
    record has been written to its file, what was run after that are git
    commands only, and the file is still there with the record in it. *)
Theorem ServeHTTP_publish_failed `{GoLib} (cfg : Config) (tDate tFile : UTCTime)
    (r : Request) (w : World) (u : URL) :
  let out := ServeHTTP cfg tDate tFile r w in
  fst out = RedirectError u "Failed to publish comment" ->
  exists pre b data o1 o2 tr,
    let slug := form_field r "slug" in
    let relPath := record_path cfg slug tFile b in
    yaml_Marshal (comment_of tDate r) = Some data /\
    history (snd out) =
      (history w ++ pre ++
       [(MkdirAll (FullPath (filepath_Join (CommentsPath cfg) slug)), Ok o1);
        (RandRead 4, Ok b); (WriteFile (FullPath relPath) data, Ok o2)] ++ tr)%list /\
    List.Forall (git_in_repo cfg) tr /\
    (exists res, tr !! 0%nat = Some (pull cfg, res)) /\
    files (snd out) !! FullPath relPath = Some data.
Proof.
  cbv zeta. rewrite ServeHTTP_checks.
  destruct (rejection cfg r) as [resp|] eqn:Hrej.
  { cbn [fst]. intros ->. apply rejection_messages in Hrej.
    cbn in Hrej. exfalso. intuition discriminate. }
  intros Hout.
  destruct (publish_cases cfg tDate tFile r w)
    as [(_ & He & _)|(pre & w1 & Hpre & Hh1 & Hf1 & Hcases)].
  { rewrite He in Hout. apply errorRedirect_is_error in Hout as [Hm _].
    discriminate Hm. }
  cbv zeta in Hcases.
  destruct Hcases as [(_ & He & _)|(Hw & Hsnd & [(Hcp & He)|(_ & He)])].
  { rewrite He in Hout. apply errorRedirect_is_error in Hout as [Hm _].
    discriminate Hm. }
  2:{ rewrite He in Hout. destruct (url_Parse (form_field r "url")); discriminate Hout. }
  destruct (writeComment_outcome cfg tFile (comment_of tDate r) w1) as [_ Hwr].
  destruct (Hwr Hw) as (b & data & o1 & o2 & Hpath & Hdata & Hhw & Hfw).
  cbn [Slug comment_of] in Hpath, Hhw, Hfw.
  rewrite Hpath in Hsnd. cbn [fst] in Hsnd.
  destruct (CommitAndPush_outcome cfg
              (record_path cfg (form_field r "slug") tFile b) (form_field r "slug")
              (snd (writeComment cfg tFile (comment_of tDate r) w1)))
    as (Hfc & tr & Hhc & Hgit & _ & Hfirst & _).
  exists pre, b, data, o1, o2, tr.
  split; [exact Hdata|].
  split.
  { rewrite Hsnd, Hhc, Hhw, Hh1. rewrite <- !app_assoc. reflexivity. }
  split; [exact Hgit|]. split; [exact Hfirst|].
  rewrite Hsnd, Hfc, Hfw. apply lookup_insert_eq.
Qed.

(** X11. The answer [Post not found] is given exactly for the submissions that
    pass the checks when posts are checked and the look-up of the post's file
    finds nothing, be it that no file matches or that the look-up fails.
    Then the look-up is all that was done. *)
Theorem ServeHTTP_post_not_found `{GoLib} (cfg : Config) (tDate tFile : UTCTime)
    (r : Request) (w : World) :
  let out := ServeHTTP cfg tDate tFile r w in
  let lookup := Glob (post_pattern cfg (form_field r "slug")) in
  ((exists u, fst out = RedirectError u "Post not found") <->
   validated cfg r = true /\ PostsPath cfg <> "" /\
   nothing_found (env w (history w) lookup)) /\
  (forall u, fst out = RedirectError u "Post not found" ->
   snd out = logged w (files w) lookup (env w (history w) lookup)).
Proof.
  cbv zeta. rewrite ServeHTTP_checks.
  destruct (rejection cfg r) as [resp|] eqn:Hrej.
  { assert (Hno : forall u, resp <> RedirectError u "Post not found").
    { intros u ->. apply rejection_messages in Hrej. cbn in Hrej.
      intuition discriminate. }
    cbn [fst snd]. split; [split|].
    - intros [u Hu]. destruct (Hno u Hu).
    - intros (Hv & _). apply rejection_validated in Hv. congruence.
    - intros u Hu. destruct (Hno u Hu). }
  pose proof Hrej as Hv. apply rejection_validated in Hv.
  destruct (validated_spec cfg r Hv) as (_ & _ & _ & Ha & _ & _ & _ & Hu & _).
  split; [split|].
  - intros [u Hf]. split; [exact Hv|]. exact (publish_found _ _ _ _ _ _ Hf).
  - intros (_ & Hp & Hres). rewrite (publish_not_found _ _ _ _ _ Hp Hres). cbn [fst].
    unfold isAllowedRedirect in Ha.
    destruct (errorRedirect_cases (form_field r "url") "Post not found")
      as [(u & _ & _ & ->)|He]; [eauto|].
    unfold errorRedirect in He. apply String.eqb_neq in Hu. rewrite Hu in He.
    cbn [negb] in He. destruct (url_Parse (form_field r "url")); discriminate.
  - intros u Hf. destruct (publish_found _ _ _ _ _ _ Hf) as [Hp Hres].
    rewrite (publish_not_found _ _ _ _ _ Hp Hres). reflexivity.
Qed.

(** X12. A comment that could not be saved is not committed: when the answer
    is the error redirect [Failed to save comment], no subprocess has been
    run, so that git was not called. *)
Theorem ServeHTTP_save_failed `{GoLib} (cfg : Config) (tDate tFile : UTCTime)
    (r : Request) (w : World) (u : URL) :
  let out := ServeHTTP cfg tDate tFile r w in
  fst out = RedirectError u "Failed to save comment" ->
  validated cfg r = true /\
  exists tr,
    history (snd out) = (history w ++ tr)%list /\
    tr <> [] /\
    List.Forall (fun e => is_run (fst e) = false) tr.
Proof.
  cbv zeta. rewrite ServeHTTP_checks.
  destruct (rejection cfg r) as [resp|] eqn:Hrej.
  { cbn [fst]. intros ->. apply rejection_messages in Hrej.
    cbn in Hrej. exfalso. intuition discriminate. }
  intros Hout. split; [apply rejection_validated; exact Hrej|].
  destruct (publish_cases cfg tDate tFile r w)
    as [(_ & He & _)|(pre & w1 & Hpre & Hh1 & Hf1 & Hcases)].
  { rewrite He in Hout. apply errorRedirect_is_error in Hout as [Hm _].
    discriminate Hm. }
  cbv zeta in Hcases.
  destruct Hcases as [(_ & _ & Hsnd)|(_ & _ & [(_ & He)|(_ & He)])].
  2:{ rewrite He in Hout. apply errorRedirect_is_error in Hout as [Hm _].
      discriminate Hm. }
  2:{ rewrite He in Hout. destruct (url_Parse (form_field r "url")); discriminate Hout. }
  destruct (writeComment_no_run cfg tFile (comment_of tDate r) w1) as (tr & Hh & Hno).
  destruct (writeComment_outcome cfg tFile (comment_of tDate r) w1)
    as [(rd & rest & Hfirst) _].
  exists (pre ++ tr)%list. split; [rewrite Hsnd, Hh, Hh1, app_assoc; reflexivity|].
  split.
  { rewrite Hh in Hfirst. apply app_inv_head in Hfirst. rewrite Hfirst.
    destruct pre; discriminate. }
  apply List.Forall_app. split; [|exact Hno].
  destruct Hpre as [[_ ->]|(_ & matches & _ & ->)]; repeat constructor.
Qed.

End HandlerMore.

(** ** The repository synchronizer, further *)

Module GitMore.
Import GoString GoStringFacts Sys Git GitSpec GitFacts HostKeyFacts CloneFacts.

Lemma Contains_byte (s : string) (c : ascii) :
  Contains s (String c "") = true <-> InStr c s.
Proof.
  induction s as [|a s IH]; cbn [Contains HasPrefix].
  - split; [discriminate | intros Hin; destruct (InStr_empty _ Hin)].
  - rewrite orb_true_iff, IH, InStr_cons, andb_true_r, Ascii.eqb_eq.
    intuition congruence.
Qed.

(** [strings.SplitN(s, sep, 2)] cuts at the first separator. *)
Lemma SplitN2_found (s : string) (sep : ascii) :
  InStr sep s ->
  exists pre post,
    s = pre +:+ String sep post /\ ~ InStr sep pre /\ SplitN2 s sep = [pre; post].
Proof.
  induction s as [|c s IH]; intros Hin; [destruct (InStr_empty _ Hin)|].
  cbn [SplitN2]. destruct (Ascii.eqb_spec c sep) as [->|Hne].
  - exists "", s. split; [reflexivity|]. split; [apply InStr_empty | reflexivity].
  - apply InStr_cons in Hin. destruct Hin as [Hc|Hin]; [contradiction|].
    destruct (IH Hin) as (pre & post & -> & Hno & ->).
    exists (String c pre), post. split; [reflexivity|]. split; [|reflexivity].
    intros Hc. apply InStr_cons in Hc. destruct Hc as [Hc|Hc]; [congruence|].
    exact (Hno Hc).
Qed.

Lemma SplitN2_missing (s : string) (sep : ascii) :
  ~ InStr sep s -> SplitN2 s sep = [s].
Proof.
  induction s as [|c s IH]; intros Hno; [reflexivity|].
  cbn [SplitN2]. destruct (Ascii.eqb_spec c sep) as [->|Hne].
  - exfalso. apply Hno. apply InStr_cons. auto.
  - rewrite IH; [reflexivity|]. intros Hin. apply Hno. apply InStr_cons. auto.
Qed.

(** X13. A remote that [extractHost] takes for the SSH form (it contains [@]
    and [:], and not [://]) is cut in two at its first [@], so that the
    second part that the code indexes is there; the host returned is the text
    that follows that [@], up to the next [:] or else to the end, and it
    contains no [:]. *)
Theorem extractHost_ssh_form `{GoLib} (repo : string) :
  Contains repo "@" = true -> Contains repo ":" = true ->
  Contains repo "://" = false ->
  exists user rest,
    repo = user +:+ "@" +:+ rest /\ ~ InStr "@" user /\
    SplitN2 repo "@" = [user; rest] /\
    ~ InStr ":" (extractHost repo) /\
    ((~ InStr ":" rest /\ extractHost repo = rest) \/
     (exists path, rest = extractHost repo +:+ ":" +:+ path)).
Proof.
  intros Hat Hcolon Hscheme. unfold extractHost.
  rewrite Hat, Hcolon, Hscheme. cbn [andb negb]. cbv zeta.
  apply Contains_byte in Hat.
  destruct (SplitN2_found repo "@" Hat) as (user & rest & Hrepo & Hno & Hsplit).
  exists user, rest. rewrite Hsplit. cbn [nth].
  split; [exact Hrepo|]. split; [exact Hno|]. split; [reflexivity|].
  destruct (mem_byte ":" rest) eqn:Hm.
  - apply mem_byte_InStr in Hm.
    destruct (SplitN2_found rest ":" Hm) as (host & path & Hrest & Hnoc & ->).
    cbn [nth]. split; [exact Hnoc|]. right. exists path. exact Hrest.
  - assert (Hnoc : ~ InStr ":" rest).
    { intros Hin. apply mem_byte_InStr in Hin. congruence. }
    rewrite (SplitN2_missing rest ":" Hnoc). cbn [nth]. auto.
Qed.

(** Lines: appending to a text makes its first line longer, or leaves it, and
    keeps every line that is listed. *)
Lemma Split_lines_nonempty (s : string) : exists h t, Split_lines s = h :: t.
Proof.
  induction s as [|c s (h & t & IH)]; cbn [Split_lines]; [eauto|].
  destruct (Ascii.eqb c "010"); [eauto|]. rewrite IH. eauto.
Qed.

Lemma Split_lines_grow (f : string -> bool) (a b : string) :
  (forall l x, f l = true -> f (l +:+ x) = true) ->
  exists h t x t',
    Split_lines a = h :: t /\ Split_lines (a +:+ b) = (h +:+ x) :: t' /\
    (existsb f t = true -> existsb f t' = true).
Proof.
  intros Hf. induction a as [|c a (h & t & x & t' & Ha & Hab & Ht)].
  - destruct (Split_lines_nonempty b) as (bh & bt & Hb).
    exists "", [], bh, bt. split; [reflexivity|]. split; [exact Hb|]. discriminate.
  - change (String c a +:+ b) with (String c (a +:+ b)). cbn [Split_lines].
    rewrite Ha, Hab. destruct (Ascii.eqb c "010").
    + exists "", (h :: t), "", ((h +:+ x) :: t').
      split; [reflexivity|]. split; [reflexivity|].
      cbn [existsb]. rewrite !orb_true_iff. intros [Hh|Hr]; [left; auto | right; auto].
    + exists (String c h), t, x, t'. split; [reflexivity|]. split; [reflexivity|].
      exact Ht.
Qed.

Lemma HasPrefix_grow (l x p : string) :
  HasPrefix l p = true -> HasPrefix (l +:+ x) p = true.
Proof.
  rewrite !HasPrefix_app. intros [post ->]. exists (post +:+ x).
  apply append_assoc.
Qed.

(** A host that is listed in a store is listed in the store with more text
    at its end. *)
Lemma known_in_grow (host data more : string) :
  known_in host data = true -> known_in host (data +:+ more) = true.
Proof.
  unfold known_in.
  set (f := fun line => HasPrefix line (host +:+ " ") || HasPrefix line (host +:+ ",")).
  assert (Hf : forall l x, f l = true -> f (l +:+ x) = true).
  { intros l x. unfold f. rewrite !orb_true_iff.
    intros [Hl|Hl]; [left | right]; apply HasPrefix_grow; exact Hl. }
  destruct (Split_lines_grow f data more Hf) as (h & t & x & t' & -> & -> & Ht).
  cbn [existsb]. rewrite !orb_true_iff. intros [Hh|Hr]; [left; auto | right; auto].
Qed.

(** The files after [scanAndAppendHostKeys]: as before, or with the scan's
    output at the end of the store. *)
Lemma scanAndAppendHostKeys_files `{GoLib} (host : string) (w : World) :
  files (snd (scanAndAppendHostKeys host w)) = files w \/
  exists keys, files (snd (scanAndAppendHostKeys host w)) = store_appended (files w) keys.
Proof.
  unfold scanAndAppendHostKeys, scanHostKeys.
  rewrite !bind_eq, perform_plain by reflexivity.
  destruct (env w (history w) (Keyscan host)) as [keys|e];
    rewrite mret_eq; cbv beta iota zeta; cbn [fst snd]; [|rewrite mret_eq; auto].
  set (w1 := logged w _ _ _).
  rewrite bind_eq, perform_plain by reflexivity.
  destruct (env w1 (history w1) _) as [o2|e]; cbv beta iota zeta;
    [|rewrite mret_eq; auto].
  set (w2 := logged w1 _ _ _).
  rewrite bind_eq, perform_plain by reflexivity.
  destruct (env w2 (history w2) _) as [o3|e]; cbv beta iota zeta;
    [|rewrite mret_eq; auto].
  set (w3 := logged w2 _ _ _).
  rewrite bind_eq, perform_WriteAppend. cbv beta iota zeta.
  destruct (env w3 (history w3) _) as [o4|e]; cbv beta iota zeta; rewrite mret_eq;
    cbn [snd is_ok files logged]; [right; exists keys; reflexivity | auto].
Qed.

(** X14. [ensureHostKeys] only ever adds to the trust store: a host that is
    listed in the store before the call is listed in it after the call,
    however the call ends. *)
Theorem ensureHostKeys_keeps_entries `{GoLib} (cfg : Config) (w : World)
    (host data : string) :
  files w !! knownHostsPath = Some data -> known_in host data = true ->
  exists data',
    files (snd (ensureHostKeys cfg w)) !! knownHostsPath = Some data' /\
    known_in host data' = true.
Proof.
  intros Hdata Hknown.
  assert (Hfiles : files (snd (ensureHostKeys cfg w)) = files w \/
    exists keys, files (snd (ensureHostKeys cfg w)) = store_appended (files w) keys).
  { unfold ensureHostKeys. destruct (SSHInsecure cfg); [auto|].
    destruct (String.eqb _ ""); [auto|]. rewrite bind_eq.
    destruct (hostInKnownHosts_spec (extractHost (GitRepo cfg)) w) as (r0 & -> & _).
    destruct (listed _ r0); [auto|].
    apply (scanAndAppendHostKeys_files _
             (logged w (files w) (ReadFile knownHostsPath) r0)). }
  destruct Hfiles as [->|[keys ->]].
  - exists data. auto.
  - exists (data +:+ keys). unfold store_appended.
    rewrite lookup_insert_eq, Hdata. split; [reflexivity|].
    apply known_in_grow. exact Hknown.
Qed.

(** X15. With host checking disabled, [Clone] leaves the trust store out of
    it and does not retry: all it does is test for the working copy, create
    the directory, and run git with the SSH command that checks no host key;
    it clones at most once, and a clone that fails is the last action, whose
    error is returned. *)
Theorem Clone_insecure `{GoLib} (cfg : Config) (w : World) :
  SSHInsecure cfg = true ->
  let out := Clone cfg w in
  exists tr,
    history (snd out) = (history w ++ tr)%list /\
    (count_action (clone cfg) tr <= 1)%nat /\
    (forall a r, In (a, r) tr ->
       a = Stat git_dir \/ a = MkdirAll repoDir \/
       exists dir args,
         a = Run dir "git" args
               ("ssh -i " +:+ SSHKeyPath cfg +:+
                " -o StrictHostKeyChecking=no -o UserKnownHostsFile=/dev/null")) /\
    (forall e, In (clone cfg, Err e) tr ->
       last tr = Some (clone cfg, Err e) /\ fst out = wrap_err "git clone" e).
Proof.
  intros Hs. cbv zeta.
  destruct (Clone_follows_protocol cfg w) as (pre & tr & Hh & Hpre & _ & Hp).
  assert (Hnil : pre = []).
  { unfold ensureHostKeys in Hpre. rewrite Hs in Hpre.
    change (history w = (history w ++ pre)%list) in Hpre.
    apply (app_inv_head (history w)). rewrite app_nil_r. symmetry. exact Hpre. }
  subst pre. cbn [app] in Hh. exists tr. split; [exact Hh|].
  assert (Hgit : forall dir args,
    exists dir' args', git cfg dir args =
      Run dir' "git" args'
        ("ssh -i " +:+ SSHKeyPath cfg +:+
         " -o StrictHostKeyChecking=no -o UserKnownHostsFile=/dev/null")).
  { intros dir args. exists dir, args. unfold git, sshCommand. rewrite Hs. reflexivity. }
  assert (Hid : forall itr err, identity_trace cfg itr err ->
    count_action (clone cfg) itr = 0%nat /\
    (forall a r, In (a, r) itr ->
       exists dir args, a = Run dir "git" args
         ("ssh -i " +:+ SSHKeyPath cfg +:+
          " -o StrictHostKeyChecking=no -o UserKnownHostsFile=/dev/null")) /\
    (forall e, ~ In (clone cfg, Err e) itr)).
  { intros itr err Hi. split; [exact (identity_trace_no_clone _ _ _ Hi)|].
    destruct Hi; split; intros; cbn [In] in *;
      repeat match goal with
      | Hin : _ \/ _ |- _ => destruct Hin as [Hin|Hin]
      | Hin : (_, _) = (_, _) |- _ => injection Hin as <- <-
      | Hin : False |- _ => destruct Hin
      end; try apply Hgit; try discriminate;
      intros Hin; repeat destruct Hin as [Hin|Hin]; try discriminate Hin;
      try destruct Hin. }
  remember (fst (Clone cfg w)) as result eqn:Hresult. clear Hresult.
  inversion Hp as [o r| e0 e | e0 o1 o2 itr err Hi | e0 o1 e _
                  | e0 o1 e rtr Hs' | e0 o1 e rtr e' Hs' | e0 o1 e rtr o3 e' Hs'
                  | e0 o1 e rtr o3 o4 e' Hs' | e0 o1 e rtr o3 o4 o5 itr err Hs'];
    subst; try congruence.
  - (* pulled *)
    split; [count_clones; cbn; lia|]. split.
    + intros a r' [[= <- <-]|[[= <- <-]|[]]]; [auto | right; right; apply Hgit].
    + intros e [Hin|[Hin|[]]]; discriminate Hin.
  - (* the directory could not be created *)
    split; [count_clones; cbn; lia|]. split.
    + intros a r' [[= <- <-]|[[= <- <-]|[]]]; auto.
    + intros e' [Hin|[Hin|[]]]; discriminate Hin.
  - (* cloned *)
    destruct (Hid _ _ Hi) as (Hc & Hrun & Hno).
    split; [count_clones; rewrite Hc; cbn; lia|]. split.
    + intros a r' [[= <- <-]|[[= <- <-]|[[= <- <-]|Hin]]];
        [auto | auto | right; right; apply Hgit | right; right; exact (Hrun _ _ Hin)].
    + intros e' [Hin|[Hin|[Hin|Hin]]]; try discriminate Hin.
      destruct (Hno _ Hin).
  - (* the clone failed *)
    split; [count_clones; cbn; lia|]. split.
    + intros a r' [[= <- <-]|[[= <- <-]|[[= <- <-]|[]]]];
        [auto | auto | right; right; apply Hgit].
    + intros e' [Hin|[Hin|[Hin|[]]]]; try discriminate Hin.
      injection Hin as <-. auto.
Qed.

End GitMore.

(** ** Random identifiers *)

Module HexFacts.
Import GoString GoStringFacts GoFmt Sys Git GitFacts HostKeyFacts Handler WriterFacts.

Lemma hex_digit_inj (m n : Z) :
  0 <= m < 16 -> 0 <= n < 16 -> hex_digit m = hex_digit n -> m = n.
Proof.
  intros Hm Hn. unfold hex_digit.
  destruct (Z.ltb_spec m 10), (Z.ltb_spec n 10); intros Heq;
    apply (f_equal N_of_ascii) in Heq;
    rewrite !N_ascii_embedding in Heq by lia; lia.
Qed.

Lemma hex_digit_alphabet (n : Z) :
  0 <= n < 16 -> mem_byte (hex_digit n) "0123456789abcdef" = true.
Proof.
  intros Hn.
  assert (Hall : forallb (fun k => mem_byte (hex_digit (Z.of_nat k)) "0123456789abcdef")
                   (List.seq 0 16) = true) by reflexivity.
  rewrite forallb_forall in Hall. specialize (Hall (Z.to_nat n)).
  rewrite Z2Nat.id in Hall by lia. apply Hall. apply in_seq. lia.
Qed.

Lemma byte_val_inj (c d : ascii) : byte_val c = byte_val d -> c = d.
Proof.
  unfold byte_val. intros Heq. apply N2Z.inj in Heq.
  rewrite <- (ascii_N_embedding c), <- (ascii_N_embedding d), Heq. reflexivity.
Qed.

Lemma nibbles (v : Z) : 0 <= v < 256 -> 0 <= v / 16 < 16 /\ 0 <= v mod 16 < 16.
Proof. intros Hv. split; [|apply Z.mod_pos_bound; lia]. Z.div_mod_to_equations; lia. Qed.

(** Different bytes print differently. *)
Lemma hex_inj (a b : string) : hex a = hex b -> a = b.
Proof.
  revert b. induction a as [|c a IH]; intros [|d b]; cbn [hex]; try discriminate;
    [reflexivity|].
  intros [= Hhi Hlo Hrest].
  destruct (nibbles _ (byte_val_range c)) as [Hc1 Hc2].
  destruct (nibbles _ (byte_val_range d)) as [Hd1 Hd2].
  apply hex_digit_inj in Hhi; [|assumption..].
  apply hex_digit_inj in Hlo; [|assumption..].
  f_equal; [|apply IH; exact Hrest].
  apply byte_val_inj.
  rewrite (Z.div_mod (byte_val c) 16), (Z.div_mod (byte_val d) 16) by lia.
  rewrite Hhi, Hlo. reflexivity.
Qed.

Lemma hex_alphabet (b : string) (c : ascii) :
  InStr c (hex b) -> InStr c "0123456789abcdef".
Proof.
  induction b as [|d b IH]; cbn [hex]; intros Hin; [destruct (InStr_empty _ Hin)|].
  destruct (nibbles _ (byte_val_range d)) as [H1 H2].
  apply InStr_cons in Hin. destruct Hin as [<-|Hin].
  { apply mem_byte_InStr, hex_digit_alphabet. exact H1. }
  apply InStr_cons in Hin. destruct Hin as [<-|Hin].
  { apply mem_byte_InStr, hex_digit_alphabet. exact H2. }
  apply IH. exact Hin.
Qed.

(** X16. When [randomHex n] succeeds it has read [n] random bytes, and
    nothing else happened; its result has [2 n] characters, all of them
    digits or letters from [a] to [f], and it determines the bytes: other
    bytes give another result.  When it fails, its result is empty. *)
Theorem randomHex_spec (n : nat) (w : World) :
  let out := randomHex n w in
  (forall id, fst out = (id, None) ->
     String.length id = (2 * n)%nat /\
     (forall c, InStr c id -> InStr c "0123456789abcdef") /\
     exists b,
       snd out = logged w (files w) (RandRead n) (Ok b) /\
       id = hex (fit n b) /\
       (forall b', hex (fit n b') = id -> fit n b' = fit n b)) /\
  (forall id e, fst out = (id, Some e) -> id = "").
Proof.
  cbv zeta. unfold randomHex. rewrite bind_eq, perform_plain by reflexivity.
  destruct (env w (history w) (RandRead n)) as [b|e]; rewrite mret_eq; cbn [fst snd].
  - split; [|discriminate]. intros id [= <-].
    split; [rewrite hex_length, fit_length; reflexivity|].
    split; [apply hex_alphabet|].
    exists b. split; [reflexivity|]. split; [reflexivity|].
    intros b' Hb'. apply hex_inj. exact Hb'.
  - split; [discriminate|]. intros id e' [= <- _]. reflexivity.
Qed.

End HexFacts.

(** ** The names of the record files *)

Module RecordNames.
Import GoString GoStringFacts GoFmt Sys Git Handler HandlerSpec WriterFacts.
Import HandlerMore HexFacts.

Lemma InStr_app (c : ascii) (a b : string) :
  InStr c (a +:+ b) <-> InStr c a \/ InStr c b.
Proof.
  induction a as [|d a IH].
  - change ("" +:+ b) with b. split; [auto|]. intros [Hin|Hin]; [|exact Hin].
    destruct (InStr_empty _ Hin).
  - change (String d a +:+ b) with (String d (a +:+ b)).
    rewrite !InStr_cons, IH. tauto.
Qed.

Lemma digit_alphabet (n : Z) : mem_byte (digit n) "0123456789" = true.
Proof.
  assert (Hall : forallb (fun k => mem_byte (digit (Z.of_nat k)) "0123456789")
                   (List.seq 0 10) = true) by reflexivity.
  rewrite forallb_forall in Hall.
  assert (Hn : 0 <= n mod 10 < 10) by (apply Z.mod_pos_bound; lia).
  specialize (Hall (Z.to_nat (n mod 10))).
  unfold digit in *. rewrite Z2Nat.id, Z.mod_mod in Hall by lia.
  apply Hall. apply in_seq. lia.
Qed.

Lemma pad2_digits (n : Z) (c : ascii) : InStr c (pad2 n) -> InStr c "0123456789".
Proof.
  unfold pad2. intros Hin. apply InStr_cons in Hin. destruct Hin as [<-|Hin].
  { apply mem_byte_InStr, digit_alphabet. }
  apply InStr_cons in Hin. destruct Hin as [<-|Hin].
  { apply mem_byte_InStr, digit_alphabet. }
  destruct (InStr_empty _ Hin).
Qed.

(** The stamp is made of digits. *)
Lemma format_compact_digits (t : UTCTime) (c : ascii) :
  InStr c (format_compact t) -> InStr c "0123456789".
Proof.
  unfold format_compact, pad4. rewrite !InStr_app.
  intros [[Hin|Hin]|[Hin|[Hin|[Hin|[Hin|Hin]]]]]; apply (pad2_digits _ _ Hin).
Qed.

Lemma alphabet_wider (c : ascii) (small large : string) :
  (forall d, mem_byte d small = true -> mem_byte d large = true) ->
  InStr c small -> InStr c large.
Proof. intros Hsub Hin. apply mem_byte_InStr, Hsub, mem_byte_InStr, Hin. Qed.

Lemma mem_byte_sub (small large : string) :
  forallb (fun d => mem_byte d large) (list_ascii_of_string small) = true ->
  forall d, mem_byte d small = true -> mem_byte d large = true.
Proof.
  intros Hall d Hd. rewrite forallb_forall in Hall. apply Hall.
  apply mem_byte_InStr in Hd. exact Hd.
Qed.

(** X20. The file that [writeComment] writes has a safe name: the name it
    joins to the directory of the post's comments has 27 characters, all of
    them digits, letters from [a] to [f], or characters of [-] and [.yml],
    so that it holds no path separator and is a single path component. *)
Theorem writeComment_file_name `{GoLib} (cfg : Config) (now : UTCTime) (c : Comment)
    (w : World) (relPath : string) :
  fst (writeComment cfg now c w) = (relPath, None) ->
  exists name,
    relPath = filepath_Join (filepath_Join (CommentsPath cfg) (Slug c)) name /\
    String.length name = 27%nat /\
    (forall ch, InStr ch name -> InStr ch "0123456789abcdef-.yml") /\
    ContainsAny name "/\" = false.
Proof.
  intros Hout.
  destruct (writeComment_outcome cfg now c w) as [_ Hok].
  destruct Hok as (b & data & o1 & o3 & Hpath & _); [rewrite Hout; reflexivity|].
  rewrite Hout in Hpath. injection Hpath as ->.
  unfold record_path.
  set (name := format_compact now +:+ "-" +:+ hex (fit 4 b) +:+ ".yml").
  assert (Halpha : forall ch, InStr ch name -> InStr ch "0123456789abcdef-.yml").
  { intros ch. unfold name. rewrite !InStr_app. intros [Hin|[Hin|[Hin|Hin]]].
    - apply (alphabet_wider ch "0123456789"); [apply mem_byte_sub; reflexivity|].
      exact (format_compact_digits _ _ Hin).
    - apply (alphabet_wider ch "-"); [apply mem_byte_sub; reflexivity | exact Hin].
    - apply (alphabet_wider ch "0123456789abcdef"); [apply mem_byte_sub; reflexivity|].
      exact (hex_alphabet _ _ Hin).
    - apply (alphabet_wider ch ".yml"); [apply mem_byte_sub; reflexivity | exact Hin]. }
  exists name. split; [reflexivity|]. split; [|split; [exact Halpha|]].
  - unfold name. rewrite !append_length, format_compact_length, hex_length, fit_length.
    reflexivity.
  - destruct (ContainsAny name "/\") eqn:Hany; [|reflexivity].
    apply ContainsAny_spec in Hany. destruct Hany as (ch & Hin & Hsep).
    apply Halpha in Hin. apply mem_byte_InStr in Hin, Hsep.
    exfalso. cbn [mem_byte] in Hsep. rewrite orb_false_r in Hsep.
    apply orb_true_iff in Hsep. destruct Hsep as [He|He];
      apply Ascii.eqb_eq in He; subst ch; discriminate Hin.
Qed.

End RecordNames.

(** ** The content check *)

Module ContentFacts.
Import GoString GoStringFacts SpamContent.

Lemma link_at_starts (s : string) :
  starts_link s = match link_at s with Some _ => true | None => false end.
Proof.
  unfold starts_link, link_at.
  destruct (HasPrefix s "http://"); [reflexivity|].
  destruct (HasPrefix s "https://"); reflexivity.
Qed.

(** Passing over the rest of a match, no start of a link is missed: the
    count from the next offset on is the number of the places where a link
    starts. *)
Lemma count_links_link_starts (n : nat) (s : string) :
  (String.length s <= n)%nat -> count_links_from 0 s = link_starts s.
Proof.
  revert s. induction n as [|n IH]; intros s Hlen.
  { destruct s; [reflexivity | cbn [String.length] in Hlen; lia]. }
  destruct s as [|c s]; [reflexivity|].
  cbn [String.length] in Hlen.
  unfold link_starts. cbn [count_links_from suffixes List.filter].
  rewrite link_at_starts. unfold link_at.
  destruct (HasPrefix (String c s) "http://") eqn:H7.
  { apply HasPrefix_app in H7. destruct H7 as [post H7].
    injection H7 as -> ->. cbn [pred List.length].
    rewrite WriterFacts.append_length in Hlen. cbn [String.length] in Hlen.
    change ("ttp://" +:+ post)
      with (String "t" (String "t" (String "p" (String ":" (String "/"
             (String "/" post)))))).
    cbn [count_links_from suffixes List.filter starts_link HasPrefix Ascii.eqb
         Bool.eqb andb orb].
    cbn. f_equal. apply IH. lia. }
  destruct (HasPrefix (String c s) "https://") eqn:H8.
  { apply HasPrefix_app in H8. destruct H8 as [post H8].
    injection H8 as -> ->. cbn [pred List.length].
    rewrite WriterFacts.append_length in Hlen. cbn [String.length] in Hlen.
    change ("ttps://" +:+ post)
      with (String "t" (String "t" (String "p" (String "s" (String ":"
             (String "/" (String "/" post))))))).
    cbn. f_equal. apply IH. lia. }
  apply IH. lia.
Qed.

(** X17. [checkBodyContent] accepts a body exactly when it has not too many
    links and matches no blocked pattern, where the links counted are the
    places where [http://] or [https://] starts, and a maximum of zero or
    less means that links are not counted.  Too many links are reported
    first, with the maximum in the message. *)
Theorem checkBodyContent_spec `{GoRegexp} (body : string) (maxLinks : Z)
    (blockedPatterns : list Regexp) :
  let too_many := 0 < maxLinks /\ maxLinks < Z.of_nat (link_starts body) in
  let blocked := exists re, In re blockedPatterns /\ MatchString re body = true in
  (checkBodyContent body maxLinks blockedPatterns = "" <-> ~ too_many /\ ~ blocked) /\
  (too_many ->
   checkBodyContent body maxLinks blockedPatterns =
     "Too many links (max " +:+ decimal maxLinks +:+ ")") /\
  (~ too_many -> blocked ->
   checkBodyContent body maxLinks blockedPatterns = "Comment contains blocked content").
Proof.
  cbv zeta. unfold checkBodyContent, count_links.
  rewrite (count_links_link_starts (String.length body) body) by lia.
  destruct (Z.ltb_spec 0 maxLinks) as [Hpos|Hpos];
    destruct (Z.ltb_spec maxLinks (Z.of_nat (link_starts body))) as [Hmany|Hmany];
    cbn [andb].
  1:{ split; [|split; [reflexivity | intros Hn; destruct Hn; auto]].
      split; [discriminate | intros [Hn _]; destruct Hn; auto]. }
  all: destruct (existsb _ blockedPatterns) eqn:Hb;
    [apply existsb_exists in Hb
    |assert (Hnb : ~ exists re, In re blockedPatterns /\ MatchString re body = true)
       by (intros Hex; apply existsb_exists in Hex; congruence)].
  all: split;
    [split; [first [discriminate | intros _; split; [lia | exact Hnb]]
            |first [intros [_ Hn]; destruct (Hn Hb) | intros; reflexivity]]
    |split; [intros; lia
            |first [intros _ Hex; destruct (Hnb Hex) | intros; reflexivity]]].
Qed.

End ContentFacts.

(** ** The loader of the configuration *)

Module LoaderFacts.
Import GoString GoStringFacts GoInt Loader.

Lemma ParseInt_range (s : string) (n : Z) :
  ParseInt s = Some n -> min_int64 <= n <= max_int64.
Proof.
  unfold ParseInt. destruct s as [|c rest]; [discriminate|].
  destruct (if Ascii.eqb c "+" then (false, rest)
            else if Ascii.eqb c "-" then (true, rest) else (false, String c rest))
    as [neg ds].
  destruct ds; [discriminate|].
  destruct (parse_digits 0 _) as [un|]; [|discriminate].
  destruct (_ && _) eqn:Hr; [|discriminate].
  intros [= <-]. apply andb_true_iff in Hr. lia.
Qed.

Lemma envOrDefault_nonempty (getenv : Environ) (key fallback : string) :
  fallback <> "" -> envOrDefault getenv key fallback <> "".
Proof.
  intros Hf. unfold envOrDefault.
  destruct (String.eqb_spec (getenv key) ""); cbn [negb]; assumption.
Qed.

Lemma load_count_spec (getenv : Environ) (key fallback : string) (n : Z) :
  load_count getenv key fallback = inl n <-> valid_count getenv key fallback n.
Proof.
  unfold load_count, valid_count.
  destruct (Atoi (envOrDefault getenv key fallback)) as [m|] eqn:Ha.
  - pose proof (ParseInt_range _ _ Ha) as Hr.
    destruct (Z.ltb_spec m 0); split.
    + discriminate.
    + intros [[= <-] Hn]. lia.
    + intros [= <-]. split; [reflexivity | lia].
    + intros [[= <-] _]. reflexivity.
  - split; [discriminate | intros [Hn _]; discriminate].
Qed.

Lemma load_count_fails (getenv : Environ) (key fallback : string) :
  (exists e, load_count getenv key fallback = inr e) <->
  ~ exists n, valid_count getenv key fallback n.
Proof.
  destruct (load_count getenv key fallback) as [n|e] eqn:Hl.
  - apply load_count_spec in Hl. split.
    + intros [e He]. discriminate.
    + intros Hn. destruct Hn. eauto.
  - split; [|eauto]. intros _ [n Hn]. apply load_count_spec in Hn. congruence.
Qed.

(** The loop over the origins keeps the entries that are not blank, trimmed
    and in order, when each of them is a valid origin, and fails otherwise. *)
Lemma load_origins_spec `{GoLib} `{GoRegexp} (entries : list string) :
  match load_origins entries with
  | inl origins =>
    origins = List.filter (fun e => negb (String.eqb e "")) (List.map TrimSpace entries) /\
    List.Forall valid_origin origins
  | inr _ =>
    ~ List.Forall valid_origin
        (List.filter (fun e => negb (String.eqb e "")) (List.map TrimSpace entries))
  end.
Proof.
  induction entries as [|o rest IH]; cbn [load_origins List.map List.filter].
  - split; [reflexivity | constructor].
  - destruct (String.eqb_spec (TrimSpace o) "") as [He|He]; cbn [negb]; [exact IH|].
    destruct (url_Parse (TrimSpace o)) as [u|] eqn:Hu.
    + destruct (String.eqb_spec (Scheme u) "") as [Hs|Hs]; cbn [orb].
      { intros Hall. inversion Hall as [|? ? (u' & Hu' & Hs' & _) _]; subst.
        congruence. }
      destruct (String.eqb_spec (Host u) "") as [Hh|Hh].
      { intros Hall. inversion Hall as [|? ? (u' & Hu' & _ & Hh') _]; subst.
        congruence. }
      destruct (load_origins rest) as [origins|e].
      * destruct IH as [-> Hall]. split; [reflexivity|].
        constructor; [exists u; auto | exact Hall].
      * intros Hall. inversion Hall; subst. contradiction.
    + intros Hall. inversion Hall as [|? ? (u' & Hu' & _) _]; subst. congruence.
Qed.

(** The loop over the patterns compiles the entries that are not blank,
    trimmed and in order, each without regard to case, and fails when one of
    them does not compile. *)
Lemma load_patterns_spec `{GoLib} `{GoRegexp} (entries : list string) :
  match load_patterns entries with
  | inl res =>
    List.Forall2 (fun p re => regexp_Compile ("(?i)" +:+ p) = inl re)
      (List.filter (fun e => negb (String.eqb e "")) (List.map TrimSpace entries)) res
  | inr _ =>
    ~ List.Forall (fun p => exists re, regexp_Compile ("(?i)" +:+ p) = inl re)
        (List.filter (fun e => negb (String.eqb e "")) (List.map TrimSpace entries))
  end.
Proof.
  induction entries as [|p rest IH]; cbn [load_patterns List.map List.filter].
  - constructor.
  - destruct (String.eqb_spec (TrimSpace p) "") as [He|He]; cbn [negb]; [exact IH|].
    destruct (regexp_Compile ("(?i)" +:+ TrimSpace p)) as [re|err] eqn:Hc.
    + destruct (load_patterns rest) as [res|e].
      * constructor; [exact Hc | exact IH].
      * intros Hall. inversion Hall; subst. contradiction.
    + intros Hall. inversion Hall as [|? ? [re Hre] _]; subst. congruence.
Qed.

Lemma entries_of_empty `{GoLib} : entries_of "" = [].
Proof.
  unfold entries_of. cbn [Split List.map List.filter]. rewrite TrimSpace_empty.
  reflexivity.
Qed.

(** The loader, as a whole: it returns a configuration exactly for the
    environments that hold an acceptable one, and then the configuration is
    the one read off the environment. *)
Lemma LoadConfig_outcome `{GoLib} `{GoRegexp} (getenv : Environ) :
  match LoadConfig getenv with
  | inl s => loadable getenv /\ loaded getenv s
  | inr _ => ~ loadable getenv
  end.
Proof.
  unfold LoadConfig, loadable, loaded. cbv zeta.
  set (cp := envOrDefault getenv "STATICOMMENT_COMMENTS_PATH" "_data/comments").
  set (pp := getenv "STATICOMMENT_POSTS_PATH").
  destruct (filepath_IsAbs cp) eqn:Hcabs; [intros (Hx & _); discriminate|].
  destruct (HasPrefix (filepath_Clean cp) "..") eqn:Hcesc;
    [intros (_ & Hx & _); discriminate|].
  assert (Hposts :
    match (if negb (String.eqb pp "") then
             if filepath_IsAbs pp then
               inr "STATICOMMENT_POSTS_PATH must be a relative path"
             else if HasPrefix (filepath_Clean pp) ".." then
               inr "STATICOMMENT_POSTS_PATH must not escape the repo directory"
             else inl (filepath_Clean pp)
           else inl pp) with
    | inl p => p = (if String.eqb pp "" then "" else filepath_Clean pp) /\
               (pp = "" \/ (filepath_IsAbs pp = false /\
                            HasPrefix (filepath_Clean pp) ".." = false))
    | inr _ => ~ (pp = "" \/ (filepath_IsAbs pp = false /\
                              HasPrefix (filepath_Clean pp) ".." = false))
    end).
  { destruct (String.eqb_spec pp "") as [Hp|Hp]; cbn [negb]; [auto|].
    destruct (filepath_IsAbs pp); [intros [Hx|[Hx _]]; congruence|].
    destruct (HasPrefix (filepath_Clean pp) "..");
      [intros [Hx|[_ Hx]]; congruence | auto]. }
  destruct (if negb (String.eqb pp "") then _ else _) as [postsPath|e];
    [destruct Hposts as [Hpeq Hpok] | intros (_ & _ & Hx & _); contradiction].
  destruct (String.eqb_spec (getenv "STATICOMMENT_GIT_REPO") "") as [Hrepo|Hrepo];
    [intros (_ & _ & _ & Hx & _); contradiction|].
  destruct (String.eqb_spec (getenv "STATICOMMENT_ALLOWED_ORIGINS") "") as [Ho|Ho].
  { intros (_ & _ & _ & _ & Hx & _). rewrite Ho, entries_of_empty in Hx.
    contradiction. }
  pose proof (load_origins_spec (Split (getenv "STATICOMMENT_ALLOWED_ORIGINS") ","))
    as Horigins.
  fold (entries_of (getenv "STATICOMMENT_ALLOWED_ORIGINS")) in Horigins.
  destruct (load_origins _) as [origins|e];
    [destruct Horigins as [-> Hvalid] | intros (_ & _ & _ & _ & _ & Hx & _); contradiction].
  destruct (entries_of (getenv "STATICOMMENT_ALLOWED_ORIGINS")) as [|o origins] eqn:He;
    cbn [List.length Nat.eqb]; [intros (_ & _ & _ & _ & Hx & _); contradiction|].
  destruct (load_count getenv "STATICOMMENT_RATE_LIMIT_WINDOW" "60") as [n1|e] eqn:H1.
  2:{ intros (_ & _ & _ & _ & _ & _ & Hx & _).
      exact (proj1 (load_count_fails _ _ _) (ex_intro _ e H1) Hx). }
  destruct (load_count getenv "STATICOMMENT_RATE_LIMIT_MAX" "5") as [n2|e] eqn:H2.
  2:{ intros (_ & _ & _ & _ & _ & _ & _ & Hx & _).
      exact (proj1 (load_count_fails _ _ _) (ex_intro _ e H2) Hx). }
  destruct (load_count getenv "STATICOMMENT_MAX_LINKS" "3") as [n3|e] eqn:H3.
  2:{ intros (_ & _ & _ & _ & _ & _ & _ & _ & Hx & _).
      exact (proj1 (load_count_fails _ _ _) (ex_intro _ e H3) Hx). }
  set (bp := getenv "STATICOMMENT_BLOCKED_PATTERNS").
  assert (Hpatterns :
    match (if negb (String.eqb bp "") then load_patterns (Split bp ",") else inl []) with
    | inl res =>
      List.Forall2 (fun p re => regexp_Compile ("(?i)" +:+ p) = inl re)
        (entries_of bp) res
    | inr _ =>
      ~ List.Forall (fun p => exists re, regexp_Compile ("(?i)" +:+ p) = inl re)
          (entries_of bp)
    end).
  { destruct (String.eqb_spec bp "") as [Hb|Hb]; cbn [negb].
    - rewrite Hb, entries_of_empty. constructor.
    - apply load_patterns_spec. }
  destruct (if negb (String.eqb bp "") then _ else _) as [patterns|e];
    [|intros (_ & _ & _ & _ & _ & _ & _ & _ & _ & Hx & _); contradiction].
  destruct (load_count getenv "STATICOMMENT_MIN_SUBMIT_TIME" "5") as [n4|e] eqn:H4.
  2:{ intros (_ & _ & _ & _ & _ & _ & _ & _ & _ & _ & Hx).
      exact (proj1 (load_count_fails _ _ _) (ex_intro _ e H4) Hx). }
  apply load_count_spec in H1, H2, H3, H4.
  cbn [base Port HoneypotField RateLimitWindow RateLimitMax MaxLinks BlockedPatterns
       MinSubmitTime GitRepo Branch CommentsPath PostsPath AllowedOrigins SSHKeyPath
       SSHInsecure].
  split.
  - split; [reflexivity|]. split; [reflexivity|]. split; [exact Hpok|].
    split; [exact Hrepo|]. split; [discriminate|]. split; [exact Hvalid|].
    split; [eauto|]. split; [eauto|]. split; [eauto|].
    split; [|eauto].
    clear -Hpatterns. induction Hpatterns; constructor; eauto.
  - repeat (split; [first [reflexivity | assumption]|]). assumption.
Qed.

(** X18. A configuration that [LoadConfig] returns is sound: the remote and
    the allow-list are there, and every allowed origin is a trimmed entry of
    the variable, not blank, that parses as a URL with a scheme and a host;
    the comments directory is a clean relative path that does not start with
    [..], and so is the posts directory unless it is empty; the four counts
    are the integers of their variables (or of the defaults) and are not
    negative; the branch, the port, the key path and the name of the
    honeypot field are never empty, as an empty variable stands for its
    default; and the blocked patterns are the entries of their variable,
    compiled without regard to case. *)
Theorem LoadConfig_sound `{GoLib} `{GoRegexp} (getenv : Environ) (s : Settings) :
  LoadConfig getenv = inl s ->
  let cfg := base s in
  let origins := entries_of (getenv "STATICOMMENT_ALLOWED_ORIGINS") in
  GitRepo cfg = getenv "STATICOMMENT_GIT_REPO" /\ GitRepo cfg <> "" /\
  AllowedOrigins cfg = origins /\ origins <> [] /\
  (forall o, In o origins ->
     o <> "" /\ (exists e, In e (Split (getenv "STATICOMMENT_ALLOWED_ORIGINS") ",") /\
                           o = TrimSpace e) /\
     valid_origin o) /\
  CommentsPath cfg =
    filepath_Clean (envOrDefault getenv "STATICOMMENT_COMMENTS_PATH" "_data/comments") /\
  filepath_IsAbs (envOrDefault getenv "STATICOMMENT_COMMENTS_PATH" "_data/comments")
    = false /\
  HasPrefix (CommentsPath cfg) ".." = false /\
  ((getenv "STATICOMMENT_POSTS_PATH" = "" /\ PostsPath cfg = "") \/
   (PostsPath cfg = filepath_Clean (getenv "STATICOMMENT_POSTS_PATH") /\
    filepath_IsAbs (getenv "STATICOMMENT_POSTS_PATH") = false /\
    HasPrefix (PostsPath cfg) ".." = false)) /\
  (SSHInsecure cfg = true <-> getenv "STATICOMMENT_SSH_INSECURE" = "1") /\
  Branch cfg <> "" /\ Port s <> "" /\ SSHKeyPath cfg <> "" /\ HoneypotField s <> "" /\
  valid_count getenv "STATICOMMENT_RATE_LIMIT_WINDOW" "60" (RateLimitWindow s) /\
  valid_count getenv "STATICOMMENT_RATE_LIMIT_MAX" "5" (RateLimitMax s) /\
  valid_count getenv "STATICOMMENT_MAX_LINKS" "3" (MaxLinks s) /\
  valid_count getenv "STATICOMMENT_MIN_SUBMIT_TIME" "5" (MinSubmitTime s) /\
  List.Forall2 (fun p re => regexp_Compile ("(?i)" +:+ p) = inl re)
    (entries_of (getenv "STATICOMMENT_BLOCKED_PATTERNS")) (BlockedPatterns s).
Proof.
  intros Hload. cbv zeta. pose proof (LoadConfig_outcome getenv) as Hout.
  rewrite Hload in Hout.
  destruct Hout as [(Hcabs & Hcesc & Hposts & Hrepo & Hne & Hvalid & _)
                    (Eg & Eb & Ec & Ep & Eo & Ek & Ei & Ept & Eh & C1 & C2 & C3 & Pat & C4)].
  rewrite Eg, Eb, Ec, Ep, Eo, Ek, Ei, Ept, Eh.
  split; [reflexivity|]. split; [exact Hrepo|]. split; [reflexivity|].
  split; [exact Hne|]. split.
  { intros o Hin. rewrite List.Forall_forall in Hvalid.
    split; [|split; [|exact (Hvalid o Hin)]].
    - unfold entries_of in Hin. apply List.filter_In in Hin as [_ Hnb].
      apply negb_true_iff, String.eqb_neq in Hnb. exact Hnb.
    - unfold entries_of in Hin. apply List.filter_In in Hin as [Hin _].
      apply List.in_map_iff in Hin as (e & <- & He). eauto. }
  split; [reflexivity|]. split; [exact Hcabs|]. split; [exact Hcesc|].
  split.
  { destruct (String.eqb_spec (getenv "STATICOMMENT_POSTS_PATH") "") as [Hp|Hp];
      [left; auto|]. right. destruct Hposts as [Hx|[Ha Hb]]; [contradiction|]. auto. }
  split; [apply String.eqb_eq|].
  repeat (split; [apply envOrDefault_nonempty; discriminate|]).
  auto 10.
Qed.

(** X19. [LoadConfig] returns a configuration exactly when the environment
    holds an acceptable one: relative paths that stay in the repository, a
    remote, at least one origin and only valid ones, counts that are
    non-negative integers, and patterns that compile.  Otherwise it returns an
    error. *)
Theorem LoadConfig_succeeds_iff `{GoLib} `{GoRegexp} (getenv : Environ) :
  ((exists s, LoadConfig getenv = inl s) <-> loadable getenv) /\
  ((exists e, LoadConfig getenv = inr e) <-> ~ loadable getenv).
Proof.
  pose proof (LoadConfig_outcome getenv) as Hout.
  destruct (LoadConfig getenv) as [s|e].
  - destruct Hout as [Hl _]. split; split.
    + intros _. exact Hl.
    + intros _. eauto.
    + intros [e He]. discriminate.
    + intros Hn. contradiction.
  - split; split.
    + intros [s Hs]. discriminate.
    + intros Hl. contradiction.
    + intros _. exact Hout.
    + intros _. eauto.
Qed.

End LoaderFacts.

(** ** Further properties on examples *)

Module MoreExamples.
Import GoString GoInt Http Spam Sys Git GitSpec Handler SimpleLib.
Import Examples HandlerSpec Loader SimpleMore.

(** A submission with a bad slug is sent back to the page it came from, which
    is on the allowed site. *)
Lemma ServeHTTP_redirect_allowed_witness :
  let r := post "https://example.com"
             [("name", "Ann"); ("body", "Hello"); ("slug", "../../etc");
              ("url", "https://example.com/p")] in
  let u := {| su_scheme := "https"; su_host := "example.com"; su_path := "/p" |} in
  fst (ServeHTTP site an_instant an_instant r (world (always "") ∅)) =
    RedirectError u "Invalid slug" /\
  Method r = "POST" /\ checkOrigin site r = true /\ ParseFormErr r = false /\
  url_Parse (form_field r "url") = Some u /\
  In (Scheme u +:+ "://" +:+ Host u) (AllowedOrigins site).
Proof.
  intros r u.
  assert (Hr : fst (ServeHTTP site an_instant an_instant r (world (always "") ∅)) =
               RedirectError u "Invalid slug") by compute_eq.
  split; [exact Hr|].
  apply (HandlerMore.ServeHTTP_redirect_allowed (H := lib) site an_instant an_instant r
           (world (always "") ∅) u).
  left. exists "Invalid slug". exact Hr.
Defined.

(** A valid submission, in a world where everything succeeds. *)
Lemma ServeHTTP_submitted_witness :
  let r := post "https://example.com"
             [("name", "Ann"); ("body", "Hello"); ("slug", "my-post");
              ("url", "https://example.com/p")] in
  let u := {| su_scheme := "https"; su_host := "example.com"; su_path := "/p" |} in
  let out := ServeHTTP site an_instant an_instant r (world (always "abcd") ∅) in
  fst out = RedirectSubmitted u /\
  validated site r = true /\
  exists b data rest,
    yaml_Marshal (comment_of an_instant r) = Some data /\
    push_trace site 3 rest None /\
    files (snd out) =
      {[ FullPath (record_path site (form_field r "slug") an_instant b) := data ]}.
Proof.
  intros r u out.
  assert (Hr : fst out = RedirectSubmitted u) by compute_eq.
  split; [exact Hr|].
  destruct (HandlerMore.ServeHTTP_submitted (H := lib) site an_instant an_instant r
              (world (always "abcd") ∅) u Hr)
    as (Hv & _ & pre & b & data & o1 & o2 & o3 & o4 & o5 & rest & _ & Hd & _ & Hp & _ & Hf).
  split; [exact Hv|]. exists b, data, rest.
  split; [exact Hd|]. split; [exact Hp|]. exact Hf.
Defined.

(** The remote cannot be reached: the record is written, the pull fails, and
    the record stays in the working copy. *)
Lemma ServeHTTP_publish_failed_witness :
  let r := post "https://example.com"
             [("name", "Ann"); ("body", "Hello"); ("slug", "my-post");
              ("url", "https://example.com/p")] in
  let u := {| su_scheme := "https"; su_host := "example.com"; su_path := "/p" |} in
  let w := world (scripted [Ok ""; Ok "abcd"; Ok ""; Err "offline"]) ∅ in
  let out := ServeHTTP site an_instant an_instant r w in
  fst out = RedirectError u "Failed to publish comment" /\
  exists b data,
    yaml_Marshal (comment_of an_instant r) = Some data /\
    files (snd out) !! FullPath (record_path site (form_field r "slug") an_instant b) =
      Some data.
Proof.
  intros r u w out.
  assert (Hr : fst out = RedirectError u "Failed to publish comment") by compute_eq.
  split; [exact Hr|].
  destruct (HandlerMore.ServeHTTP_publish_failed (H := lib) site an_instant an_instant r w u Hr)
    as (pre & b & data & o1 & o2 & tr & Hd & _ & _ & _ & Hf).
  exists b, data. split; [exact Hd | exact Hf].
Defined.

(** The remote of the example site is of the SSH form. *)
Lemma extractHost_ssh_form_witness :
  exists user rest,
    "git@github.com:you/your-site.git" = user +:+ "@" +:+ rest /\
    ~ InStr "@" user /\
    SplitN2 "git@github.com:you/your-site.git" "@" = [user; rest] /\
    ~ InStr ":" (extractHost "git@github.com:you/your-site.git") /\
    ((~ InStr ":" rest /\ extractHost "git@github.com:you/your-site.git" = rest) \/
     (exists path,
        rest = extractHost "git@github.com:you/your-site.git" +:+ ":" +:+ path)).
Proof.
  apply (GitMore.extractHost_ssh_form (H := lib) "git@github.com:you/your-site.git");
    reflexivity.
Defined.

(** The store lists another host; the keys of the site's host are added, and
    the other host is still listed. *)
Lemma ensureHostKeys_keeps_entries_witness :
  let w := world (always "github.com ssh-ed25519 AAAA")
             {[ knownHostsPath := "gitlab.com ssh-ed25519 BBBB" ]} in
  exists data',
    files (snd (ensureHostKeys site w)) !! knownHostsPath = Some data' /\
    known_in "gitlab.com" data' = true.
Proof.
  intros w.
  apply (GitMore.ensureHostKeys_keeps_entries (H := lib) site w "gitlab.com"
           "gitlab.com ssh-ed25519 BBBB"); reflexivity.
Defined.

(** Host checking is off and the remote cannot be reached: one clone, no
    scan, and the clone's error. *)
Lemma Clone_insecure_witness :
  let cfg := {| GitRepo := "git@github.com:you/your-site.git"; Branch := "main";
                CommentsPath := "_data/comments"; PostsPath := "";
                AllowedOrigins := ["https://example.com"];
                SSHKeyPath := "/app/.ssh/id_ed25519"; SSHInsecure := true |} in
  let w := world (scripted [Err "stat"; Ok ""; Err "unreachable"]) ∅ in
  exists tr,
    history (snd (Clone cfg w)) = tr /\
    (count_action (clone cfg) tr <= 1)%nat /\
    (In (clone cfg, Err "unreachable") tr ->
     fst (Clone cfg w) = wrap_err "git clone" "unreachable").
Proof.
  intros cfg w.
  destruct (GitMore.Clone_insecure (H := lib) cfg w eq_refl)
    as (tr & Hh & Hc & _ & Hlast).
  exists tr. split; [exact Hh|]. split; [exact Hc|].
  intros Hin. apply (Hlast _ Hin).
Defined.

(** The directory of the post's comments cannot be created: the comment is
    not saved, and git is not run. *)
Lemma ServeHTTP_save_failed_witness :
  let r := post "https://example.com"
             [("name", "Ann"); ("body", "Hello"); ("slug", "my-post");
              ("url", "https://example.com/p")] in
  let u := {| su_scheme := "https"; su_host := "example.com"; su_path := "/p" |} in
  let w := world (scripted [Err "read-only file system"]) ∅ in
  let out := ServeHTTP site an_instant an_instant r w in
  fst out = RedirectError u "Failed to save comment" /\
  validated site r = true /\
  exists tr,
    history (snd out) = (history w ++ tr)%list /\ tr <> [] /\
    List.Forall (fun e => is_run (fst e) = false) tr.
Proof.
  intros r u w out.
  assert (Hr : fst out = RedirectError u "Failed to save comment") by compute_eq.
  split; [exact Hr|].
  exact (HandlerMore.ServeHTTP_save_failed (H := lib) site an_instant an_instant r w u Hr).
Defined.

(** An environment that sets the remote, two origins and the maximum of the
    rate limiter, and leaves the rest to the defaults. *)
Lemma LoadConfig_sound_witness :
  let getenv := env_of
    [("STATICOMMENT_GIT_REPO", "git@github.com:you/your-site.git");
     ("STATICOMMENT_ALLOWED_ORIGINS", "https://example.com, https://www.example.com");
     ("STATICOMMENT_RATE_LIMIT_MAX", "10")] in
  let s := {| base := {| GitRepo := "git@github.com:you/your-site.git";
                         Branch := "main";
                         CommentsPath := "_data/comments";
                         PostsPath := "";
                         AllowedOrigins :=
                           ["https://example.com"; "https://www.example.com"];
                         SSHKeyPath := "/app/.ssh/id_ed25519";
                         SSHInsecure := false |};
              Port := "8080"; HoneypotField := "website";
              RateLimitWindow := 60; RateLimitMax := 10; MaxLinks := 3;
              BlockedPatterns := []; MinSubmitTime := 5 |} in
  LoadConfig getenv = inl s /\
  AllowedOrigins (base s) = entries_of (getenv "STATICOMMENT_ALLOWED_ORIGINS") /\
  (forall o, In o (entries_of (getenv "STATICOMMENT_ALLOWED_ORIGINS")) ->
     valid_origin o) /\
  valid_count getenv "STATICOMMENT_RATE_LIMIT_MAX" "5" (RateLimitMax s).
Proof.
  intros getenv s.
  assert (Hl : LoadConfig getenv = inl s) by compute_eq.
  split; [exact Hl|].
  destruct (LoaderFacts.LoadConfig_sound (H := lib) (H0 := more) getenv s Hl)
    as (_ & _ & Ho & _ & Hvalid & _ & _ & _ & _ & _ & _ & _ & _ & _ & _ & Hmax & _).
  split; [exact Ho|]. split; [|exact Hmax].
  intros o Hin. apply (Hvalid o Hin).
Defined.

(** The name of the record of the example. *)
Lemma writeComment_file_name_witness :
  let c := {| Name := "Ann"; Email := ""; Body := "Hello";
              Date := "2024-01-02T15:04:05Z"; Slug := "my-post"; ReplyTo := "" |} in
  exists name,
    "_data/comments/my-post/20240102150405-61626364.yml" =
      filepath_Join (filepath_Join (CommentsPath site) (Slug c)) name /\
    String.length name = 27%nat /\
    (forall ch, InStr ch name -> InStr ch "0123456789abcdef-.yml") /\
    ContainsAny name "/\" = false.
Proof.
  intros c.
  apply (RecordNames.writeComment_file_name (H := lib) site an_instant c
           (world (always "abcd") ∅)).
  compute_eq.
Defined.

End MoreExamples.
